(* ===== verification/_CoqProject ===== *)
-Q . S2P
Prelude.v
JsString.v
JsNumber.v
JsValue.v
Aggregate.v
Cost.v
Types.v
Api.v
DiffSpec.v
History.v
Fetch.v
Templates.v
Shown.v
Routes.v
Lifecycle.v
Html.v
Table.v
Browser.v
Dispatch.v
