(* ===== verification/Prelude.v ===== *)
(** * Deep-history worker: a verification development

    The program (TypeScript, a Hono worker) shows, for one OpenStreetMap
    element, how every attribute, tag, node reference and member changed
    over its edit history.  A route parses the identifier, fetches the
    list of versions from the OpenStreetMap API, computes one row of cells
    per attribute (one cell per version, each cell classified as
    notpresent / new / removed / changed / unchanged) and hands the rows
    to an HTML template; an error handler shows a page for an element
    that does not exist.  A script of the page scrolls to the column of
    the version named in the address.

    ** Files, in dependency order

    - [Prelude] (this file): the [js_scope] notations, the class [JsEq] of
      types that carry JavaScript's strict equality, the array built-ins
      the sources call ([includes], [indexOf], [push]), the exception
      monad [result] with [catch], the tactics and the hint databases of
      the development, and the list lemmas the components share.
    - [JsString]: [slice], [String.prototype.replace] with a string
      pattern and the [$] patterns of the replacement text, the global
      replacement of one character, [join] and [encodeURIComponent].
    - [JsNumber]: [number], a decimal [mant * 10^-scale], with [===] on
      numbers, [String(x)] ([num_to_string]) and [parseInt(s, 10)].
    - [JsValue]: [value], the union null / undefined / boolean / number /
      string / built-in object; [strict_eq] is [===], [to_boolean]
      truthiness, [to_string] the [String(...)] conversion,
      [object_prototype_get] the properties every object inherits.
    - [Aggregate]: the first-seen, duplicate-free key collection that the
      sources write three times as a nested loop; its reference definition
      [nub] and the equivalence of the two.
    - [Cost]: the number of [===] comparisons the membership scans of
      these loops make ([includes_steps], [collect_steps]).
    - [Types]: the records of [src/src/types.ts] ([OSMElement],
      [OSMMember], [CellInfo]) and the property lookup on a tag object.
    - [Api]: [computeAllTagKeys], [pairwise] and [changeRow] of
      [src/src/api.ts], with [classify], the five-way classification that
      [changeRow] inlines.
    - [DiffSpec]: the abstract classification table (absent / present
      values), the interface [Accessor] an accessor has to meet for
      [changeRow] to implement that table, the refinement theorem, and
      the interface [NeverNull] of the accessors that do not meet it.
    - [History]: the three element handlers of
      [src/src/routes/history.ts] between the fetch and the template:
      the accessors, the property, tag, node and member lines.
    - [Fetch]: [fetchAndParseJson] and the three fetchers of
      [src/src/api.ts], over a network given as a function from the URL
      to a response or a rejection; the exceptions of the program.
    - [Templates]: every function of [src/src/templates.ts] as the
      function from its arguments to the text it returns: [escapeHtml],
      [truncate], [renderCell], the table header, the property and tag
      lines, and the five pages.
    - [Routes]: the routes of [src/src/routes/history.ts] and
      [src/src/index.ts] from the matched route to the HTML text of the
      response or the redirect: the legacy [.php] redirects, the element
      routes ([parseInt], fetch, handler, template), [onError], [app].
    - [Lifecycle]: the [async] handlers as a transition system over their
      suspension points ([await fetch], [await response.json()]), with
      the exception handler as a step, and a pool of requests whose steps
      interleave.
    - [Html]: what a reader of HTML makes of a page (its tags, the
      elements they open and close, the identifiers and form targets),
      and [well_formed], the pages whose tags are those of the templates,
      properly nested, with the one script of [baseTemplate].
    - [Shown]: the text a browser shows for a piece of a page: what
      stands between its tags, with the entities read as characters.
    - [Table]: the table a browser lays out from a page: its rows, each
      as the classes of its cells, read by a scanner of the text.
    - [Browser]: [scrollToId] and [window.onload] of
      [src/public/history/app.js], over the document a page gives, and
      the resolution of the form targets of the index page.
    - [Dispatch]: the routes as [src/src/routes/history.ts] and
      [src/src/index.ts] register them ([history_table], [app_table]),
      and the matching of the method and the path of a request to the
      first of them ([dispatch]).

    ** Correspondence with the code

    Every definition keeps the name of the function, variable or field it
    models; the fields of [OSMElement] and [OSMMember] carry the prefix
    [el_] and [m_] because [type] and [id] would clash, the handler of a
    route is named after its route ([node_php], [node_route], ...).  A
    [for ... of] loop that pushes onto an array is a [fold_left] whose
    step appends one element; a counted [for] loop is a bind over [seq];
    an optional field is an [option]; [null] and [undefined] are two
    distinct values, because [changeRow] tests [=== null] only.  A
    function that can throw returns a [result]: [Return] of its value or
    [Throw] of the exception, and [await] is the bind of that monad.  A
    template literal is the concatenation of its pieces, with the line
    breaks and the indentation of the source; the double quote is the
    constant [q] of [Templates].  A suspension point of an [async]
    function is a state of [Lifecycle.state]; what the function does
    between two of them is one step ([start], [settle], [read]), built
    from the same functions as [app].

    ** What the theorems show

    - [JsString], [JsNumber]: [replace] cuts the string at the first
      occurrence of the pattern and inserts the replacement text, which
      stands for itself when it has no dollar sign; an integer below
      [10^21] prints as its decimal numeral, and [parseInt] reads a
      printed integer back.
    - [Aggregate]: the nested loops compute exactly [nub] of the
      concatenated key lists: no two collected keys are equal under [===],
      every key seen is represented, the order is the order of first
      occurrence, and collecting is idempotent.
    - [Cost]: the loops make at most (keys read) x (keys collected)
      comparisons, and exactly [n (n - 1) / 2] on a version with [n]
      different keys: the scans are linear and the collection quadratic.
    - [Api]: [pairwise] is the zip of the shifted list; [changeRow] has one
      cell per version and its i-th cell is [classify] of the accessor at
      versions i-1 and i; [classify] is characterised on every branch,
      [undefined] included; the link of a cell exists exactly when the
      template and the value are truthy.
    - [DiffSpec]: for an accessor that signals absence by [null], and
      only so, [changeRow] implements the abstract table; the rows of an
      accessor that never returns [null] start with "new" and never
      contain "notpresent" or "removed".
    - [History]: every line of every handler has one cell per version;
      the node-index accessor meets [Accessor], so the node lines are the
      abstract rows; the tag, coordinate and member accessors are
      [NeverNull], and their rows are characterised cell by cell; the
      links of the user and changeset lines.
    - [Fetch]: [fetchAndParseJson] characterised by outcome: when it
      returns, when it throws [ElementDoesntExistException] and with
      which URL, the HTTP error, the errors of the body.
    - [Templates]: the five replacements of [escapeHtml] amount to one
      pass over the text, whose result has no angle bracket and no quote
      and reads back as the text; the text [truncate] and [renderCell]
      write for the cells the handlers compute cannot leave the element
      or the attribute it is written in; the element pages are rendered
      exactly when the history has a version.
    - [Routes]: the response of the application for a history that is
      found, missing (status 404) or empty; no
      [ElementDoesntExistException] leaves the application; the legacy
      redirects.
    - [Lifecycle]: the transition system refines [app] (every run that
      finishes, finishes with what [app] computes, and one does within
      four steps); every run terminates whatever the network answers; a
      request calls the API at most once, first, with the URL of its
      history; in a pool, the steps of one request are a run of that
      request alone, and at every point some request can step or all
      have finished.
    - [Html]: every page the application answers with is well formed,
      whatever the history holds, and the identifiers of the page of a
      history are those of the columns of its versions.  The proofs read
      a template piece by piece: a literal by computation, a value of
      the history by the lemma for the place it stands in.
    - [Shown]: the cell of a value shows the value, cut after
      [MAX_COLUMN_LENGTH] code units and followed by an ellipsis when it
      is longer; escaping changes nothing of what is read.
    - [Table]: the table of the page of a history is the matrix the
      handler computed: the header, then for each section its banner and
      one row for each line, with the classes [changeRow] gave the
      cells; it is rectangular exactly when the history has fewer than a
      thousand versions, the most a banner can span.
    - [Browser]: the script on every branch; a page opened at the
      fragment of a version scrolls to the column of that version; the
      form targets of the index page, resolved from [/history], are not
      under the mount point of the routes that answer them.

    - [Dispatch]: a request reaches a route exactly when its method is
      GET and its path is the path of the route; the redirects of the
      application lead to its routes; the forms of the index page,
      resolved from [/history], lead to none.  [serve_element] puts the
      parts together: a request for the page of an element that the API
      answers with a history is answered with the page of that history,
      well formed, with the matrix of the handler as its table.

    ** Bounds

    - A [number] stands for the IEEE double nearest to [mant * 10^-scale].
      The model is exact for the numbers JSON text of at most 15
      significant digits denotes (identifiers, changesets, indices,
      coordinates with 7 decimals): on these, equality of doubles is
      equality of decimal values and [String] prints the shortest decimal.
      NaN and the infinities do not arise from [JSON.parse]; -0 is
      identified with 0, which no operation used here can tell apart.
      [parseInt] returns an integer of any size where JavaScript rounds
      to a double beyond [2^53]; identifiers are far below.
    - A [string] is a sequence of 8-bit code units where JavaScript has
      16-bit ones; every string operation modelled works unit by unit.
      [length] and [slice] in [truncate] count these units: for text
      outside ASCII the cut after [MAX_COLUMN_LENGTH] units falls after
      20 bytes of UTF-8 in the model and after 20 UTF-16 units in the
      program.  The ellipsis of [truncate] is held as its UTF-8 bytes.
    - No definition of the program needs fuel: every loop of the sources
      is bounded by the length of an array or of a string.  The reader
      of entities [unescape], which is a specification, takes the length
      of its text as fuel; [unescapeHtml_escapeHtml] shows it enough.
      [Lifecycle.run] takes the number of steps as fuel: four are enough
      from the start ([run_app]), [remaining s] from a state [s].
    - [Cost] counts comparisons, the unit of the scans of [includes] and
      [some]; the cost of one comparison and of [push] is not modelled.
    - The scanner of [Table] reads [td], [th], [tr] and the attributes
      [class] and [colspan]; [span_of] reads a [colspan] as HTML does: 1
      when it is no positive number, at most 1000.  [page_table] asks
      for fewer than [10^21 - 1] versions, below which [String] prints
      the digits of the number of columns.
    - The reader of [Html] knows the HTML the templates write: tags with
      double-quoted attribute values, no comments, no script text.  It
      treats every [<] of the text as the start of a tag, which is
      stricter than HTML.  [resolve] of [Browser] is the resolution of a
      relative reference without dot segments, query or fragment.

    ** Not modelled

    - The framework itself.  [Dispatch] follows what the documentation
      of Hono says of the matching: a path is matched segment by
      segment, [:id] stands for one segment that is not empty, a slash
      at the end of a path counts, and the first route registered wins.
      The percent-decoding of a parameter, HEAD requests, the removal
      of dot segments by the browser, and the replies of the framework
      when no route matches or an exception is not caught are not
      modelled.  [src/src/routes/history.ts] and [src/src/index.ts] hold
      nothing else that is not modelled.
    - The HTTP exchange: the network is an argument of the fetchers, or
      the environment of the transition system.
    - The scheduling of promise reactions inside the runtime: a step of
      [Lifecycle] runs from one suspension on the network to the next.
    - The rendering and the scrolling of the browser: [Browser] stops at
      the call of [scrollIntoView].
    - The style sheet and the icons the pages refer to, which are not
      code. *)

From stdpp Require Export prelude strings.

Declare Scope js_scope.
Delimit Scope js_scope with js.

(** ** Strict equality

    [JsEq A] says that the values of [A] carry JavaScript's [===]: a
    boolean test that is an equivalence.  It may be coarser than Leibniz
    equality (two decimals that denote the same number), which is why the
    laws are stated on the test itself. *)

Class JsEq (A : Type) := {
  same : A → A → bool;
  same_refl : ∀ x, same x x = true;
  same_sym : ∀ x y, same x y = same y x;
  same_trans : ∀ x y z, same x y = true → same y z = true → same x z = true;
}.

#[global] Hint Mode JsEq ! : typeclass_instances.
Arguments same {A _} _ _ : simpl never.

Notation "x === y" := (same x y) (at level 70, no associativity) : js_scope.
Notation "x !== y" := (negb (same x y)) (at level 70, no associativity) : js_scope.

#[export] Instance jseq_equiv `{JsEq A} : Equiv A := λ x y, same x y = true.

(** The kernel of a function into a type with decidable equality is a
    [JsEq]: two values are the same when their canonical forms are equal. *)
Definition kernel_JsEq {A B : Type} `{EqDecision B} (f : A → B) : JsEq A.
Proof.
  refine {| same x y := bool_decide (f x = f y) |}.
  - intros x. by apply bool_decide_eq_true.
  - intros x y. apply bool_decide_ext. naive_solver.
  - intros x y z Hxy%bool_decide_eq_true Hyz%bool_decide_eq_true.
    apply bool_decide_eq_true. congruence.
Defined.

(** Leibniz equality of a type with decidable equality is a [JsEq]: this is
    how strings and booleans compare. *)
Definition leibniz_JsEq (A : Type) `{EqDecision A} : JsEq A :=
  kernel_JsEq (λ x : A, x).

#[export] Instance string_JsEq : JsEq string := leibniz_JsEq string.
#[export] Instance bool_JsEq : JsEq bool := leibniz_JsEq bool.
#[export] Instance Z_JsEq : JsEq Z := leibniz_JsEq Z.

(** ** Exceptions

    A computation that may throw: [Return a] is normal completion with
    value [a], [Throw e] an exception [e] that was not caught.  [x ← m; k]
    runs [k] on the value of [m] and passes an exception of [m] on;
    [catch m h] runs the handler [h] on an exception of [m]. *)

Inductive result (E A : Type) :=
  | Return (a : A)
  | Throw (e : E).

Arguments Return {E A} a.
Arguments Throw {E A} e.

#[export] Instance result_ret {E} : MRet (result E) := λ A a, Return a.

#[export] Instance result_bind {E} : MBind (result E) := λ A B k m,
  match m with
  | Return a => k a
  | Throw e => Throw e
  end.

Definition catch {E A} (m : result E A) (h : E → result E A) : result E A :=
  match m with
  | Return a => Return a
  | Throw e => h e
  end.

(** ** Array built-ins *)

Section array.
Context `{JsEq A}.

(** [arr.push(x)]: the array with [x] after its last element. *)
Definition push (arr : list A) (x : A) : list A := arr ++ [x].

(** [arr.includes(x)]: some element is the same value as [x]. *)
Definition includes (arr : list A) (x : A) : bool :=
  existsb (λ y, same y x) arr.

(** [arr.indexOf(x)]: the first index whose element is [=== x], or -1. *)
Fixpoint indexOf_from (from : Z) (arr : list A) (x : A) : Z :=
  match arr with
  | [] => -1
  | y :: arr' => if same y x then from else indexOf_from (from + 1) arr' x
  end.

Definition indexOf (arr : list A) (x : A) : Z := indexOf_from 0 arr x.
End array.

Arguments push {A} _ _ /.
Arguments includes {A _} _ _ : simpl never.
Arguments indexOf {A _} _ _ : simpl never.

(** ** Tactics *)

(** Case analysis on the first [same _ _] test of the goal, keeping the
    equation. *)
Ltac case_same :=
  match goal with
  | |- context [same ?x ?y] =>
      let E := fresh "Esame" in destruct (same x y) eqn:E
  end.

(** Turn boolean connectives of hypotheses and goal into propositions. *)
Ltac bool_to_prop :=
  repeat match goal with
  | H : _ && _ = true |- _ => apply andb_true_iff in H; destruct H
  | H : _ || _ = false |- _ => apply orb_false_iff in H; destruct H
  | H : negb _ = true |- _ => apply negb_true_iff in H
  | H : negb _ = false |- _ => apply negb_false_iff in H
  | |- _ && _ = true => apply andb_true_iff; split
  | |- _ || _ = false => apply orb_false_iff; split
  | |- negb _ = true => apply negb_true_iff
  | |- negb _ = false => apply negb_false_iff
  end.

Create HintDb js discriminated.
Create Rewrite HintDb js_rw.

(** ** Laws of strict equality *)

Section same.
Context `{JsEq A}.
Implicit Types x y z : A.

#[export] Instance same_equivalence : Equivalence (≡@{A}).
Proof.
  split.
  - intros x. apply same_refl.
  - intros x y Hxy. unfold equiv, jseq_equiv in *. by rewrite same_sym.
  - intros x y z. apply same_trans.
Qed.

#[export] Instance same_dec : RelDecision (≡@{A}).
Proof. intros x y. unfold equiv, jseq_equiv. apply _. Defined.

#[export] Instance same_proper : Proper ((≡) ==> (≡) ==> (=)) (same (A:=A)).
Proof.
  intros x x' Hx y y' Hy.
  destruct (same x y) eqn:E1, (same x' y') eqn:E2; try done.
  - rewrite <- E2. symmetry.
    apply (same_trans x' x y'); [by rewrite same_sym|].
    by apply (same_trans x y y').
  - rewrite <- E1.
    apply (same_trans x x' y); [done|].
    apply (same_trans x' y' y); [done|]. by rewrite same_sym.
Qed.

Lemma same_true_equiv x y : same x y = true ↔ x ≡ y.
Proof. done. Qed.

Lemma same_false_equiv x y : same x y = false ↔ x ≢ y.
Proof. unfold equiv, jseq_equiv. by destruct (same x y). Qed.
End same.

#[export] Hint Resolve same_refl : js.
#[export] Hint Rewrite @same_refl : js_rw.

Lemma same_leibniz `{EqDecision A} (x y : A) :
  @same A (leibniz_JsEq A) x y = bool_decide (x = y).
Proof. done. Qed.

Lemma string_same (s t : string) : same s t = bool_decide (s = t).
Proof. done. Qed.

Lemma bool_same (b c : bool) : same b c = bool_decide (b = c).
Proof. done. Qed.

Lemma Z_same (x y : Z) : same x y = bool_decide (x = y).
Proof. done. Qed.

#[export] Hint Rewrite string_same bool_same Z_same : js_rw.

(** ** Lemmas on the array built-ins *)

Section array_lemmas.
Context `{JsEq A}.
Implicit Types (x y : A) (l k : list A).

Lemma includes_nil x : includes [] x = false.
Proof. done. Qed.

Lemma includes_cons y l x : includes (y :: l) x = same y x || includes l x.
Proof. done. Qed.

Lemma includes_app l k x : includes (l ++ k) x = includes l x || includes k x.
Proof. apply existsb_app. Qed.

Lemma includes_push l y x : includes (push l y) x = includes l x || same y x.
Proof. simpl. rewrite includes_app, includes_cons, includes_nil. by rewrite orb_false_r. Qed.

Lemma includes_true l x : includes l x = true ↔ ∃ y, y ∈ l ∧ y ≡ x.
Proof.
  unfold includes. rewrite existsb_exists.
  by setoid_rewrite <- list_elem_of_In.
Qed.

Lemma includes_false l x : includes l x = false ↔ ∀ y, y ∈ l → y ≢ x.
Proof.
  rewrite <- not_true_iff_false, includes_true. split.
  - intros Hn y Hy Hyx. apply Hn. eauto.
  - intros Hall (y & Hy & Hyx). by apply (Hall y).
Qed.

Lemma elem_of_includes l x : x ∈ l → includes l x = true.
Proof. intros Hx. apply includes_true. by exists x. Qed.

Lemma includes_concat (ls : list (list A)) x :
  includes (concat ls) x = true ↔ ∃ l, l ∈ ls ∧ includes l x = true.
Proof.
  induction ls as [|l ls IH]; simpl.
  - rewrite includes_nil. split; [done|]. by intros (? & ?%elem_of_nil & _).
  - rewrite includes_app, orb_true_iff, IH. split.
    + intros [Hl|(k & Hk & Hx)]; [exists l|exists k]; split; try done.
      * left.
      * by right.
    + intros (k & [->|Hk]%elem_of_cons & Hx); [by left|right; eauto].
Qed.

#[export] Instance includes_proper l : Proper ((≡) ==> (=)) (includes l).
Proof.
  intros x x' Hx. unfold includes.
  induction l as [|y l IH]; simpl; [done|].
  by rewrite IH, Hx.
Qed.

Lemma indexOf_from_shift from l x :
  indexOf_from from l x =
    (if includes l x then from + indexOf l x else -1)%Z.
Proof.
  unfold indexOf. revert from.
  induction l as [|y l IH]; intros from; [done|].
  rewrite includes_cons. cbn [indexOf_from].
  destruct (same y x); simpl; [lia|].
  rewrite (IH (from + 1)%Z), (IH (0 + 1)%Z).
  destruct (includes l x); lia.
Qed.

Lemma indexOf_cons y l x :
  indexOf (y :: l) x =
    (if same y x then 0 else
     if includes l x then 1 + indexOf l x else -1)%Z.
Proof.
  unfold indexOf at 1. cbn [indexOf_from]. destruct (same y x); [done|].
  apply indexOf_from_shift.
Qed.

Lemma indexOf_absent l x : includes l x = false → indexOf l x = (-1)%Z.
Proof.
  induction l as [|y l IH]; [done|].
  rewrite includes_cons, indexOf_cons.
  intros [-> ->]%orb_false_iff. done.
Qed.

Lemma indexOf_range l x :
  includes l x = true → (0 ≤ indexOf l x < Z.of_nat (length l))%Z.
Proof.
  induction l as [|y l IH]; [done|].
  rewrite includes_cons, indexOf_cons. simpl length.
  destruct (same y x); simpl; [lia|].
  intros Hin. rewrite Hin. specialize (IH Hin). lia.
Qed.

(** [indexOf] is non-negative exactly when the array includes the value:
    the test [idx >= 0] of the sources is a membership test. *)
Lemma indexOf_nonneg l x : (0 <=? indexOf l x)%Z = includes l x.
Proof.
  destruct (includes l x) eqn:E.
  - apply Z.leb_le. by apply indexOf_range.
  - rewrite indexOf_absent by done. done.
Qed.

(** The element found is the first one that is the same value. *)
Lemma indexOf_lookup l x i :
  indexOf l x = Z.of_nat i ↔
    (∃ y, l !! i = Some y ∧ y ≡ x) ∧ includes (take i l) x = false.
Proof.
  revert i. induction l as [|y l IH]; intros i.
  - unfold indexOf. simpl. split; [lia|]. by intros [(? & ? & _) _].
  - rewrite indexOf_cons. destruct i as [|i]; simpl.
    + destruct (same y x) eqn:E.
      * split; [|done]. intros _. split; [|done]. by exists y.
      * split.
        { destruct (includes l x) eqn:Hin; [|lia].
          pose proof (indexOf_range l x Hin). lia. }
        { intros [(y' & [= <-] & Hy) _].
          unfold equiv, jseq_equiv in Hy. congruence. }
    + rewrite includes_cons. destruct (same y x) eqn:E; simpl.
      * split; [lia|]. by intros [_ ?].
      * destruct (includes l x) eqn:Hin.
        { rewrite <- IH. lia. }
        { split; [lia|]. intros [(y' & Hy' & Hyx) _].
          apply includes_false with (y:=y') in Hin; [done|].
          by eapply list_elem_of_lookup_2. }
Qed.
End array_lemmas.

#[export] Hint Rewrite @includes_nil @includes_cons @includes_app
  @includes_push : js_rw.

(** ** Types whose strict equality is Leibniz equality *)

Class JsEqLeibniz (A : Type) `{JsEq A} : Prop :=
  same_eq : ∀ x y : A, same x y = true → x = y.

#[global] Hint Mode JsEqLeibniz ! - : typeclass_instances.

#[export] Instance string_JsEqLeibniz : JsEqLeibniz string.
Proof. intros x y. by rewrite string_same, bool_decide_eq_true. Qed.

#[export] Instance bool_JsEqLeibniz : JsEqLeibniz bool.
Proof. intros x y. by rewrite bool_same, bool_decide_eq_true. Qed.

#[export] Instance Z_JsEqLeibniz : JsEqLeibniz Z.
Proof. intros x y. by rewrite Z_same, bool_decide_eq_true. Qed.

Section leibniz.
Context `{JsEqLeibniz A}.
Implicit Types (x y : A) (l : list A).

Lemma same_true_eq x y : same x y = true ↔ x = y.
Proof. split; [apply same_eq|intros ->; apply same_refl]. Qed.

Lemma same_bool_decide `{EqDecision A} x y : same x y = bool_decide (x = y).
Proof.
  apply eq_bool_prop_intro. by rewrite bool_decide_spec, Is_true_true, same_true_eq.
Qed.

(** [includes] is membership. *)
Lemma includes_elem_of l x : includes l x = true ↔ x ∈ l.
Proof.
  rewrite includes_true. split.
  - by intros (y & Hy & ->%same_eq).
  - intros Hx. by exists x.
Qed.

Lemma includes_not_elem_of l x : includes l x = false ↔ x ∉ l.
Proof. by rewrite <- includes_elem_of, not_true_iff_false. Qed.
End leibniz.

(** ** Lists *)

Lemma zip_cons {A B} (a : A) (b : B) (k : list A) (m : list B) :
  zip (a :: k) (b :: m) = (a, b) :: zip k m.
Proof. done. Qed.

Lemma elem_of_concat {A} (x : A) (ls : list (list A)) :
  x ∈ concat ls ↔ ∃ l, l ∈ ls ∧ x ∈ l.
Proof.
  rewrite list_elem_of_In, in_concat.
  by setoid_rewrite list_elem_of_In.
Qed.

Lemma fold_left_fmap {A B C} (f : A → C → A) (g : B → C) (l : list B) a :
  fold_left f (g <$> l) a = fold_left (λ a x, f a (g x)) l a.
Proof. revert a. induction l as [|x l IH]; intros a; simpl; auto. Qed.

(** ** Exceptions *)

Lemma bind_Return {E A B} (a : A) (k : A → result E B) :
  Return a ≫= k = k a.
Proof. done. Qed.

Lemma bind_Throw {E A B} (e : E) (k : A → result E B) :
  Throw e ≫= k = Throw e.
Proof. done. Qed.

Lemma bind_Return_inv {E A B} (m : result E A) (k : A → result E B) b :
  m ≫= k = Return b ↔ ∃ a, m = Return a ∧ k a = Return b.
Proof.
  destruct m as [a|e]; simpl.
  - split; [by exists a|by intros (? & [= <-] & ?)].
  - split; [done|by intros (? & [=] & _)].
Qed.

Lemma bind_Throw_inv {E A B} (m : result E A) (k : A → result E B) e :
  m ≫= k = Throw e ↔ m = Throw e ∨ ∃ a, m = Return a ∧ k a = Throw e.
Proof.
  destruct m as [a|e']; simpl.
  - split; [right; by exists a|]. by intros [[=]|(? & [= <-] & ?)].
  - split; [intros [= ->]; by left|]. by intros [[= ->]|(? & [=] & _)].
Qed.

Lemma catch_Return {E A} (a : A) (h : E → result E A) :
  catch (Return a) h = Return a.
Proof. done. Qed.

Lemma catch_Throw {E A} (e : E) (h : E → result E A) :
  catch (Throw e) h = h e.
Proof. done. Qed.

#[export] Hint Rewrite @bind_Return @bind_Throw @catch_Return @catch_Throw
  : js_rw.

(** ** Loops that push *)

(** A loop that pushes one element per iteration builds the image of the
    iterated list, after what the array held before. *)
Lemma fold_left_push {A B} (f : B → A) (l : list B) (acc : list A) :
  fold_left (λ row x, push row (f x)) l acc = acc ++ map f l.
Proof.
  revert acc. induction l as [|x l IH]; intros acc; simpl.
  - by rewrite app_nil_r.
  - rewrite IH. by rewrite <- app_assoc.
Qed.

Lemma fold_left_ext {A B} (f g : A → B → A) (l : list B) (a : A) :
  (∀ a x, x ∈ l → f a x = g a x) → fold_left f l a = fold_left g l a.
Proof.
  revert a. induction l as [|x l IH]; intros a Hfg; simpl; [done|].
  rewrite Hfg by left. apply IH. intros a' y Hy. apply Hfg. by right.
Qed.

(** An invariant of the accumulator is an invariant of the loop. *)
Lemma fold_left_invariant {A B} (P : A → Prop) (f : A → B → A) l a :
  P a → (∀ a x, x ∈ l → P a → P (f a x)) → P (fold_left f l a).
Proof.
  revert a. induction l as [|x l IH]; intros a Ha Hstep; simpl; [done|].
  apply IH; [apply Hstep; [left|done]|].
  intros a' y Hy. apply Hstep. by right.
Qed.
