(* ===== verification/JsString.v ===== *)
(** * JavaScript strings

    The string operations the sources call: [slice], and
    [String.prototype.replace] with a string pattern, which replaces the
    first occurrence of the pattern and expands the [$] patterns of the
    replacement text (ECMAScript GetSubstitution).  A string is a sequence
    of code units; every operation here works unit by unit. *)

From Stdlib Require Import Ascii.
From S2P Require Import Prelude.

(** ** Definitions *)

(** [s.slice(0, n)] and [s.slice(n)] for [0 <= n]. *)
Fixpoint str_take (n : nat) (s : string) : string :=
  match n, s with
  | S n', String c s' => String c (str_take n' s')
  | _, _ => ""
  end.

Fixpoint str_drop (n : nat) (s : string) : string :=
  match n, s with
  | S n', String _ s' => str_drop n' s'
  | _, _ => s
  end.

(** The first occurrence of [pat] in [s]: what precedes it and what
    follows it. *)
Fixpoint split_at_first (pat s : string) : option (string * string) :=
  if String.prefix pat s then Some ("", str_drop (String.length pat) s)
  else match s with
       | "" => None
       | String c s' =>
           match split_at_first pat s' with
           | Some (before, after) => Some (String c before, after)
           | None => None
           end
       end.

(** GetSubstitution for a string pattern (no captures): in the replacement
    text, [$$] is a dollar sign, [$&] the matched text, [$`] the text
    before the match and [$'] the text after it; any other [$] stands for
    itself. *)
Fixpoint get_substitution (matched before after templ : string) : string :=
  match templ with
  | "" => ""
  | String c rest =>
      if Ascii.eqb c "$"%char then
        match rest with
        | String d rest' =>
            if Ascii.eqb d "$"%char then
              "$" +:+ get_substitution matched before after rest'
            else if Ascii.eqb d "&"%char then
              matched +:+ get_substitution matched before after rest'
            else if Ascii.eqb d "`"%char then
              before +:+ get_substitution matched before after rest'
            else if Ascii.eqb d "'"%char then
              after +:+ get_substitution matched before after rest'
            else String c (get_substitution matched before after rest)
        | "" => String c ""
        end
      else String c (get_substitution matched before after rest)
  end.

(** [s.replace(/c/g, repl)] for a pattern of one character and a
    replacement text without dollar patterns: every occurrence is
    replaced. *)
Fixpoint replace_all (c : ascii) (repl s : string) : string :=
  match s with
  | "" => ""
  | String d s' =>
      if Ascii.eqb d c then repl +:+ replace_all c repl s'
      else String d (replace_all c repl s')
  end.

(** The text in which every character [c] of [s] is replaced by [f c]:
    one pass over the text. *)
Fixpoint flat_map_string (f : ascii → string) (s : string) : string :=
  match s with
  | "" => ""
  | String c s' => f c +:+ flat_map_string f s'
  end.

(** [arr.join(sep)] on an array of strings. *)
Fixpoint join (sep : string) (arr : list string) : string :=
  match arr with
  | [] => ""
  | [s] => s
  | s :: arr' => s +:+ sep +:+ join sep arr'
  end.

(** The characters [encodeURIComponent] leaves as they are: letters,
    digits and [- _ . ! ~ * ' ( )]. *)
Definition uri_unreserved (c : ascii) : bool :=
  let n := N_of_ascii c in
  ((65 <=? n) && (n <=? 90) || (97 <=? n) && (n <=? 122)
   || (48 <=? n) && (n <=? 57))%N
  || bool_decide (n ∈ [45; 95; 46; 33; 126; 42; 39; 40; 41]%N).

(** An upper-case hexadecimal digit. *)
Definition hex_digit (n : N) : ascii :=
  ascii_of_N (if (n <? 10)%N then 48 + n else 55 + n).

(** [encodeURIComponent(s)] on the bytes of the UTF-8 text [s]: every
    byte that is not unreserved becomes [%XX]. *)
Fixpoint encodeURIComponent (s : string) : string :=
  match s with
  | "" => ""
  | String c s' =>
      if uri_unreserved c then String c (encodeURIComponent s')
      else String "%" (String (hex_digit (N_of_ascii c / 16))
                         (String (hex_digit (N_of_ascii c mod 16))
                            (encodeURIComponent s')))
  end.

(** Whether the code unit [c] occurs in [s]. *)
Fixpoint mem_char (c : ascii) (s : string) : bool :=
  match s with
  | "" => false
  | String d s' => Ascii.eqb d c || mem_char c s'
  end.

(** [s.replace(pat, repl)] with a string pattern: the first occurrence
    only, and [s] itself when there is none. *)
Definition replace (s pat repl : string) : string :=
  match split_at_first pat s with
  | Some (before, after) =>
      before +:+ get_substitution pat before after repl +:+ after
  | None => s
  end.


(** ** Lemmas *)

Lemma append_nil_l (s : string) : "" +:+ s = s.
Proof. done. Qed.

Lemma append_cons c (s t : string) : String c s +:+ t = String c (s +:+ t).
Proof. done. Qed.

Lemma append_nil_r (s : string) : s +:+ "" = s.
Proof. induction s as [|c s IH]; [done|]. by rewrite append_cons, IH. Qed.

Lemma append_assoc (s t u : string) : (s +:+ t) +:+ u = s +:+ t +:+ u.
Proof. induction s as [|c s IH]; [done|]. by rewrite !append_cons, IH. Qed.

Lemma length_append (s t : string) :
  String.length (s +:+ t) = String.length s + String.length t.
Proof. induction s as [|c s IH]; [done|]. rewrite append_cons. simpl. by rewrite IH. Qed.

(** Both sides of an equation between texts as characters consed onto
    the texts that are not literals. *)
Ltac string_norm :=
  repeat rewrite append_assoc;
  repeat rewrite ?append_cons, ?append_nil_l, ?append_nil_r.

Lemma mem_char_app c s t : mem_char c (s +:+ t) = mem_char c s || mem_char c t.
Proof.
induction s as [|d s IH]; [done|].
rewrite append_cons. cbn [mem_char]. by rewrite IH, orb_assoc.
Qed.

Lemma str_take_drop n s : str_take n s +:+ str_drop n s = s.
Proof.
revert s. induction n as [|n IH]; intros [|c s]; try done.
cbn [str_take str_drop]. by rewrite append_cons, IH.
Qed.

Lemma replace_all_app c repl s t :
  replace_all c repl (s +:+ t) = replace_all c repl s +:+ replace_all c repl t.
Proof.
induction s as [|d s IH]; [done|]. rewrite append_cons. cbn [replace_all].
destruct (Ascii.eqb d c); by rewrite IH, ?append_assoc.
Qed.

(** ** One pass over a text *)

Lemma flat_map_string_app f s t :
  flat_map_string f (s +:+ t) = flat_map_string f s +:+ flat_map_string f t.
Proof.
induction s as [|c s IH]; [done|].
by rewrite append_cons; cbn [flat_map_string]; rewrite IH, append_assoc.
Qed.

Lemma flat_map_string_ext f g s :
  (∀ c, f c = g c) → flat_map_string f s = flat_map_string g s.
Proof. intros Hfg. induction s as [|c s IH]; [done|]. simpl. by rewrite Hfg, IH. Qed.

(** Two passes are one pass with the second applied to what the first
    writes for a character. *)
Lemma flat_map_string_compose f g s :
  flat_map_string g (flat_map_string f s)
  = flat_map_string (λ c, flat_map_string g (f c)) s.
Proof.
induction s as [|c s IH]; [done|].
cbn [flat_map_string]. by rewrite flat_map_string_app, IH.
Qed.

(** A global replacement of one character is one pass. *)
Lemma replace_all_flat_map c repl s :
  replace_all c repl s
  = flat_map_string (λ d, if Ascii.eqb d c then repl else String d "") s.
Proof.
induction s as [|d s IH]; [done|]. cbn [replace_all flat_map_string].
rewrite IH. by destruct (Ascii.eqb d c).
Qed.

(** A text without the character is left as it is. *)
Lemma replace_all_absent c repl s :
  mem_char c s = false → replace_all c repl s = s.
Proof.
induction s as [|d s IH]; [done|]. cbn [mem_char replace_all].
intros [-> Hs]%orb_false_iff. by rewrite IH.
Qed.

Lemma mem_char_str_take c n s :
  mem_char c s = false → mem_char c (str_take n s) = false.
Proof.
revert s. induction n as [|n IH]; intros [|d s]; try done.
cbn [mem_char str_take]. intros [-> Hs]%orb_false_iff. by apply IH.
Qed.

Lemma mem_char_str_drop c n s :
  mem_char c s = false → mem_char c (str_drop n s) = false.
Proof.
revert s. induction n as [|n IH]; intros [|d s]; try done.
cbn [mem_char str_drop]. intros [_ Hs]%orb_false_iff. by apply IH.
Qed.

Lemma str_take_all n s : String.length s ≤ n → str_take n s = s.
Proof.
revert s. induction n as [|n IH]; intros [|c s]; simpl; try done; [lia|].
intros Hn. rewrite IH; [done|lia].
Qed.

(** A prefix is what [slice] cuts off. *)
Lemma prefix_drop pat s :
  String.prefix pat s = true → s = pat +:+ str_drop (String.length pat) s.
Proof.
revert s. induction pat as [|c pat IH]; intros s; [by destruct s|].
destruct s as [|d s]; [done|]. cbn [String.prefix String.length str_drop].
destruct (ascii_dec c d) as [->|]; [|done]. intros Hp.
rewrite append_cons. f_equal. by apply IH.
Qed.

Lemma prefix_app pat s : String.prefix pat (pat +:+ s) = true.
Proof.
induction pat as [|c pat IH]; [by destruct s|].
rewrite append_cons. cbn [String.prefix]. by destruct (ascii_dec c c).
Qed.

(** [split_at_first] cuts [s] around an occurrence of the pattern. *)
Lemma split_at_first_Some pat s before after :
  split_at_first pat s = Some (before, after) →
  s = before +:+ pat +:+ after.
Proof.
revert before. induction s as [|c s IH]; intros before; cbn [split_at_first].
- destruct (String.prefix pat "") eqn:Hp; [|done].
  intros [= <- <-]. by apply prefix_drop.
- destruct (String.prefix pat (String c s)) eqn:Hp.
  + intros [= <- <-]. by apply prefix_drop.
  + destruct (split_at_first pat s) as [[b a]|]; [|done].
    intros [= <- <-]. rewrite append_cons. f_equal. by apply IH.
Qed.

(** It finds none only when the pattern does not occur. *)
Lemma split_at_first_None pat s before after :
  split_at_first pat s = None → s ≠ before +:+ pat +:+ after.
Proof.
revert before. induction s as [|c s IH]; intros before; cbn [split_at_first].
- destruct (String.prefix pat "") eqn:Hp; [done|]. intros _ Hs.
  destruct before; [|done]. by rewrite Hs, append_nil_l, prefix_app in Hp.
- destruct (String.prefix pat (String c s)) eqn:Hp; [done|].
  destruct (split_at_first pat s) as [[b a]|] eqn:Hsplit; [done|].
  intros _ Hs. destruct before as [|d before].
  + by rewrite Hs, append_nil_l, prefix_app in Hp.
  + rewrite append_cons in Hs. injection Hs as -> Hs. by eapply IH.
Qed.

(** A replacement text without a dollar sign stands for itself. *)
Lemma get_substitution_plain matched before after templ :
  mem_char "$" templ = false →
  get_substitution matched before after templ = templ.
Proof.
induction templ as [|c templ IH]; [done|]. cbn [mem_char get_substitution].
intros [Hc Ht]%orb_false_iff. rewrite Hc. f_equal. by apply IH.
Qed.

(** [replace] with a replacement text without a dollar sign puts the
    text in the place of the first occurrence of the pattern. *)
Lemma replace_plain s pat repl before after :
  split_at_first pat s = Some (before, after) →
  mem_char "$" repl = false →
  replace s pat repl = before +:+ repl +:+ after.
Proof.
unfold replace. intros -> Hr. by rewrite get_substitution_plain.
Qed.

Lemma replace_absent s pat repl :
  split_at_first pat s = None → replace s pat repl = s.
Proof. unfold replace. by intros ->. Qed.

(** The dollar patterns of a replacement text. *)
Example replace_dollar :
  replace "x{val}y" "{val}" "a$&b" = "xa{val}by"
  ∧ replace "x{val}y" "{val}" "a$$b" = "xa$by"
  ∧ replace "x{val}y" "{val}" "a$`b" = "xaxby"
  ∧ replace "x{val}y" "{val}" "a$'b" = "xayby"
  ∧ replace "x{val}y" "{val}" "a$1b" = "xa$1by"
  ∧ replace "{val}{val}" "{val}" "v" = "v{val}".
Proof. by vm_compute. Qed.

(** ** [encodeURIComponent] *)

Lemma uri_unreserved_hex_digit n :
  (n < 16)%N → uri_unreserved (hex_digit n) = true.
Proof.
intros Hn.
assert (n ∈ [0; 1; 2; 3; 4; 5; 6; 7; 8; 9; 10; 11; 12; 13; 14; 15]%N) as Hin
  by (rewrite !elem_of_cons; lia).
by repeat (apply elem_of_cons in Hin as [->|Hin]; [done|]);
  apply elem_of_nil in Hin.
Qed.

(** The encoded text consists of unreserved characters and percent
    signs. *)
Lemma mem_char_encodeURIComponent c s :
  uri_unreserved c = false → c ≠ "%"%char →
  mem_char c (encodeURIComponent s) = false.
Proof.
intros Hc Hp. induction s as [|d s IH]; [done|]. cbn [encodeURIComponent].
assert (∀ e, uri_unreserved e = true → Ascii.eqb e c = false) as Hne
  by (intros e He; apply Ascii.eqb_neq; intros ->; congruence).
destruct (uri_unreserved d) eqn:Hd; cbn [mem_char].
- by rewrite Hne, IH.
- rewrite (proj2 (Ascii.eqb_neq "%" c)), !Hne, IH; [done|..|by intros <-];
    apply uri_unreserved_hex_digit.
  + apply N.mod_lt. lia.
  + apply N.Div0.div_lt_upper_bound. apply (N_ascii_bounded d).
Qed.

(** An unreserved text is left as it is. *)
Lemma encodeURIComponent_unreserved s :
  (∀ c, mem_char c s = true → uri_unreserved c = true) →
  encodeURIComponent s = s.
Proof.
induction s as [|d s IH]; [done|]. intros Hs. cbn [encodeURIComponent].
rewrite (Hs d) by (cbn [mem_char]; by rewrite Ascii.eqb_refl).
f_equal. apply IH. intros c Hc. apply Hs. cbn [mem_char]. by rewrite Hc, orb_true_r.
Qed.

(** ** Joined texts *)

(** What holds of the empty text and of the concatenation of two texts
    holds of the texts of a list, joined. *)
Lemma join_map_ind {A B} (P : string → list B → Prop)
    (f : A → string) (g : A → B) l :
  P "" [] →
  (∀ s t new1 new2, P s new1 → P t new2 → P (s +:+ t) (new1 ++ new2)) →
  (∀ x, x ∈ l → P (f x) [g x]) →
  P (join "" (f <$> l)) (g <$> l).
Proof.
intros Hnil Happ. induction l as [|x l IH]; intros Hf; [done|].
destruct l as [|y l]; [apply Hf; by left|].
change (join "" (f <$> x :: y :: l))
  with (f x +:+ "" +:+ join "" (f <$> y :: l)).
rewrite append_nil_l. apply (Happ _ _ [g x]); [apply Hf; by left|].
apply IH. intros z Hz. apply Hf. by right.
Qed.
