(* ===== verification/JsNumber.v ===== *)
(** * JavaScript numbers

    A number is a decimal [mant * 10^-scale]; two numbers are [===] when
    they denote the same value, whatever their scale, and [String] prints
    the shortest decimal (ECMAScript Number::toString, radix 10). *)

From Stdlib Require Import Ascii.
From stdpp Require Import pretty.
From S2P Require Import Prelude JsString.

(** ** Definitions *)

(** The number [mant * 10^-scale]. *)
Record number := Num { mant : Z; scale : nat }.

#[export] Instance number_eq_dec : EqDecision number.
Proof. solve_decision. Defined.

(** The integer [z] as a number: array indices and lengths. *)
Definition num_of_Z (z : Z) : number := Num z 0.

(** The representation with the least scale: trailing zeros of the
    fraction are dropped. *)
Fixpoint strip_zeros (m : Z) (sc : nat) : number :=
  match sc with
  | O => Num m 0
  | S sc' => if (m mod 10 =? 0)%Z then strip_zeros (m / 10) sc' else Num m sc
  end.

Definition num_norm (x : number) : number := strip_zeros (mant x) (scale x).

(** Two numbers are [===] when they denote the same value. *)
#[export] Instance number_JsEq : JsEq number := kernel_JsEq num_norm.

(** Digits: [zeros n] is [n] zero digits, [rstrip0 s] is [s] without its
    trailing zero digits. *)
Fixpoint zeros (n : nat) : string :=
  match n with
  | O => ""
  | S n' => String "0"%char (zeros n')
  end.

Fixpoint rstrip0 (s : string) : string :=
  match s with
  | "" => ""
  | String c s' =>
      let r := rstrip0 s' in
      if bool_decide (r = "") && Ascii.eqb c "0"%char then "" else String c r
  end.

(** Number::toString in radix 10, for the significant digits [s] and the
    position [n] of the decimal point: with [k] the count of the digits,
    plain digits while [k <= n <= 21], a decimal point inside the digits
    while [0 < n <= 21], leading zeros while [-6 < n <= 0], and exponent
    notation otherwise. *)
Definition place_point (s : string) (n : Z) : string :=
  let k := Z.of_nat (String.length s) in
  if (k <=? n)%Z && (n <=? 21)%Z then
    s +:+ zeros (Z.to_nat (n - k))
  else if (0 <? n)%Z && (n <=? 21)%Z then
    str_take (Z.to_nat n) s +:+ "." +:+ str_drop (Z.to_nat n) s
  else if (-6 <? n)%Z && (n <=? 0)%Z then
    "0." +:+ zeros (Z.to_nat (- n)) +:+ s
  else
    let e := (n - 1)%Z in
    let es := (if (e <? 0)%Z then "-" else "+") +:+ pretty (Z.abs e) in
    if (k =? 1)%Z then s +:+ "e" +:+ es
    else str_take 1 s +:+ "." +:+ str_drop 1 s +:+ "e" +:+ es.

(** [String(x)]: the sign, then the digits of the shortest decimal with
    the decimal point placed. *)
Definition num_to_string (x : number) : string :=
  let y := num_norm x in
  let m := mant y in
  if (m =? 0)%Z then "0" else
  let sign := if (m <? 0)%Z then "-" else "" in
  let d := pretty (Z.abs m) in
  sign +:+ place_point (rstrip0 d)
             (Z.of_nat (String.length d) - Z.of_nat (scale y)).

(** ** [parseInt]

    [parseInt(s, 10)] reads an optional sign and the longest run of
    decimal digits after the leading white space of [s]; it is [NaN] when
    there is no digit. *)

Inductive int_or_NaN :=
  | NaN
  | Int (z : Z).

#[export] Instance int_or_NaN_eq_dec : EqDecision int_or_NaN.
Proof. solve_decision. Defined.

(** White space: tab, line feed, vertical tab, form feed, carriage
    return, space and no-break space. *)
Definition is_white_space (c : ascii) : bool :=
  bool_decide (N_of_ascii c ∈ [9; 10; 11; 12; 13; 32; 160]%N).

Fixpoint trim_start (s : string) : string :=
  match s with
  | String c s' => if is_white_space c then trim_start s' else s
  | "" => ""
  end.

(** The value of a decimal digit. *)
Definition digit_value (c : ascii) : option Z :=
  let n := N_of_ascii c in
  if (48 <=? n)%N && (n <=? 57)%N then Some (Z.of_N n - 48)%Z else None.

(** The value of the longest prefix of digits, after the digits read so
    far ([None] when none was read). *)
Fixpoint parse_digits (acc : option Z) (s : string) : option Z :=
  match s with
  | String c s' =>
      match digit_value c with
      | Some d => parse_digits (Some (10 * default 0 acc + d)%Z) s'
      | None => acc
      end
  | "" => acc
  end.

Definition parseInt (s : string) : int_or_NaN :=
  let s := trim_start s in
  let '(sign, s) :=
    match s with
    | String c s' =>
        if Ascii.eqb c "-"%char then ((-1)%Z, s')
        else if Ascii.eqb c "+"%char then (1%Z, s')
        else (1%Z, s)
    | "" => (1%Z, s)
    end in
  match parse_digits None s with
  | Some n => Int (sign * n)
  | None => NaN
  end.

(** [String(id)] for the result of [parseInt]. *)
Definition int_to_string (i : int_or_NaN) : string :=
  match i with
  | NaN => "NaN"
  | Int z => num_to_string (num_of_Z z)
  end.

(** A character that [String(x)] never prints: no digit, sign, decimal
    point or exponent mark. *)
Definition not_numeric (c : ascii) : bool :=
  bool_decide (digit_value c = None)
  && negb (Ascii.eqb c "-") && negb (Ascii.eqb c "+")
  && negb (Ascii.eqb c ".") && negb (Ascii.eqb c "e").

(** ** Integers *)

Lemma number_same (x y : number) :
  same x y = bool_decide (num_norm x = num_norm y).
Proof. done. Qed.

Lemma num_norm_of_Z z : num_norm (num_of_Z z) = num_of_Z z.
Proof. done. Qed.

Lemma num_of_Z_inj : Inj (=) (=) num_of_Z.
Proof. by intros x y [= ->]. Qed.

(** Integers compare as numbers the way they compare as integers. *)
Lemma num_of_Z_same x y : same (num_of_Z x) (num_of_Z y) = same x y.
Proof.
  rewrite number_same, Z_same, !num_norm_of_Z.
  apply bool_decide_ext. split; [apply num_of_Z_inj|by intros ->].
Qed.

#[export] Hint Rewrite num_norm_of_Z num_of_Z_same : js_rw.

(** ** Printing and reading integers *)

Lemma digit_value_pretty_N_char d :
  (d < 10)%N → digit_value (pretty_N_char d) = Some (Z.of_N d).
Proof.
intros Hd.
assert (d ∈ [0; 1; 2; 3; 4; 5; 6; 7; 8; 9]%N) as Hin
  by (rewrite !elem_of_cons; lia).
by repeat (apply elem_of_cons in Hin as [->|Hin]; [done|]);
  apply elem_of_nil in Hin.
Qed.

(** A digit is neither white space nor a sign. *)
Lemma digit_value_plain c d :
  digit_value c = Some d →
  is_white_space c = false ∧ Ascii.eqb c "-" = false ∧ Ascii.eqb c "+" = false.
Proof.
unfold digit_value, is_white_space.
destruct (_ && _) eqn:Hc; [intros _|done].
pose proof Hc as [Hlo%N.leb_le Hhi%N.leb_le]%andb_true_iff.
rewrite bool_decide_eq_false_2 by (rewrite !elem_of_cons, elem_of_nil; lia).
split; [done|]. split; apply Ascii.eqb_neq; intros ->; by vm_compute in Hc.
Qed.

(** The digits of a positive number start with a digit. *)
Lemma pretty_N_go_head x s :
  (0 < x)%N →
  ∃ d s', (d < 10)%N ∧ pretty_N_go x s = String (pretty_N_char d) s'.
Proof.
revert s. induction (N.lt_wf_0 x) as [x _ IH]; intros s Hx.
rewrite pretty_N_go_step by done.
destruct (decide (x `div` 10 = 0)%N) as [->|Hq].
- exists (x `mod` 10)%N, s. split; [by apply N.mod_lt|done].
- apply IH; [apply N.div_lt; lia|by apply N.neq_0_lt_0].
Qed.

(** Reading the digits of [x] continues the number read so far with
    them. *)
Lemma parse_digits_pretty_N_go x s acc :
  (0 < x)%N →
  ∃ k : nat, parse_digits acc (pretty_N_go x s)
    = parse_digits (Some (default 0 acc * 10 ^ Z.of_nat k + Z.of_N x)%Z) s.
Proof.
revert s acc. induction (N.lt_wf_0 x) as [x _ IH]; intros s acc Hx.
rewrite pretty_N_go_step by done.
pose proof (N.mod_lt x 10 ltac:(done)) as Hd.
pose proof (N.div_mod x 10 ltac:(done)) as Hx10.
destruct (decide (x `div` 10 = 0)%N) as [Hq|Hq].
- exists 1%nat. rewrite Hq, pretty_N_go_0. simpl.
  rewrite digit_value_pretty_N_char by done. do 2 f_equal. lia.
- destruct (IH (x `div` 10)%N ltac:(apply N.div_lt; lia)
              (String (pretty_N_char (x `mod` 10)) s) acc
              ltac:(by apply N.neq_0_lt_0))
    as [k ->].
  exists (S k). simpl. rewrite digit_value_pretty_N_char by done.
  do 2 f_equal. simpl. rewrite Nat2Z.inj_succ, Z.pow_succ_r by lia. lia.
Qed.

Lemma parse_digits_pretty_N x :
  (0 < x)%N → parse_digits None (pretty_N_go x "") = Some (Z.of_N x).
Proof.
intros Hx. destruct (parse_digits_pretty_N_go x "" None Hx) as [k ->].
simpl. f_equal; lia.
Qed.

(** [parseInt] on a string that starts with a digit, and on a minus sign
    followed by any string. *)
Lemma parseInt_unsigned c s d :
  digit_value c = Some d →
  parseInt (String c s) = from_option Int NaN (parse_digits None (String c s)).
Proof.
intros (Hw & Hm & Hp)%digit_value_plain. unfold parseInt.
cbn -[parse_digits Z.mul]. rewrite Hw, Hm, Hp.
destruct (parse_digits _ _); simpl; [f_equal; lia|done].
Qed.

Lemma parseInt_negative s :
  parseInt (String "-" s)
  = from_option (λ n, Int (- n)) NaN (parse_digits None s).
Proof.
unfold parseInt. cbn [trim_start]. change (is_white_space "-") with false.
cbn -[parse_digits Z.mul].
destruct (parse_digits _ _); simpl; [f_equal; lia|done].
Qed.

(** [parseInt] on the digits of a positive number, after a sign or not. *)
Lemma parseInt_digits x :
  (0 < x)%N →
  parseInt (pretty_N_go x "") = Int (Z.of_N x)
  ∧ parseInt (String "-" (pretty_N_go x "")) = Int (- Z.of_N x).
Proof.
intros Hx. pose proof (parse_digits_pretty_N x Hx) as Hp.
destruct (pretty_N_go_head x "" Hx) as (d & s' & Hd & Hs).
apply digit_value_pretty_N_char in Hd.
rewrite parseInt_negative, Hp. rewrite Hs in *.
by rewrite (parseInt_unsigned _ _ _ Hd), Hp.
Qed.

(** Reading what was printed gives the integer back. *)
Lemma parseInt_pretty (z : Z) : parseInt (pretty z) = Int z.
Proof.
destruct z as [|p|p]; [done|..]; unfold pretty, pretty_Z, pretty, pretty_positive,
  pretty, pretty_N; rewrite decide_False by done.
- by apply parseInt_digits.
- by apply (parseInt_digits (N.pos p)).
Qed.

(** ** [String] of an integer *)

Lemma rstrip0_zeros d :
  rstrip0 d +:+ zeros (String.length d - String.length (rstrip0 d)) = d.
Proof.
induction d as [|c d IH]; [done|]. cbn [rstrip0].
destruct (bool_decide (rstrip0 d = "") && Ascii.eqb c "0") eqn:Hc.
- apply andb_true_iff in Hc as [Hr%bool_decide_eq_true ->%Ascii.eqb_eq].
  rewrite Hr in IH. simpl in *. rewrite Nat.sub_0_r in IH.
  change (zeros (String.length d) = d) in IH.
  change (String "0" (zeros (String.length d)) = String "0" d). by rewrite IH.
- change (String c (rstrip0 d
            +:+ zeros (String.length d - String.length (rstrip0 d)))
          = String c d).
  by rewrite IH.
Qed.

Lemma rstrip0_length d : String.length (rstrip0 d) ≤ String.length d.
Proof.
induction d as [|c d IH]; [done|]. cbn [rstrip0].
destruct (_ && _); simpl; lia.
Qed.

(** A number below [10^k] prints with at most [k] digits. *)
Lemma pretty_N_go_length (k : nat) x s :
  (x < 10 ^ N.of_nat k)%N →
  String.length (pretty_N_go x s) ≤ k + String.length s.
Proof.
revert x s. induction k as [|k IH]; intros x s Hx.
- assert (x = 0%N) as -> by (simpl in Hx; lia). rewrite pretty_N_go_0. lia.
- destruct (decide (x = 0%N)) as [->|Hx0]; [rewrite pretty_N_go_0; lia|].
  rewrite pretty_N_go_step by lia.
  etrans; [apply IH|simpl; lia].
  rewrite Nat2N.inj_succ, N.pow_succ_r' in Hx.
  apply N.Div0.div_lt_upper_bound. lia.
Qed.

(** Digits without a fraction print as they are, up to 21 of them. *)
Lemma place_point_integer d :
  String.length d ≤ 21 →
  place_point (rstrip0 d) (Z.of_nat (String.length d) - Z.of_nat 0) = d.
Proof.
intros Hd. pose proof (rstrip0_length d) as Hs. unfold place_point.
rewrite (proj2 (andb_true_iff _ _)) by (rewrite !Z.leb_le; lia).
etrans; [|apply (rstrip0_zeros d)]. do 2 f_equal. lia.
Qed.

(** [String(z)] of an integer below [10^21] is its decimal numeral. *)
Lemma num_to_string_integer z :
  (Z.abs z < 10 ^ 21)%Z → num_to_string (num_of_Z z) = pretty z.
Proof.
intros Hz. destruct z as [|p|p]; [done|..];
  unfold num_to_string; cbn [num_of_Z num_norm strip_zeros mant scale Z.abs];
  change (pretty (Z.pos p)) with (pretty_N_go (N.pos p) "");
  rewrite place_point_integer; try done;
  apply (pretty_N_go_length 21 (N.pos p) ""); simpl in *; lia.
Qed.



(** What [parseInt] accepts: white space before the number, text after
    it, a sign; and what it does not read as a number. *)
Example parseInt_examples :
  parseInt "42" = Int 42 ∧ parseInt "  42" = Int 42
  ∧ parseInt "12abc" = Int 12 ∧ parseInt "-7" = Int (-7)
  ∧ parseInt "+7" = Int 7 ∧ parseInt "1e3" = Int 1
  ∧ parseInt "abc" = NaN ∧ parseInt "" = NaN ∧ parseInt "- 7" = NaN
  ∧ int_to_string (parseInt "abc") = "NaN"
  ∧ int_to_string (parseInt "007") = "7".
Proof. by vm_compute. Qed.

(** ** The characters of a numeral *)

(** A character that is no digit does not occur among the digits of a
    number. *)
Lemma mem_char_pretty_N_go c x s :
  digit_value c = None → mem_char c (pretty_N_go x s) = mem_char c s.
Proof.
intros Hc. revert s. induction (N.lt_wf_0 x) as [x _ IH]; intros s.
destruct (decide (x = 0%N)) as [->|Hx]; [by rewrite pretty_N_go_0|].
rewrite pretty_N_go_step, IH by (try apply N.div_lt; lia).
cbn [mem_char]. destruct (Ascii.eqb_spec (pretty_N_char (x `mod` 10)) c)
  as [<-|]; [|done].
by rewrite digit_value_pretty_N_char in Hc by (by apply N.mod_lt).
Qed.

(** The numeral of an integer has no dollar sign. *)
Lemma mem_char_pretty_Z (z : Z) : mem_char "$" (pretty z) = false.
Proof.
destruct z as [|p|p]; [done|..]; unfold pretty, pretty_Z, pretty,
  pretty_positive, pretty, pretty_N; rewrite decide_False by done.
- by apply mem_char_pretty_N_go.
- rewrite append_cons, append_nil_l. cbn [mem_char].
  by rewrite mem_char_pretty_N_go.
Qed.

(** ** The characters of a printed number *)

Lemma mem_char_zeros c n : digit_value c = None → mem_char c (zeros n) = false.
Proof.
intros Hc. induction n as [|n IH]; [done|]. cbn [zeros mem_char].
rewrite IH, orb_false_r. apply Ascii.eqb_neq. by intros <-.
Qed.

Lemma mem_char_rstrip0 c s : mem_char c s = false → mem_char c (rstrip0 s) = false.
Proof.
induction s as [|d s IH]; [done|]. cbn [rstrip0 mem_char].
intros [Hd Hs]%orb_false_iff. destruct (_ && _); [done|].
cbn [mem_char]. by rewrite Hd, IH.
Qed.

Lemma mem_char_pretty_nonneg c (z : Z) :
  digit_value c = None → (0 ≤ z)%Z → mem_char c (pretty z) = false.
Proof.
intros Hc Hz. destruct z as [|p|p]; [|by apply mem_char_pretty_N_go|lia].
apply (mem_char_zeros c 1 Hc).
Qed.

Section not_numeric.
Context (c : ascii) (Hc : not_numeric c = true).

Lemma not_numeric_digit : digit_value c = None.
Proof.
unfold not_numeric in Hc. rewrite !andb_true_iff in Hc.
by destruct Hc as ((((?%bool_decide_eq_true & _) & _) & _) & _).
Qed.

Lemma not_numeric_marks :
  Ascii.eqb c "-" = false ∧ Ascii.eqb c "+" = false
  ∧ Ascii.eqb c "." = false ∧ Ascii.eqb c "e" = false.
Proof.
unfold not_numeric in Hc. rewrite !andb_true_iff, !negb_true_iff in Hc.
by destruct Hc as ((((_ & ?) & ?) & ?) & ?).
Qed.

Lemma mem_char_mark (d : ascii) s :
  Ascii.eqb c d = false → mem_char c (String d s) = mem_char c s.
Proof. cbn [mem_char]. rewrite Ascii.eqb_sym. by intros ->. Qed.

Lemma mem_char_place_point s n :
  mem_char c s = false → mem_char c (place_point s n) = false.
Proof.
intros Hs. pose proof not_numeric_digit as Hd.
destruct not_numeric_marks as (Hm & Hp & Hdot & He).
assert (Ascii.eqb c "0" = false) as H0
  by (apply Ascii.eqb_neq; by intros ->).
unfold place_point.
repeat match goal with |- context [if ?b then _ else _] => destruct b end;
  rewrite ?mem_char_app, ?append_cons, ?append_nil_l, ?mem_char_mark by done;
  rewrite ?mem_char_app, ?(mem_char_zeros c), ?(mem_char_str_take c),
    ?(mem_char_str_drop c), ?(mem_char_pretty_nonneg c), ?Hs by (done || lia);
  cbn [mem_char]; by rewrite ?mem_char_mark by done.
Qed.

(** [String(x)] of a number prints digits, a sign, a decimal point and
    an exponent mark only. *)
Lemma mem_char_num_to_string x : mem_char c (num_to_string x) = false.
Proof.
pose proof not_numeric_digit as Hd.
destruct not_numeric_marks as (Hm & _).
unfold num_to_string. destruct (_ =? _)%Z.
{ apply (mem_char_zeros c 1 Hd). }
rewrite mem_char_app, mem_char_place_point.
- by destruct (_ <? _)%Z; rewrite ?mem_char_mark.
- apply mem_char_rstrip0, mem_char_pretty_nonneg; [done|lia].
Qed.
End not_numeric.

(** The latitude 51.5074 has no angle bracket. *)
Lemma mem_char_num_to_string_witness :
  mem_char "<" (num_to_string (Num 515074 4)) = false.
Proof. exact (mem_char_num_to_string "<" eq_refl (Num 515074 4)). Defined.
