(* ===== verification/JsValue.v ===== *)
(** * JavaScript values

    The values the program computes with and the language operations the
    sources apply to them: strict equality [===], truthiness, the nullish
    test of [??], the [String(...)] conversion and property lookup through
    [Object.prototype].  Each definition follows the ECMAScript algorithm
    of the operation, restricted to the values that can occur here. *)

From S2P Require Import Prelude JsString JsNumber.

(** ** Built-in objects

    A property that an object does not own is looked up in its prototype.
    A tag object made by [JSON.parse] has [Object.prototype] as prototype,
    so reading a key it does not own gives a built-in function for the
    names below, and [Object.prototype] itself for [__proto__]. *)

Inductive builtin :=
  | ObjectPrototype
  | NativeFunction (name : string).

#[export] Instance builtin_eq_dec : EqDecision builtin.
Proof. solve_decision. Defined.

Definition object_prototype_methods : list string :=
  [ "__defineGetter__"; "__defineSetter__"; "hasOwnProperty";
    "__lookupGetter__"; "__lookupSetter__"; "isPrototypeOf";
    "propertyIsEnumerable"; "toString"; "valueOf"; "toLocaleString" ].

Definition object_prototype_get (key : string) : option builtin :=
  if bool_decide (key = "constructor") then Some (NativeFunction "Object")
  else if bool_decide (key = "__proto__") then Some ObjectPrototype
  else if bool_decide (key ∈ object_prototype_methods)
       then Some (NativeFunction key)
  else None.

(** ** Values *)

Inductive value :=
  | VNull
  | VUndefined
  | VBool (b : bool)
  | VNum (n : number)
  | VStr (s : string)
  | VObject (o : builtin).

#[export] Instance value_eq_dec : EqDecision value.
Proof. solve_decision. Defined.

(** [a === b]: same type and same value; objects by identity. *)
Definition strict_eq (a b : value) : bool :=
  match a, b with
  | VNull, VNull => true
  | VUndefined, VUndefined => true
  | VBool x, VBool y => same x y
  | VNum x, VNum y => same x y
  | VStr x, VStr y => same x y
  | VObject x, VObject y => bool_decide (x = y)
  | _, _ => false
  end.

(** [v === null]. *)
Definition is_null (v : value) : bool := strict_eq v VNull.

(** [v === undefined]. *)
Definition is_undefined (v : value) : bool := strict_eq v VUndefined.

(** ToBoolean: [false], [0], [""], [null] and [undefined] are falsy. *)
Definition to_boolean (v : value) : bool :=
  match v with
  | VNull | VUndefined => false
  | VBool b => b
  | VNum n => negb (mant n =? 0)%Z
  | VStr s => negb (bool_decide (s = ""))
  | VObject _ => true
  end.

(** [String(v)]. *)
Definition to_string (v : value) : string :=
  match v with
  | VNull => "null"
  | VUndefined => "undefined"
  | VBool true => "true"
  | VBool false => "false"
  | VNum n => num_to_string n
  | VStr s => s
  | VObject ObjectPrototype => "[object Object]"
  | VObject (NativeFunction name) =>
      "function " +:+ name +:+ "() { [native code] }"
  end.

(** [a ?? b]: [b] when [a] is [null] or [undefined]. *)
Definition nullish (a b : value) : value :=
  match a with
  | VNull | VUndefined => b
  | _ => a
  end.

(** An optional field read as a value: [undefined] when it is missing. *)
Definition of_option {A} (inj : A → value) (o : option A) : value :=
  match o with
  | Some x => inj x
  | None => VUndefined
  end.

(** ** Strict equality of values is an equivalence *)

Lemma strict_eq_refl a : strict_eq a a = true.
Proof. destruct a; simpl; auto using same_refl, bool_decide_eq_true_2. Qed.

Lemma strict_eq_sym a b : strict_eq a b = strict_eq b a.
Proof.
  destruct a, b; simpl; auto using same_sym.
  apply bool_decide_ext; naive_solver.
Qed.

Lemma strict_eq_trans a b c :
  strict_eq a b = true → strict_eq b c = true → strict_eq a c = true.
Proof.
  destruct a, b; simpl; try done; destruct c; simpl; try done;
    try apply same_trans.
  intros ->%bool_decide_eq_true ->%bool_decide_eq_true.
  by apply bool_decide_eq_true.
Qed.

#[export] Instance value_JsEq : JsEq value :=
  {| same := strict_eq; same_refl := strict_eq_refl;
     same_sym := strict_eq_sym; same_trans := strict_eq_trans |}.

#[export] Hint Rewrite strict_eq_refl : js_rw.

