(* ===== verification/Aggregate.v ===== *)
(** * Key aggregation

    The sources collect the keys of a history three times with the same
    nested loop: the tag names in [computeAllTagKeys] (api.ts), the node
    ids and the members in the way and relation handlers
    (routes/history.ts).  The loop is modelled once, over any type with a
    strict equality; [nub] is its reference definition, and the theorems
    say that the loop computes [nub] of the concatenated key lists and what
    [nub] guarantees: no two keys the same, every key represented, order of
    first occurrence. *)

From S2P Require Import Prelude.

Section aggregate.
Context `{JsEq A}.
Implicit Types (x y : A) (all xs ys : list A) (xss : list (list A)).

(** [if (!all.includes(x)) { all.push(x); }] *)
Definition push_new all x : list A :=
  if negb (includes all x) then push all x else all.

(** [for (const x of xs) { if (!all.includes(x)) all.push(x) }] *)
Definition collect_from all xs : list A := fold_left push_new xs all.

(** The nested loop, from an empty array. *)
Definition collect xss : list A := fold_left collect_from xss [].

(** The reference: the first occurrence of every value, in order. *)
Fixpoint nub xs : list A :=
  match xs with
  | [] => []
  | x :: xs' => x :: filter (λ y, x ≢ y) (nub xs')
  end.

(** No two elements are the same value. *)
Fixpoint distinct xs : bool :=
  match xs with
  | [] => true
  | x :: xs' => negb (includes xs' x) && distinct xs'
  end.

(** [fresh all] holds of the values that [all] does not include. *)
Definition fresh all : A → Prop := λ y, includes all y = false.

(** [first_seen xs j x i]: position [j] is the first occurrence of [x] in
    [xs], and [i] different values occur before it. *)
Definition first_seen xs (j : nat) x (i : nat) : Prop :=
  xs !! j = Some x ∧ includes (take j xs) x = false
  ∧ length (nub (take j xs)) = i.

#[export] Instance fresh_dec all y : Decision (fresh all y).
Proof. unfold fresh. apply _. Defined.

(** ** Filtering by a predicate that respects [===] *)

Lemma includes_filter (P : A → Prop) `{∀ y, Decision (P y)} xs x :
  Proper ((≡) ==> iff) P →
  includes (filter P xs) x = bool_decide (P x) && includes xs x.
Proof.
  intros HP. induction xs as [|y xs IH].
  - by rewrite andb_false_r.
  - rewrite filter_cons, includes_cons.
    destruct (same y x) eqn:E; simpl.
    + assert (P y ↔ P x) as Hyx by (by apply HP).
      destruct (decide (P y)) as [Hy|Hy].
      * rewrite includes_cons, E, bool_decide_eq_true_2 by tauto. done.
      * rewrite IH, bool_decide_eq_false_2 by tauto. done.
    + destruct (decide (P y)); [rewrite includes_cons, E|]; by rewrite IH.
Qed.

#[export] Instance fresh_proper all : Proper ((≡) ==> iff) (fresh all).
Proof. intros y y' Hy. unfold fresh. by rewrite Hy. Qed.

#[export] Instance differs_proper x : Proper ((≡) ==> iff) (λ y, x ≢ y).
Proof. intros y y' Hy. by rewrite Hy. Qed.

Lemma fresh_nil y : fresh [] y.
Proof. done. Qed.

Lemma fresh_app all ys y : fresh (all ++ ys) y ↔ fresh all y ∧ fresh ys y.
Proof. unfold fresh. rewrite includes_app. apply orb_false_iff. Qed.

Lemma fresh_singleton x y : fresh [x] y ↔ x ≢ y.
Proof.
  unfold fresh. rewrite includes_cons, includes_nil, orb_false_r.
  apply same_false_equiv.
Qed.

Lemma filter_fresh_nil xs : filter (fresh []) xs = xs.
Proof.
  induction xs as [|x xs IH]; [done|].
  rewrite filter_cons_True by done. by rewrite IH.
Qed.

Lemma filter_fresh_app all ys xs :
  filter (fresh (all ++ ys)) xs = filter (fresh all) (filter (fresh ys) xs).
Proof.
  rewrite list_filter_filter. apply list_filter_iff.
  intros y. rewrite fresh_app. tauto.
Qed.

Lemma filter_fresh_singleton x xs :
  filter (fresh [x]) xs = filter (λ y, x ≢ y) xs.
Proof. apply list_filter_iff. intros y. apply fresh_singleton. Qed.

(** Dropping the values equal to a value that [all] holds changes
    nothing once the values [all] holds are dropped. *)
Lemma filter_fresh_absorb all x xs :
  includes all x = true →
  filter (fresh all) (filter (λ y, x ≢ y) xs) = filter (fresh all) xs.
Proof.
  intros Hx. rewrite list_filter_filter. apply list_filter_iff.
  intros y. split; [tauto|]. intros Hy. split; [done|].
  intros Hxy. unfold fresh in Hy. rewrite <- Hxy in Hy. congruence.
Qed.

(** ** The reference definition *)

Lemma nub_app xs ys : nub (xs ++ ys) = nub xs ++ filter (fresh xs) (nub ys).
Proof.
  induction xs as [|x xs IH]; simpl.
  - by rewrite filter_fresh_nil.
  - rewrite IH, filter_app. f_equal. f_equal.
    rewrite <- filter_fresh_singleton, <- filter_fresh_app.
    apply list_filter_iff. intros y.
    rewrite fresh_app, fresh_singleton. unfold fresh.
    rewrite includes_cons, orb_false_iff, same_false_equiv. tauto.
Qed.

(** [nub] neither loses nor invents a value. *)
Lemma includes_nub xs x : includes (nub xs) x = includes xs x.
Proof.
  induction xs as [|y xs IH]; [done|]. simpl.
  rewrite !includes_cons, includes_filter by apply _. rewrite IH.
  destruct (same y x) eqn:E; simpl; [done|].
  rewrite bool_decide_eq_true_2; [done|]. by apply same_false_equiv.
Qed.

Lemma distinct_filter (P : A → Prop) `{∀ y, Decision (P y)} xs :
  Proper ((≡) ==> iff) P → distinct xs = true → distinct (filter P xs) = true.
Proof.
  intros HP. induction xs as [|x xs IH]; [done|]. simpl.
  intros [Hx Hxs]%andb_true_iff. rewrite filter_cons.
  destruct (decide (P x)); [|by apply IH]. simpl.
  rewrite includes_filter by done. rewrite IH by done.
  apply negb_true_iff in Hx. by rewrite Hx, andb_false_r.
Qed.

Lemma distinct_nub xs : distinct (nub xs) = true.
Proof.
  induction xs as [|x xs IH]; [done|]. simpl.
  rewrite distinct_filter by (done || apply _).
  rewrite includes_filter by apply _.
  rewrite bool_decide_eq_false_2; [done|]. intros Hx. by apply Hx.
Qed.

Lemma filter_differs_fresh x xs :
  includes xs x = false → filter (λ y, x ≢ y) xs = xs.
Proof.
  intros Hx. induction xs as [|y xs IH]; [done|].
  rewrite includes_cons in Hx. apply orb_false_iff in Hx as [Hy Hx].
  rewrite filter_cons_True.
  - by rewrite IH.
  - apply same_false_equiv. by rewrite same_sym.
Qed.

Lemma nub_distinct xs : distinct xs = true → nub xs = xs.
Proof.
  induction xs as [|x xs IH]; [done|]. simpl.
  intros [Hx Hxs]%andb_true_iff. apply negb_true_iff in Hx.
  by rewrite IH, filter_differs_fresh.
Qed.

Lemma nub_sublist xs : nub xs `sublist_of` xs.
Proof.
  induction xs as [|x xs IH]; [done|]. simpl.
  apply sublist_skip. etrans; [apply sublist_filter|done].
Qed.

Lemma fresh_includes all y : fresh all y ↔ includes all y = false.
Proof. done. Qed.

Lemma fresh_filter_nub all xs y :
  fresh all y → fresh (filter (fresh all) (nub xs)) y ↔ fresh xs y.
Proof.
  intros Hy. rewrite !fresh_includes, includes_filter, includes_nub by apply _.
  by rewrite bool_decide_eq_true_2.
Qed.

(** ** Positions in the reference *)

(** What [distinct] says: two positions with the same value are one
    position. *)
Lemma distinct_lookup xs :
  distinct xs = true ↔
  ∀ i j x y, xs !! i = Some x → xs !! j = Some y → x ≡ y → i = j.
Proof.
  induction xs as [|z xs IH]; simpl.
  - split; [by intros _ i j x y ?|done].
  - rewrite andb_true_iff, negb_true_iff, includes_false, IH. split.
    + intros [Hz Hxs] [|i] [|j] x y; simpl; intros Hi Hj Hxy.
      * done.
      * injection Hi as ->. exfalso. apply (Hz y).
        -- by eapply list_elem_of_lookup_2.
        -- by symmetry.
      * injection Hj as ->. exfalso. apply (Hz x); [|done].
        by eapply list_elem_of_lookup_2.
      * f_equal. by eapply Hxs.
    + intros Hall. split.
      * intros y [j Hj]%list_elem_of_lookup_1 Hyz.
        by specialize (Hall (S j) 0 y z Hj eq_refl Hyz).
      * intros i j x y Hi Hj Hxy.
        by specialize (Hall (S i) (S j) x y Hi Hj Hxy) as [= ->].
Qed.

Lemma first_seen_app_l xs ys j x i :
  first_seen xs j x i → first_seen (xs ++ ys) j x i.
Proof.
  intros (Hj & Hfr & Hlen). pose proof (lookup_lt_Some _ _ _ Hj).
  unfold first_seen. rewrite lookup_app_l, take_app_le by lia. done.
Qed.

Lemma first_seen_last xs x :
  includes xs x = false → first_seen (xs ++ [x]) (length xs) x (length (nub xs)).
Proof.
  intros Hx. unfold first_seen.
  by rewrite list_lookup_middle, take_app_length.
Qed.

Lemma nub_snoc xs z :
  nub (xs ++ [z]) = if includes xs z then nub xs else nub xs ++ [z].
Proof.
  rewrite nub_app. simpl. rewrite filter_cons, filter_nil.
  destruct (includes xs z) eqn:Hz.
  - rewrite decide_False by (unfold fresh; congruence). apply app_nil_r.
  - by rewrite decide_True.
Qed.

Lemma first_seen_nub xs j x i : first_seen xs j x i → nub xs !! i = Some x.
Proof.
  intros (Hj & Hfr & <-).
  replace (nub xs) with (nub (take j xs ++ x :: drop (S j) xs))
    by (by rewrite take_drop_middle).
  rewrite nub_app. simpl.
  rewrite filter_cons_True by done. by apply list_lookup_middle.
Qed.

Lemma nub_first_seen_inv xs i x :
  nub xs !! i = Some x → ∃ j, first_seen xs j x i.
Proof.
  revert i. induction xs as [|z xs IH] using rev_ind; intros i; [done|].
  rewrite nub_snoc. destruct (includes xs z) eqn:Hz.
  - intros [j Hj]%IH. exists j. by apply first_seen_app_l.
  - intros [[Hi [j Hj]%IH]|[-> ->]]%lookup_snoc_Some.
    + exists j. by apply first_seen_app_l.
    + exists (length xs). by apply first_seen_last.
Qed.

Lemma nub_first_seen xs i x :
  nub xs !! i = Some x ↔ ∃ j, first_seen xs j x i.
Proof.
  split; [apply nub_first_seen_inv|].
  intros [j Hj]. by eapply first_seen_nub.
Qed.

(** ** A loop that adds the values not yet held

    The lemmas of this section are about any step function that adds [x]
    to the values held when they do not include it; [push_new] is such a
    step. *)

Section loop.
Context (step : list A → A → list A).
Context (step_fresh : ∀ all x, step all x = all ++ filter (fresh all) [x]).

(** One pass over [xs] adds the first occurrences of the fresh values. *)
Lemma fold_step_nub all xs :
  fold_left step xs all = all ++ filter (fresh all) (nub xs).
Proof.
  revert all. induction xs as [|x xs IH]; intros all; simpl.
  - by rewrite app_nil_r.
  - rewrite IH, step_fresh, filter_cons, filter_nil.
    destruct (decide (fresh all x)) as [Hx|Hx].
    + rewrite <- app_assoc, (filter_cons_True _ x) by done. simpl.
      do 2 f_equal. by rewrite filter_fresh_app, filter_fresh_singleton.
    + rewrite !app_nil_r, (filter_cons_False _ x) by done.
      apply not_false_is_true in Hx. by rewrite filter_fresh_absorb.
Qed.

(** A pass over every list of [xss], one after the other. *)
Lemma fold_fold_step_nub all xss :
  fold_left (λ all xs, fold_left step xs all) xss all
  = all ++ filter (fresh all) (nub (concat xss)).
Proof.
  revert all. induction xss as [|xs xss IH]; intros all; simpl.
  - by rewrite app_nil_r.
  - rewrite IH, fold_step_nub, nub_app, filter_app, <- app_assoc.
    do 2 f_equal. rewrite filter_fresh_app, !list_filter_filter.
    apply list_filter_iff. intros y. split.
    + intros [Hall Hy]. split; [done|]. by apply fresh_filter_nub in Hy.
    + intros [Hall Hy]. split; [done|]. by apply fresh_filter_nub.
Qed.
End loop.

(** ** The loop against the reference *)

(** C4: the nested loop computes the first occurrences of the concatenated
    lists: what the loop collects is [nub] of everything it has seen,
    and one pass of the inner loop adds to the keys collected so far the
    first occurrences of the keys they do not hold. *)
Theorem collect_nub xss :
  collect xss = nub (concat xss)
  ∧ ∀ all xs, collect_from all xs = all ++ filter (fresh all) (nub xs).
Proof.
  assert (∀ all x, push_new all x = all ++ filter (fresh all) [x]) as Hstep.
  { intros all x. unfold push_new. rewrite filter_cons, filter_nil.
    destruct (decide (fresh all x)) as [Hx|Hx]; unfold fresh in Hx.
    - by rewrite Hx.
    - apply not_false_is_true in Hx. rewrite Hx. simpl. by rewrite app_nil_r. }
  split.
  - unfold collect, collect_from. rewrite (fold_fold_step_nub _ Hstep).
    apply filter_fresh_nil.
  - intros all xs. apply (fold_step_nub _ Hstep).
Qed.

Lemma push_new_fresh all x :
  push_new all x = all ++ filter (fresh all) [x].
Proof.
  unfold push_new. rewrite filter_cons, filter_nil.
  destruct (decide (fresh all x)) as [Hx|Hx]; unfold fresh in Hx.
  - by rewrite Hx.
  - apply not_false_is_true in Hx. rewrite Hx. simpl. by rewrite app_nil_r.
Qed.

(** C6: the keys are collected in the order of their first occurrence: the
    key at position [i] first occurs, in the lists read one after the
    other, at a position before which exactly [i] different keys occur. *)
Theorem collect_first_seen xss i x :
  collect xss !! i = Some x ↔ ∃ j, first_seen (concat xss) j x i.
Proof.
  unfold collect, collect_from.
  rewrite (fold_fold_step_nub _ push_new_fresh), app_nil_l, filter_fresh_nil.
  apply nub_first_seen.
Qed.

Lemma collect_from_nub all xs :
  collect_from all xs = all ++ filter (fresh all) (nub xs).
Proof. apply (fold_step_nub _ push_new_fresh). Qed.

Lemma collect_acc_nub all xss :
  fold_left collect_from xss all
  = all ++ filter (fresh all) (nub (concat xss)).
Proof. apply (fold_fold_step_nub _ push_new_fresh). Qed.

(** The rewriting rule the lemmas on [collect] go through. *)
Lemma collect_eq_nub xss : collect xss = nub (concat xss).
Proof.
  unfold collect. rewrite collect_acc_nub. simpl. apply filter_fresh_nil.
Qed.
End aggregate.

Arguments first_seen {A _} _ _ _ _.
Arguments push_new {A _} _ _ /.
Arguments collect_from {A _} _ _ : simpl never.
Arguments collect {A _} _ : simpl never.

#[export] Hint Rewrite @includes_nub : js_rw.
#[export] Hint Resolve distinct_nub nub_sublist : js.

Section aggregate_theorems.
Context `{JsEq A}.
Implicit Types (x y : A) (xs : list A) (xss : list (list A)).

(** C21: no two collected keys are the same value, and a value is among
    the collected keys exactly when it is among the keys read. *)
Theorem collect_distinct xss :
  distinct (collect xss) = true
  ∧ ∀ x, includes (collect xss) x = includes (concat xss) x.
Proof.
  rewrite collect_eq_nub. split; [apply distinct_nub|].
  intros x. apply includes_nub.
Qed.

(** Collecting again what was collected changes nothing. *)
Theorem collect_idempotent xss : collect [collect xss] = collect xss.
Proof.
  rewrite !collect_eq_nub. simpl. rewrite app_nil_r.
  apply nub_distinct, distinct_nub.
Qed.
End aggregate_theorems.

(** ** Keys compared by Leibniz equality *)

Section leibniz.
Context `{JsEqLeibniz A}.
Implicit Types (x : A) (xs : list A).

Lemma distinct_NoDup xs : distinct xs = true ↔ NoDup xs.
Proof.
  induction xs as [|x xs IH]; simpl.
  - split; [constructor|done].
  - by rewrite andb_true_iff, negb_true_iff, IH, NoDup_cons,
      includes_not_elem_of.
Qed.

Lemma NoDup_nub xs : NoDup (nub xs).
Proof. apply distinct_NoDup, distinct_nub. Qed.

Lemma elem_of_nub xs x : x ∈ nub xs ↔ x ∈ xs.
Proof. by rewrite <- !includes_elem_of, includes_nub. Qed.
End leibniz.
