(* ===== verification/Cost.v ===== *)
(** * The cost of collecting the keys ([src/src/api.ts], lines 44 to 54)

    The three key loops test [all.includes(x)] (or [all.some(...)]) before
    every [push]: a scan of the keys collected so far.  This file counts
    the comparisons [===] these scans make, and bounds the count from
    above and, for keys that are all different, exactly: it is quadratic
    in the number of keys. *)

From S2P Require Import Prelude Aggregate.

(** ** Definitions *)

Section cost.
Context `{JsEq A}.
Implicit Types (x y : A) (all xs ys : list A) (xss : list (list A)).

(** The comparisons of [all.includes(x)]: one for every element up to
    the first that is the same value as [x]. *)
Fixpoint includes_steps all x : nat :=
  match all with
  | [] => 0
  | y :: all' => if same y x then 1 else S (includes_steps all' x)
  end.

(** The comparisons of the inner loop, which starts with the keys
    [all]. *)
Fixpoint collect_from_steps all xs : nat :=
  match xs with
  | [] => 0
  | x :: xs' => includes_steps all x + collect_from_steps (push_new all x) xs'
  end.

(** The comparisons of the nested loop. *)
Fixpoint collect_steps_from all xss : nat :=
  match xss with
  | [] => 0
  | xs :: xss' =>
      collect_from_steps all xs + collect_steps_from (collect_from all xs) xss'
  end.

Definition collect_steps xss : nat := collect_steps_from [] xss.

(** ** One scan *)

Lemma includes_steps_le all x : includes_steps all x ≤ length all.
Proof.
induction all as [|y all IH]; simpl; [done|]. destruct (same y x); lia.
Qed.

(** A scan that does not find the key compares it with every key. *)
Lemma includes_steps_fresh all x :
  includes all x = false → includes_steps all x = length all.
Proof.
induction all as [|y all IH]; simpl; [done|].
rewrite includes_cons, orb_false_iff. intros [-> Hx]. by rewrite IH.
Qed.

(** ** The keys grow *)

Lemma length_push_new all x :
  length (push_new all x)
  = if includes all x then length all else S (length all).
Proof.
unfold push_new, push. destruct (includes all x); simpl; [done|].
rewrite length_app. simpl. lia.
Qed.

Lemma collect_from_cons all x xs :
  collect_from all (x :: xs) = collect_from (push_new all x) xs.
Proof. done. Qed.

Lemma length_collect_from_ge all xs : length all ≤ length (collect_from all xs).
Proof.
revert all. induction xs as [|x xs IH]; intros all; [done|].
rewrite collect_from_cons. etrans; [|apply IH].
rewrite length_push_new. destruct (includes all x); lia.
Qed.

Lemma collect_cons_from all xs xss :
  fold_left collect_from (xs :: xss) all
  = fold_left collect_from xss (collect_from all xs).
Proof. done. Qed.

Lemma length_collect_ge all xss :
  length all ≤ length (fold_left collect_from xss all).
Proof.
revert all. induction xss as [|xs xss IH]; intros all; [done|].
rewrite collect_cons_from. etrans; [apply (length_collect_from_ge all xs)|].
apply IH.
Qed.

(** ** The bound from above *)

Lemma collect_from_steps_le all xs bound :
  length (collect_from all xs) ≤ bound →
  collect_from_steps all xs ≤ length xs * bound.
Proof.
revert all. induction xs as [|x xs IH]; intros all Hbound; [done|].
cbn [collect_from_steps length]. rewrite collect_from_cons in Hbound. specialize (IH _ Hbound).
pose proof (includes_steps_le all x) as Hscan.
pose proof (length_collect_from_ge (push_new all x) xs) as Hgrow.
assert (length all ≤ length (push_new all x)) as Hpush
  by (rewrite length_push_new; destruct (includes all x); lia).
lia.
Qed.

Lemma collect_steps_from_le all xss bound :
  length (fold_left collect_from xss all) ≤ bound →
  collect_steps_from all xss ≤ length (concat xss) * bound.
Proof.
revert all. induction xss as [|xs xss IH]; intros all Hbound; [done|].
cbn [collect_steps_from concat]. rewrite collect_cons_from in Hbound.
rewrite length_app. specialize (IH _ Hbound).
pose proof (length_collect_ge (collect_from all xs) xss).
pose proof (collect_from_steps_le all xs bound). lia.
Qed.

(** ** Keys that are all different *)

Lemma distinct_app_fresh all x xs :
  distinct (all ++ x :: xs) = true → includes all x = false.
Proof.
induction all as [|y all IH]; simpl; [done|].
rewrite andb_true_iff, negb_true_iff, includes_app, includes_cons.
rewrite !orb_false_iff, includes_cons, orb_false_iff.
intros [(_ & Hy & _) Hd]. rewrite same_sym. by rewrite Hy, IH.
Qed.

(** The inner loop over keys that differ from each other and from the
    keys [all]: the key at position [i] is compared with the keys [all]
    and with the [i] keys before it. *)
Lemma collect_from_steps_distinct all xs :
  distinct (all ++ xs) = true →
  2 * collect_from_steps all xs
  = length xs * (2 * length all + length xs - 1).
Proof.
revert all. induction xs as [|x xs IH]; intros all Hd; [simpl; lia|].
cbn [collect_from_steps length]. pose proof (distinct_app_fresh _ _ _ Hd) as Hx.
rewrite (includes_steps_fresh _ _ Hx).
assert (push_new all x = all ++ [x]) as -> by (unfold push_new; by rewrite Hx).
rewrite (assoc_L (++) all [x] xs : all ++ x :: xs = (all ++ [x]) ++ xs) in Hd.
specialize (IH _ Hd). rewrite length_app in IH. simpl in IH. nia.
Qed.

(** C40: the comparisons of the key loops.  They are at most the number
    of keys read times the number of keys collected, and this is
    reached up to a factor of two: a version with [n] keys that are all
    different costs [n * (n - 1) / 2] comparisons.  The collection is
    quadratic in the number of distinct keys. *)
Theorem collect_steps_bounds xss :
  collect_steps xss ≤ length (concat xss) * length (collect xss)
  ∧ ∀ xs, distinct xs = true →
      2 * collect_steps [xs] = length xs * (length xs - 1).
Proof.
split; [by apply collect_steps_from_le|].
intros xs Hd. pose proof (collect_from_steps_distinct [] xs Hd) as Hsteps.
unfold collect_steps. cbn [collect_steps_from length] in *.
rewrite Nat.add_0_r. rewrite Hsteps. f_equal; lia.
Qed.

End cost.

(** Twenty keys that are all different: 190 comparisons. *)
Example collect_steps_twenty :
  collect_steps [Z.of_nat <$> seq 0 20] = 190
  ∧ collect_steps (replicate 10 (Z.of_nat <$> seq 0 20)) = 190 + 9 * 210.
Proof. by vm_compute. Qed.
