(* ===== verification/Types.v ===== *)
(** * The data of the program ([src/src/types.ts])

    [OSMElement] is one version of an element as [JSON.parse] returns it,
    [OSMMember] one member of a relation, [CellInfo] one cell of a row.
    An optional field ([visible?], [tags?], ...) is an [option]: [None] is
    the field missing, which JavaScript reads as [undefined].

    A tag object is the list of its own properties in the order
    [Object.keys] enumerates them. *)

From S2P Require Import Prelude JsString JsNumber JsValue.

(** [interface OSMMember] *)
Record OSMMember := {
  m_type : string;
  m_ref : number;
  m_role : string;
}.

(** [Record<string, string>]: the own properties of a tag object. *)
Definition tag_object := list (string * string).

(** [interface OSMElement] *)
Record OSMElement := {
  el_type : string;
  el_id : number;
  el_timestamp : string;
  el_version : number;
  el_changeset : number;
  el_user : string;
  el_uid : number;
  el_visible : option bool;
  el_tags : option tag_object;
  el_lat : option number;
  el_lon : option number;
  el_nodes : option (list number);
  el_members : option (list OSMMember);
}.

(** [interface CellInfo]: [clz] is the classification, [val] the value
    shown, [url] the link or [null]. *)
Record CellInfo := {
  clz : string;
  val : value;
  url : option string;
}.

Definition PropLine : Type := string * list CellInfo.
Definition TagLine : Type := string * list CellInfo.
Definition NodeLine : Type := number * list CellInfo.
Definition MemberLine : Type := OSMMember * list CellInfo.

#[export] Instance OSMMember_eq_dec : EqDecision OSMMember.
Proof. solve_decision. Defined.

#[export] Instance CellInfo_eq_dec : EqDecision CellInfo.
Proof. solve_decision. Defined.

#[export] Instance OSMElement_eq_dec : EqDecision OSMElement.
Proof. solve_decision. Defined.

(** ** Tag objects *)

(** [Object.keys(o)] *)
Definition Object_keys (o : tag_object) : list string := o.*1.

(** The value of the own property [key], if [o] has one. *)
Fixpoint own_property (o : tag_object) (key : string) : option string :=
  match o with
  | [] => None
  | (k, v) :: o' => if bool_decide (k = key) then Some v else own_property o' key
  end.

(** [o[key]]: the own property, else what [Object.prototype] holds under
    that name, else [undefined]. *)
Definition get_property (o : tag_object) (key : string) : value :=
  match own_property o key with
  | Some v => VStr v
  | None =>
      match object_prototype_get key with
      | Some b => VObject b
      | None => VUndefined
      end
  end.

(** An object has each key once. *)
Definition wf_tags (o : tag_object) : Prop := NoDup (Object_keys o).

(** ** Sample versions

    The histories the examples of the development run on: version [n] of
    way 1 by user "u", with the content given. *)

Definition sample (n : Z) (tags : option tag_object)
    (nodes : option (list number)) (members : option (list OSMMember))
  : OSMElement :=
  {| el_type := "way"; el_id := num_of_Z 1;
     el_timestamp := "2020-01-01T00:00:00Z"; el_version := num_of_Z n;
     el_changeset := num_of_Z (100 + n); el_user := "u";
     el_uid := num_of_Z 7; el_visible := None; el_tags := tags;
     el_lat := None; el_lon := None; el_nodes := nodes;
     el_members := members |}.

Definition with_tags (n : Z) (tags : tag_object) : OSMElement :=
  sample n (Some tags) None None.

Definition with_nodes (n : Z) (nodes : list Z) : OSMElement :=
  sample n None (Some (num_of_Z <$> nodes)) None.

Definition with_members (n : Z) (members : list OSMMember) : OSMElement :=
  sample n None None (Some members).

(** ** Lemmas *)

Lemma own_property_Some o key v :
  own_property o key = Some v → (key, v) ∈ o.
Proof.
  induction o as [|[k w] o IH]; simpl; [done|].
  case_bool_decide as Hk.
  - intros [= ->]. subst. left.
  - intros Hv. right. by apply IH.
Qed.

Lemma own_property_None o key :
  own_property o key = None ↔ key ∉ Object_keys o.
Proof.
  unfold Object_keys. induction o as [|[k w] o IH]; simpl.
  - split; [intros _; apply not_elem_of_nil|done].
  - rewrite not_elem_of_cons. case_bool_decide as Hk.
    + split; [done|]. intros [Hne _]. congruence.
    + rewrite IH. split; [|by intros [_ ?]]. intros Hn. split; [congruence|done].
Qed.

Lemma own_property_is_Some o key :
  is_Some (own_property o key) ↔ key ∈ Object_keys o.
Proof.
  rewrite <- not_eq_None_Some, own_property_None.
  split; [apply dec_stable|auto].
Qed.

Lemma own_property_wf o key v :
  wf_tags o → (key, v) ∈ o → own_property o key = Some v.
Proof.
  unfold wf_tags, Object_keys.
  induction o as [|[k w] o IH]; simpl; [by intros _ ?%elem_of_nil|].
  intros [Hk Ho]%NoDup_cons [[= -> ->]|Hin]%elem_of_cons.
  - by rewrite bool_decide_eq_true_2.
  - rewrite bool_decide_eq_false_2; [by apply IH|].
    intros ->. apply Hk. apply list_elem_of_fmap. by exists (key, v).
Qed.

Lemma get_property_own o key v :
  own_property o key = Some v → get_property o key = VStr v.
Proof. unfold get_property. by intros ->. Qed.

(** A key that is neither an own property nor a name of
    [Object.prototype] reads as [undefined]. *)
Lemma get_property_missing o key :
  key ∉ Object_keys o → object_prototype_get key = None →
  get_property o key = VUndefined.
Proof.
  intros Hk%own_property_None Hp. unfold get_property. by rewrite Hk, Hp.
Qed.

(** A property read is never [null]. *)
Lemma get_property_not_null o key : is_null (get_property o key) = false.
Proof.
  unfold get_property.
  by destruct (own_property o key), (object_prototype_get key).
Qed.
