(* ===== verification/Api.v ===== *)
(** * The diff engine ([src/src/api.ts])

    [computeAllTagKeys] collects the tag names of a history, [pairwise]
    pairs every version with its predecessor, and [changeRow] turns the
    values an accessor reads from the versions into one row of cells.
    [classify], [cell_val], [cell_url] and [changeRow_cell] name the parts
    of the body of the loop of [changeRow]. *)

From S2P Require Import Prelude JsString JsNumber JsValue Aggregate Types.

(** ** Definitions *)

(** [computeAllTagKeys(versions)]: the two nested loops over the versions
    and over [Object.keys(v.tags || {})]. *)
Definition computeAllTagKeys (versions : list OSMElement) : list string :=
  fold_left
    (λ allKeys v,
       fold_left
         (λ allKeys t,
            if negb (includes allKeys t) then push allKeys t else allKeys)
         (Object_keys (default [] (el_tags v)))
         allKeys)
    versions [].

(** [pairwise(iterable)]: with [arr = [null, ...iterable]], the pairs
    [[arr[i], arr[i + 1]]] for [i] from 0 while [i < arr.length - 1]. *)
Definition pairwise {T} (iterable : list T) : list (option T * T) :=
  let arr : list (option T) := None :: (Some <$> iterable) in
  i ← seq 0 (length arr - 1);
  match arr !! i, arr !! (i + 1) with
  | Some prev, Some (Some cur) => [(prev, cur)]
  | _, _ => []
  end.

(** The chain of tests that sets [clz]. *)
Definition classify (prevVal curVal : value) : string :=
  if is_null prevVal && is_null curVal then "notpresent"
  else if is_null prevVal && negb (is_null curVal) then "new"
  else if negb (is_null prevVal) && is_null curVal then "removed"
  else if negb (strict_eq prevVal curVal) then "changed"
  else "unchanged".

(** [curVal !== null && curVal !== undefined ? curVal : ''] *)
Definition cell_val (curVal : value) : value :=
  if negb (is_null curVal) && negb (is_undefined curVal) then curVal
  else VStr "".

(** [urlTemplate && curVal
      ? urlTemplate.replace('{val}', String(curVal)) : null] *)
Definition cell_url (urlTemplate : option string) (curVal : value)
  : option string :=
  match urlTemplate with
  | Some template =>
      if to_boolean (VStr template) && to_boolean curVal
      then Some (replace template "{val}" (to_string curVal))
      else None
  | None => None
  end.

(** One iteration of the loop of [changeRow]: the cell of the pair
    [[prevVer, curVer]]. *)
Definition changeRow_cell (attrGetter : OSMElement → value)
    (urlTemplate : option string) (pair : option OSMElement * OSMElement)
  : CellInfo :=
  let '(prevVer, curVer) := pair in
  let prevVal :=
    match prevVer with
    | Some prevVer => attrGetter prevVer
    | None => VNull
    end in
  let curVal := attrGetter curVer in
  {| clz := classify prevVal curVal;
     val := cell_val curVal;
     url := cell_url urlTemplate curVal |}.

(** [changeRow(versions, attrGetter, urlTemplate)] *)
Definition changeRow (versions : list OSMElement)
    (attrGetter : OSMElement → value) (urlTemplate : option string)
  : list CellInfo :=
  fold_left (λ row pair, push row (changeRow_cell attrGetter urlTemplate pair))
    (pairwise versions) [].

(** The five classifications. *)
Definition labels : list string :=
  ["notpresent"; "new"; "removed"; "changed"; "unchanged"].

(** The version before position [i]: none before the first. *)
Definition prev_version (versions : list OSMElement) (i : nat)
  : option OSMElement :=
  match i with
  | O => None
  | S j => versions !! j
  end.

(** The keys one version contributes. *)
Definition tag_keys (v : OSMElement) : list string :=
  Object_keys (default [] (el_tags v)).

(** ** [null] and [undefined] *)

Lemma is_null_spec v : reflect (v = VNull) (is_null v).
Proof. destruct v; simpl; by constructor. Qed.

Lemma is_undefined_spec v : reflect (v = VUndefined) (is_undefined v).
Proof. destruct v; simpl; by constructor. Qed.

Lemma is_null_true v : is_null v = true ↔ v = VNull.
Proof. by destruct (is_null_spec v). Qed.

Lemma is_null_false v : is_null v = false ↔ v ≠ VNull.
Proof. by destruct (is_null_spec v). Qed.

Lemma strict_eq_null_l v : strict_eq VNull v = is_null v.
Proof. by destruct v. Qed.

Lemma strict_eq_null_r v : strict_eq v VNull = is_null v.
Proof. done. Qed.

#[export] Instance is_null_proper : Proper ((≡) ==> (=)) is_null.
Proof. intros a b Hab. unfold is_null. by rewrite Hab. Qed.

#[export] Hint Rewrite strict_eq_null_l strict_eq_null_r : js_rw.

(** ** [pairwise] *)

Section pairwise.
Context {T : Type}.
Implicit Types (l : list T) (p : option T).

Lemma pairwise_from p l :
  (i ← seq 0 (length l);
   match (p :: (Some <$> l)) !! i, (p :: (Some <$> l)) !! (i + 1) with
   | Some prev, Some (Some cur) => [(prev, cur)]
   | _, _ => []
   end) = zip (p :: (Some <$> l)) l.
Proof.
  revert p. induction l as [|x l IH]; intros p; [done|].
  rewrite fmap_cons, zip_cons, <- (IH (Some x)). cbn [length]. rewrite <- cons_seq, bind_cons.
  rewrite <- fmap_S_seq, list_fmap_bind. done.
Qed.

(** The loop over the indices is a zip. *)
Lemma pairwise_eq_zip l : pairwise l = zip (None :: (Some <$> l)) l.
Proof.
  unfold pairwise. cbn [length]. rewrite length_fmap.
  replace (S (length l) - 1) with (length l) by lia. apply pairwise_from.
Qed.

Lemma pairwise_length l : length (pairwise l) = length l.
Proof.
  rewrite pairwise_eq_zip, length_zip. cbn [length]. rewrite length_fmap. lia.
Qed.

Lemma pairwise_nil : pairwise (@nil T) = [].
Proof. done. Qed.

Lemma zip_shift_snoc p l x :
  zip (p :: (Some <$> (l ++ [x]))) (l ++ [x])
  = zip (p :: (Some <$> l)) l ++ [(from_option Some p (last l), x)].
Proof.
  revert p. induction l as [|y l IH]; intros p; [done|].
  rewrite <- app_comm_cons, !fmap_cons, last_cons, !zip_cons, IH.
  by destruct (last l).
Qed.

(** One more element adds one pair and leaves the others as they are. *)
Lemma pairwise_snoc l x :
  pairwise (l ++ [x]) = pairwise l ++ [(last l, x)].
Proof.
  rewrite !pairwise_eq_zip, zip_shift_snoc. by destruct (last l).
Qed.

(** The generator yields every element with the one before it, [null]
    before the first: as many pairs as elements, the pairs of the zip of
    [[null, ...iterable]] with [iterable]. *)
Theorem pairwise_zip l :
  pairwise l = zip (None :: (Some <$> l)) l
  ∧ length (pairwise l) = length l.
Proof. split; [apply pairwise_eq_zip|apply pairwise_length]. Qed.
End pairwise.

(** ** [classify] *)

(** [classify] returns one of the five labels. *)
Lemma classify_label prevVal curVal : classify prevVal curVal ∈ labels.
Proof.
  unfold classify, labels.
  destruct (is_null prevVal), (is_null curVal), (strict_eq prevVal curVal);
    simpl; set_solver.
Qed.

(** ** [changeRow] *)

Lemma pairwise_lookup (versions : list OSMElement) i pair :
  pairwise versions !! i = Some pair ↔
  ∃ curVer, versions !! i = Some curVer
            ∧ pair = (prev_version versions i, curVer).
Proof.
  rewrite pairwise_eq_zip. destruct pair as [p c].
  rewrite lookup_zip_Some. destruct i as [|i]; simpl.
  - split; [intros [[= <-] Hc]|intros (c' & Hc & [= -> ->])]; eauto.
  - rewrite list_lookup_fmap. split.
    + intros [Hp Hc]. exists c. split; [done|].
      by destruct (versions !! i); simplify_eq/=.
    + intros (c' & Hc & [= -> ->]). split; [|done].
      pose proof (lookup_lt_Some _ _ _ Hc) as Hlt.
      destruct (lookup_lt_is_Some_2 versions i) as [p Hp]; [lia|].
      by rewrite Hp.
Qed.

(** C1: the cell at position [i] of a row is the cell computed from the
    version at position [i] and the version before it (none before the
    first), and a row has no other cells. *)
Theorem changeRow_lookup versions attrGetter urlTemplate i cell :
  changeRow versions attrGetter urlTemplate !! i = Some cell ↔
  ∃ curVer, versions !! i = Some curVer
    ∧ cell = changeRow_cell attrGetter urlTemplate
               (prev_version versions i, curVer).
Proof.
  unfold changeRow.
  rewrite (fold_left_push _ _ []), app_nil_l, list_lookup_fmap, fmap_Some.
  setoid_rewrite pairwise_lookup. naive_solver.
Qed.

(** C5: a row has exactly one cell per version, whatever the accessor and
    the link template: its length is the number of versions, and it has
    a cell at a position exactly when there is a version at that
    position. *)
Theorem changeRow_length versions attrGetter urlTemplate :
  length (changeRow versions attrGetter urlTemplate) = length versions
  ∧ ∀ i, is_Some (changeRow versions attrGetter urlTemplate !! i)
         ↔ is_Some (versions !! i).
Proof.
  assert (length (changeRow versions attrGetter urlTemplate) = length versions)
    as Hlen.
  { unfold changeRow.
    by rewrite (fold_left_push _ _ []), app_nil_l, length_map, pairwise_length. }
  split; [done|]. intros i. by rewrite !lookup_lt_is_Some, Hlen.
Qed.

Lemma changeRow_map versions attrGetter urlTemplate :
  changeRow versions attrGetter urlTemplate
  = changeRow_cell attrGetter urlTemplate <$> pairwise versions.
Proof. unfold changeRow. apply (fold_left_push _ _ []). Qed.

Lemma length_changeRow versions attrGetter urlTemplate :
  length (changeRow versions attrGetter urlTemplate) = length versions.
Proof. by rewrite changeRow_map, length_fmap, pairwise_length. Qed.

(** The pair at position [i]. *)
Lemma pairwise_at (versions : list OSMElement) i :
  pairwise versions !! i
  = (λ curVer, (prev_version versions i, curVer)) <$> versions !! i.
Proof.
  destruct (pairwise versions !! i) as [pair|] eqn:Hp.
  - apply pairwise_lookup in Hp as (curVer & -> & ->). done.
  - destruct (versions !! i) as [curVer|] eqn:Hv; [|done].
    assert (pairwise versions !! i = Some (prev_version versions i, curVer))
      as Hp' by (apply pairwise_lookup; eauto).
    congruence.
Qed.

(** The cell at position [i]. *)
Lemma changeRow_at versions attrGetter urlTemplate i :
  changeRow versions attrGetter urlTemplate !! i
  = (λ curVer, changeRow_cell attrGetter urlTemplate
                 (prev_version versions i, curVer)) <$> versions !! i.
Proof.
  rewrite changeRow_map, list_lookup_fmap, pairwise_at.
  by destruct (versions !! i).
Qed.

Lemma changeRow_at_Some versions attrGetter urlTemplate i cell :
  changeRow versions attrGetter urlTemplate !! i = Some cell →
  ∃ curVer, versions !! i = Some curVer
    ∧ cell = changeRow_cell attrGetter urlTemplate
               (prev_version versions i, curVer).
Proof. rewrite changeRow_at. by intros (curVer & ? & ?)%fmap_Some; eauto. Qed.

(** A new version adds one cell at the end of a row, computed from
    the last version so far, and changes none of the cells before it. *)
Theorem changeRow_snoc versions curVer attrGetter urlTemplate :
  changeRow (versions ++ [curVer]) attrGetter urlTemplate
  = changeRow versions attrGetter urlTemplate
    ++ [changeRow_cell attrGetter urlTemplate (last versions, curVer)].
Proof. by rewrite !changeRow_map, pairwise_snoc, fmap_app. Qed.

Lemma changeRow_nil attrGetter urlTemplate :
  changeRow [] attrGetter urlTemplate = [].
Proof. done. Qed.

Lemma changeRow_cons v versions attrGetter urlTemplate :
  changeRow (v :: versions) attrGetter urlTemplate
  = changeRow_cell attrGetter urlTemplate (None, v)
    :: (changeRow_cell attrGetter urlTemplate <$>
          zip (Some <$> v :: versions) versions).
Proof. by rewrite changeRow_map, pairwise_eq_zip. Qed.

(** The row depends on the accessor only through the values it reads from
    the versions of the history. *)
Lemma changeRow_ext versions f g urlTemplate :
  (∀ v, v ∈ versions → f v = g v) →
  changeRow versions f urlTemplate = changeRow versions g urlTemplate.
Proof.
  intros Hfg. apply list_eq. intros i. rewrite !changeRow_at.
  destruct (versions !! i) as [cur|] eqn:Hcur; [|done]. simpl. f_equal.
  assert (∀ prev, prev_version versions i = Some prev → prev ∈ versions)
    as Hprev by (destruct i; [done|]; intros prev; apply list_elem_of_lookup_2).
  unfold changeRow_cell. rewrite !(Hfg cur) by by eapply list_elem_of_lookup_2.
  destruct (prev_version versions i) as [prev|]; [|done].
  by rewrite ?(Hfg prev) by by apply Hprev.
Qed.

(** ** [classify], branch by branch *)

(** C2: the classification on every branch.  A value is present when it is
    not [null]: [undefined] counts as a present value. *)
Theorem classify_spec prevVal curVal :
  (classify prevVal curVal = "notpresent" ↔ prevVal = VNull ∧ curVal = VNull)
  ∧ (classify prevVal curVal = "new" ↔ prevVal = VNull ∧ curVal ≠ VNull)
  ∧ (classify prevVal curVal = "removed" ↔ prevVal ≠ VNull ∧ curVal = VNull)
  ∧ (classify prevVal curVal = "changed" ↔
       prevVal ≠ VNull ∧ curVal ≠ VNull ∧ strict_eq prevVal curVal = false)
  ∧ (classify prevVal curVal = "unchanged" ↔
       prevVal ≠ VNull ∧ curVal ≠ VNull ∧ strict_eq prevVal curVal = true).
Proof.
  unfold classify.
  destruct (is_null_spec prevVal) as [->|Hp], (is_null_spec curVal) as [->|Hc];
    simpl; [naive_solver..|].
  destruct (strict_eq prevVal curVal); simpl; naive_solver.
Qed.

Lemma classify_null_null : classify VNull VNull = "notpresent".
Proof. done. Qed.

Lemma classify_null_l curVal :
  curVal ≠ VNull → classify VNull curVal = "new".
Proof. intros Hc%is_null_false. unfold classify. simpl. by rewrite Hc. Qed.

Lemma classify_null_r prevVal :
  prevVal ≠ VNull → classify prevVal VNull = "removed".
Proof. intros Hp%is_null_false. unfold classify. simpl. by rewrite Hp. Qed.

Lemma classify_present prevVal curVal :
  prevVal ≠ VNull → curVal ≠ VNull →
  classify prevVal curVal
  = if strict_eq prevVal curVal then "unchanged" else "changed".
Proof.
  intros Hp%is_null_false Hc%is_null_false. unfold classify.
  rewrite Hp, Hc. simpl. by destruct (strict_eq prevVal curVal).
Qed.

(** Values that are [===] classify alike. *)
#[export] Instance classify_proper : Proper ((≡) ==> (≡) ==> (=)) classify.
Proof.
  intros p p' Hp c c' Hc. unfold classify.
  rewrite (is_null_proper _ _ Hp), (is_null_proper _ _ Hc).
  by rewrite (same_proper (A:=value) _ _ Hp _ _ Hc : strict_eq p c = _).
Qed.

#[export] Hint Rewrite classify_null_null : js_rw.
#[export] Hint Rewrite classify_null_l classify_null_r classify_present
  using done : js_rw.

(** ** The value and the link of a cell *)

Lemma cell_val_present curVal :
  curVal ≠ VNull → curVal ≠ VUndefined → cell_val curVal = curVal.
Proof. by destruct curVal. Qed.

Lemma cell_val_absent curVal :
  curVal = VNull ∨ curVal = VUndefined → cell_val curVal = VStr "".
Proof. by intros [-> | ->]. Qed.

(** The value shown is never [null] nor [undefined]. *)
Lemma cell_val_defined curVal :
  cell_val curVal ≠ VNull ∧ cell_val curVal ≠ VUndefined.
Proof. by destruct curVal. Qed.

(** C19: a cell has a link exactly when a non-empty template was given and
    the value is truthy, and the link is then the template with its first
    [{val}] replaced; so the values [0], [""] and [false] get no link. *)
Theorem cell_url_spec urlTemplate curVal link :
  cell_url urlTemplate curVal = Some link ↔
  ∃ template, urlTemplate = Some template ∧ template ≠ ""
    ∧ to_boolean curVal = true
    ∧ link = replace template "{val}" (to_string curVal).
Proof.
  unfold cell_url. destruct urlTemplate as [template|]; [|naive_solver].
  simpl. case_bool_decide as Ht; simpl; [naive_solver|].
  destruct (to_boolean curVal); naive_solver.
Qed.

Lemma cell_url_None curVal : cell_url None curVal = None.
Proof. done. Qed.

Lemma cell_url_falsy urlTemplate curVal :
  to_boolean curVal = false → cell_url urlTemplate curVal = None.
Proof.
  intros Hv. unfold cell_url. destruct urlTemplate; [|done].
  by rewrite Hv, andb_false_r.
Qed.

(** ** [computeAllTagKeys] *)

(** C7: the collected tag names are pairwise different, and a name is
    collected exactly when some version has a tag of that name. *)
Theorem computeAllTagKeys_spec versions :
  NoDup (computeAllTagKeys versions)
  ∧ ∀ t, t ∈ computeAllTagKeys versions ↔
         ∃ v, v ∈ versions ∧ t ∈ tag_keys v.
Proof.
  assert (computeAllTagKeys versions = nub (concat (tag_keys <$> versions)))
    as -> by (rewrite <- collect_eq_nub; unfold collect;
              by rewrite fold_left_fmap).
  split; [apply NoDup_nub|].
  intros t. rewrite elem_of_nub, elem_of_concat. split.
  - intros (l & (v & -> & Hv)%list_elem_of_fmap & Ht). eauto.
  - intros (v & Hv & Ht). exists (tag_keys v).
    split; [|done]. apply list_elem_of_fmap. eauto.
Qed.

Lemma computeAllTagKeys_collect versions :
  computeAllTagKeys versions = collect (tag_keys <$> versions).
Proof. unfold collect. by rewrite fold_left_fmap. Qed.

(** [computeAllTagKeys] is the first occurrence of every tag name, over the
    versions from oldest to newest and, inside a version, in the order
    [Object.keys] gives. *)
Lemma computeAllTagKeys_nub versions :
  computeAllTagKeys versions = nub (concat (tag_keys <$> versions)).
Proof. by rewrite computeAllTagKeys_collect, collect_eq_nub. Qed.

(** A version without tags contributes nothing. *)
Lemma computeAllTagKeys_no_tags versions :
  Forall (λ v, tag_keys v = []) versions → computeAllTagKeys versions = [].
Proof.
  intros Hall. rewrite computeAllTagKeys_nub.
  replace (concat (tag_keys <$> versions)) with (@nil string); [done|].
  induction Hall as [|v versions Hv _ IH]; [done|].
  rewrite fmap_cons. cbn [concat]. by rewrite Hv, <- IH.
Qed.
