(* ===== verification/DiffSpec.v ===== *)
(** * The classification a row promises, and when [changeRow] keeps it

    The abstract view of a row: every version either lacks the attribute
    or has a value of some type [V] with an equality; a cell is classified
    from the attribute at the version and at the version before it.

    [Accessor] is the interface between [changeRow] and the functions the
    handlers pass to it: an accessor that signals a missing attribute by
    [null], and only so, makes [changeRow] compute the abstract row.
    [NeverNull] is the other case: an accessor that never returns [null]
    (it returns [undefined], or a boolean) gives rows without
    "notpresent" and "removed". *)

From S2P Require Import Prelude JsString JsNumber JsValue Aggregate Types Api.

(** ** The abstract classification *)

Inductive change := NotPresent | New | Removed | Changed | Unchanged.

#[export] Instance change_eq_dec : EqDecision change.
Proof. solve_decision. Defined.

(** The class name of a classification. *)
Definition label (c : change) : string :=
  match c with
  | NotPresent => "notpresent"
  | New => "new"
  | Removed => "removed"
  | Changed => "changed"
  | Unchanged => "unchanged"
  end.

Section spec.
Context {V : Type} `{JsEq V}.

(** The table: absent/absent, absent/present, present/absent, and two
    present values, equal or not. *)
Definition spec_classify (prev cur : option V) : change :=
  match prev, cur with
  | None, None => NotPresent
  | None, Some _ => New
  | Some _, None => Removed
  | Some a, Some b => if same a b then Unchanged else Changed
  end.

(** One pass over the attribute of the versions, remembering the
    previous one; nothing precedes the first. *)
Fixpoint spec_row_from (prev : option V) (attrs : list (option V))
  : list change :=
  match attrs with
  | [] => []
  | cur :: attrs' => spec_classify prev cur :: spec_row_from cur attrs'
  end.

Definition spec_row (attrs : list (option V)) : list change :=
  spec_row_from None attrs.
End spec.

(** ** The interface of an accessor *)

(** [Accessor attrGetter read inj]: [attrGetter] reads the attribute
    [read] and returns it as the JavaScript value [inj x], or [null] when
    the version lacks it; [inj] keeps the equality of [V] and never yields
    [null] or [undefined]. *)
Class Accessor {V : Type} `{JsEq V} (attrGetter : OSMElement → value)
    (read : OSMElement → option V) (inj : V → value) : Prop := {
  accessor_get : ∀ v, attrGetter v = from_option inj VNull (read v);
  accessor_same : ∀ x y, strict_eq (inj x) (inj y) = same x y;
  accessor_not_null : ∀ x, inj x ≠ VNull;
  accessor_defined : ∀ x, inj x ≠ VUndefined;
}.

(** [NeverNull attrGetter]: the accessor returns no [null]. *)
Class NeverNull (attrGetter : OSMElement → value) : Prop :=
  never_null : ∀ v, attrGetter v ≠ VNull.

#[global] Hint Mode NeverNull ! : typeclass_instances.

(** ** Lemmas on the abstract row *)

Lemma label_inj : Inj (=) (=) label.
Proof. by intros [] [] ?. Qed.

Lemma label_labels c : label c ∈ labels.
Proof. unfold labels. destruct c; simpl; set_solver. Qed.

Section spec_lemmas.
Context {V : Type} `{JsEq V}.
Implicit Types (prev cur : option V) (attrs : list (option V)).

Lemma spec_row_from_length prev attrs :
  length (spec_row_from prev attrs) = length attrs.
Proof. revert prev. induction attrs; intros prev; simpl; auto. Qed.

Lemma spec_row_length attrs : length (spec_row attrs) = length attrs.
Proof. apply spec_row_from_length. Qed.

Lemma spec_row_from_zip prev attrs :
  spec_row_from prev attrs
  = uncurry spec_classify <$> zip (prev :: attrs) attrs.
Proof.
  revert prev. induction attrs as [|cur attrs IH]; intros prev; [done|].
  simpl. by rewrite IH.
Qed.
End spec_lemmas.

(** ** [changeRow] against the abstract row *)

Section accessor.
Context {V : Type} `{JsEq V}.
Context (attrGetter : OSMElement → value) (read : OSMElement → option V)
  (inj : V → value).
Context `{!Accessor attrGetter read inj}.
Implicit Types (prev cur : option V).

Lemma is_null_from_option cur :
  is_null (from_option inj VNull cur) = bool_decide (cur = None).
Proof.
  destruct cur as [x|]; simpl; [|done].
  apply is_null_false, accessor_not_null.
Qed.

(** The chain of tests of [changeRow] is the table. *)
Lemma classify_accessor prev cur :
  classify (from_option inj VNull prev) (from_option inj VNull cur)
  = label (spec_classify prev cur).
Proof.
  unfold classify. rewrite !is_null_from_option.
  destruct prev as [a|], cur as [b|]; simpl; try done.
  rewrite accessor_same. by destruct (same a b).
Qed.

Lemma cell_val_accessor cur :
  cell_val (from_option inj VNull cur) = from_option inj (VStr "") cur.
Proof.
  destruct cur as [x|]; simpl; [|done].
  apply cell_val_present; [apply accessor_not_null|apply accessor_defined].
Qed.

End accessor.

(** ** Rows of cells that follow the table

    The lemmas of this section are about any function from a pair of
    versions to a cell that classifies by the table and shows the
    attribute; [changeRow_cell] with an accessor that meets the interface
    is such a function. *)

Section cells.
Context {V : Type} `{JsEq V}.
Context (read : OSMElement → option V) (inj : V → value).
Context (cellf : option OSMElement * OSMElement → CellInfo).
Context (cellf_clz : ∀ prevVer curVer,
  clz (cellf (prevVer, curVer))
  = label (spec_classify (prevVer ≫= read) (read curVer))).
Context (cellf_val : ∀ prevVer curVer,
  val (cellf (prevVer, curVer)) = from_option inj (VStr "") (read curVer)).

Lemma cells_clz_from prevVer versions :
  clz <$> (cellf <$> zip (prevVer :: (Some <$> versions)) versions)
  = label <$> spec_row_from (prevVer ≫= read) (read <$> versions).
Proof.
revert prevVer. induction versions as [|v versions IH]; intros prevVer.
- done.
- rewrite !fmap_cons. cbn [spec_row_from]. rewrite zip_cons, !fmap_cons.
  by rewrite IH, cellf_clz.
Qed.

Lemma cells_val_from prevVer versions :
  val <$> (cellf <$> zip (prevVer :: (Some <$> versions)) versions)
  = (λ v, from_option inj (VStr "") (read v)) <$> versions.
Proof.
revert prevVer. induction versions as [|v versions IH]; intros prevVer.
- done.
- rewrite !fmap_cons, zip_cons, !fmap_cons. by rewrite IH, cellf_val.
Qed.
End cells.

(** C3: for an accessor that signals a missing attribute by [null], the
    classes of the row [changeRow] computes are the abstract row of the
    attribute, and the values shown are the attribute where it is present
    and the empty string where it is not. *)
Theorem changeRow_refines {V} `{JsEq V} (attrGetter : OSMElement → value)
    (read : OSMElement → option V) (inj : V → value) versions urlTemplate :
  Accessor attrGetter read inj →
  clz <$> changeRow versions attrGetter urlTemplate
    = label <$> spec_row (read <$> versions)
  ∧ val <$> changeRow versions attrGetter urlTemplate
    = (λ v, from_option inj (VStr "") (read v)) <$> versions.
Proof.
intros Hacc. rewrite changeRow_map, pairwise_eq_zip. split.
- apply (cells_clz_from read). intros prevVer curVer. simpl.
  rewrite accessor_get, <- (classify_accessor attrGetter read inj).
  destruct prevVer as [prevVer|]; simpl; [by rewrite accessor_get|done].
- apply (cells_val_from read). intros prevVer curVer. simpl.
  rewrite accessor_get. apply (cell_val_accessor attrGetter read inj).
Qed.

(** The user of three versions, read through an accessor that meets the
    interface. *)
Lemma changeRow_refines_witness :
  clz <$> changeRow [with_tags 1 []; with_tags 2 []; with_tags 3 []]
            (λ v, VStr (el_user v)) None
    = label <$> spec_row [Some "u"; Some "u"; Some "u"]
  ∧ val <$> changeRow [with_tags 1 []; with_tags 2 []; with_tags 3 []]
            (λ v, VStr (el_user v)) None
    = [VStr "u"; VStr "u"; VStr "u"].
Proof.
exact (changeRow_refines (λ v, VStr (el_user v)) (λ v, Some (el_user v)) VStr
         [with_tags 1 []; with_tags 2 []; with_tags 3 []] None
         ltac:(by split)).
Defined.

(** ** [changeRow] with an accessor that meets the interface *)

Section refinement.
Context {V : Type} `{JsEq V}.
Context (attrGetter : OSMElement → value) (read : OSMElement → option V)
  (inj : V → value).
Context `{!Accessor attrGetter read inj}.

Lemma changeRow_cell_accessor urlTemplate prevVer curVer :
  clz (changeRow_cell attrGetter urlTemplate (prevVer, curVer))
  = label (spec_classify (prevVer ≫= read) (read curVer)).
Proof.
simpl. rewrite accessor_get, <- (classify_accessor attrGetter read inj).
destruct prevVer as [prevVer|]; simpl; [by rewrite accessor_get|done].
Qed.

(** The classes of a row are the abstract row. *)
Lemma changeRow_clz_accessor versions urlTemplate :
  clz <$> changeRow versions attrGetter urlTemplate
  = label <$> spec_row (read <$> versions).
Proof.
rewrite changeRow_map, pairwise_eq_zip.
apply (cells_clz_from read), changeRow_cell_accessor.
Qed.
End refinement.

(** ** Accessors that never return [null] *)

Lemma classify_never_null attrGetter prevVer curVer :
  NeverNull attrGetter →
  classify (from_option attrGetter VNull prevVer) (attrGetter curVer)
  = match prevVer with
    | None => "new"
    | Some prevVer =>
        if strict_eq (attrGetter prevVer) (attrGetter curVer)
        then "unchanged" else "changed"
    end.
Proof.
intros Hnn. destruct prevVer as [prevVer|]; simpl.
- by apply classify_present.
- by apply classify_null_l.
Qed.

(** C15: the row of an accessor that never returns [null] starts with
    "new", whatever the first version holds, and goes on with "changed"
    and "unchanged" only: it has no "notpresent" and no "removed". *)
Theorem changeRow_never_null attrGetter versions urlTemplate i cell :
  NeverNull attrGetter →
  changeRow versions attrGetter urlTemplate !! i = Some cell →
  ∃ curVer, versions !! i = Some curVer
    ∧ clz cell
      = match prev_version versions i with
        | None => "new"
        | Some prevVer =>
            if strict_eq (attrGetter prevVer) (attrGetter curVer)
            then "unchanged" else "changed"
        end.
Proof.
intros Hnn (curVer & Hcur & ->)%changeRow_at_Some. exists curVer.
split; [done|]. simpl. rewrite <- classify_never_null by done.
by destruct (prev_version versions i).
Qed.

(** The latitude of a way, which has none, over two versions. *)
Lemma changeRow_never_null_witness :
  ∃ curVer, [with_tags 1 []; with_tags 2 []] !! 1 = Some curVer
    ∧ clz {| clz := "unchanged"; val := VStr ""; url := None |}
      = match prev_version [with_tags 1 []; with_tags 2 []] 1 with
        | None => "new"
        | Some prevVer =>
            if strict_eq (of_option VNum (el_lat prevVer))
                 (of_option VNum (el_lat curVer))
            then "unchanged" else "changed"
        end.
Proof.
apply (changeRow_never_null (λ v, of_option VNum (el_lat v))
         [with_tags 1 []; with_tags 2 []] None 1
         {| clz := "unchanged"; val := VStr ""; url := None |}).
- intros v. by destruct (el_lat v).
- reflexivity.
Defined.

Lemma changeRow_never_null_labels attrGetter versions urlTemplate cell :
  NeverNull attrGetter →
  cell ∈ changeRow versions attrGetter urlTemplate →
  clz cell ∈ ["new"; "changed"; "unchanged"].
Proof.
intros Hnn [i (cur & _ & ->)%changeRow_at_Some]%list_elem_of_lookup_1.
simpl. destruct (prev_version versions i) as [prev|].
- rewrite classify_present by apply Hnn. destruct (strict_eq _ _); set_solver.
- rewrite classify_null_l by apply Hnn. set_solver.
Qed.
