(* ===== verification/History.v ===== *)
(** * The request handlers ([src/src/routes/history.ts])

    Each handler fetches the versions of an element, builds the lines of
    the page and passes them to the renderer.  This file models what a
    handler computes between the fetch and the renderer: the accessors it
    passes to [changeRow], the keys it collects, and the lines.  A
    [*_view] is the tuple of arguments of the corresponding [render*]
    function. *)

From Stdlib Require Import Ascii.
From stdpp Require Import pretty.
From S2P Require Import Prelude JsString JsNumber JsValue Aggregate Types Api DiffSpec.

(** ** Accessors: the arrow functions passed to [changeRow] *)

(** [(v) => v.user] *)
Definition get_user (v : OSMElement) : value := VStr (el_user v).

(** [(v) => v.visible ?? true] *)
Definition get_visible (v : OSMElement) : value :=
  nullish (of_option VBool (el_visible v)) (VBool true).

(** [(v) => v.changeset] *)
Definition get_changeset (v : OSMElement) : value := VNum (el_changeset v).

(** [(v) => v.lat] and [(v) => v.lon] *)
Definition get_lat (v : OSMElement) : value := of_option VNum (el_lat v).
Definition get_lon (v : OSMElement) : value := of_option VNum (el_lon v).

(** [(v) => v.tags?.[t]] *)
Definition get_tag (t : string) (v : OSMElement) : value :=
  match el_tags v with
  | Some tags => get_property tags t
  | None => VUndefined
  end.

(** [(v) => { const nds = v.nodes || [];
              const idx = nds.indexOf(n);
              return idx >= 0 ? idx : null; }] *)
Definition get_node_index (n : number) (v : OSMElement) : value :=
  let nds := default [] (el_nodes v) in
  let idx := indexOf nds n in
  if (0 <=? idx)%Z then VNum (num_of_Z idx) else VNull.

(** [existing.type === m.type && existing.ref === m.ref
     && existing.role === m.role] *)
Definition member_same (existing m : OSMMember) : bool :=
  same (m_type existing) (m_type m)
  && same (m_ref existing) (m_ref m)
  && same (m_role existing) (m_role m).

(** [(v) => { const members = v.members || [];
              return members.some(existing => ...); }] *)
Definition get_member (m : OSMMember) (v : OSMElement) : value :=
  let members := default [] (el_members v) in
  VBool (existsb (λ existing, member_same existing m) members).

(** The link templates of the user and the changeset lines. *)
Definition user_url : string := "https://osm.org/user/{val}".
Definition changeset_url : string := "https://osm.org/changeset/{val}".

(** ** The node handler: [GET /node/:id] *)

Definition node_propLines (versions : list OSMElement) : list PropLine :=
  [ ("User", changeRow versions get_user (Some user_url));
    ("Visible", changeRow versions get_visible None);
    ("Changeset", changeRow versions get_changeset (Some changeset_url));
    ("Lat", changeRow versions get_lat None);
    ("Lon", changeRow versions get_lon None) ].

Definition node_tagLines (versions : list OSMElement) : list TagLine :=
  (λ t, (t, changeRow versions (get_tag t) None))
    <$> computeAllTagKeys versions.

(** The arguments of [renderNode]. *)
Record node_view := {
  nv_versions : list OSMElement;
  nv_propLines : list PropLine;
  nv_tagLines : list TagLine;
}.

Definition node_handler (versions : list OSMElement) : node_view :=
  {| nv_versions := versions;
     nv_propLines := node_propLines versions;
     nv_tagLines := node_tagLines versions |}.

(** ** The way handler: [GET /way/:id] *)

Definition way_propLines (versions : list OSMElement) : list PropLine :=
  [ ("User", changeRow versions get_user (Some user_url));
    ("Visible", changeRow versions get_visible None);
    ("Changeset", changeRow versions get_changeset (Some changeset_url)) ].

Definition way_tagLines (versions : list OSMElement) : list TagLine :=
  (λ t, (t, changeRow versions (get_tag t) None))
    <$> computeAllTagKeys versions.

(** The loop that collects all nodes across all versions. *)
Definition allNodes (versions : list OSMElement) : list number :=
  fold_left
    (λ allNodes v,
       fold_left
         (λ allNodes n,
            if negb (includes allNodes n) then push allNodes n else allNodes)
         (default [] (el_nodes v))
         allNodes)
    versions [].

Definition nodeLines (versions : list OSMElement) : list NodeLine :=
  (λ n, (n, changeRow versions (get_node_index n) None))
    <$> allNodes versions.

(** The arguments of [renderWay]. *)
Record way_view := {
  wv_versions : list OSMElement;
  wv_propLines : list PropLine;
  wv_tagLines : list TagLine;
  wv_nodeLines : list NodeLine;
}.

Definition way_handler (versions : list OSMElement) : way_view :=
  {| wv_versions := versions;
     wv_propLines := way_propLines versions;
     wv_tagLines := way_tagLines versions;
     wv_nodeLines := nodeLines versions |}.

(** ** The relation handler: [GET /relation/:id] *)

Definition relation_propLines (versions : list OSMElement) : list PropLine :=
  [ ("User", changeRow versions get_user (Some user_url));
    ("Visible", changeRow versions get_visible None);
    ("Changeset", changeRow versions get_changeset (Some changeset_url)) ].

Definition relation_tagLines (versions : list OSMElement) : list TagLine :=
  (λ t, (t, changeRow versions (get_tag t) None))
    <$> computeAllTagKeys versions.

(** The loop that collects all members across all versions. *)
Definition allMembers (versions : list OSMElement) : list OSMMember :=
  fold_left
    (λ allMembers v,
       fold_left
         (λ allMembers m,
            let exists_ :=
              existsb (λ existing, member_same existing m) allMembers in
            if negb exists_ then push allMembers m else allMembers)
         (default [] (el_members v))
         allMembers)
    versions [].

Definition memberLines (versions : list OSMElement) : list MemberLine :=
  (λ m, (m, changeRow versions (get_member m) None))
    <$> allMembers versions.

(** The arguments of [renderRelation]. *)
Record relation_view := {
  rv_versions : list OSMElement;
  rv_propLines : list PropLine;
  rv_tagLines : list TagLine;
  rv_memberLines : list MemberLine;
}.

Definition relation_handler (versions : list OSMElement) : relation_view :=
  {| rv_versions := versions;
     rv_propLines := relation_propLines versions;
     rv_tagLines := relation_tagLines versions;
     rv_memberLines := memberLines versions |}.

(** ** What the accessors read *)

(** The position of node [n] in a version, if the version has it. *)
Definition node_index (n : number) (v : OSMElement) : option Z :=
  let idx := indexOf (default [] (el_nodes v)) n in
  if (0 <=? idx)%Z then Some idx else None.

(** The nodes and the members of a version, [[]] when it has none. *)
Definition nodes_of (v : OSMElement) : list number := default [] (el_nodes v).
Definition members_of (v : OSMElement) : list OSMMember :=
  default [] (el_members v).

(** The tag [t] of a version, if the version has it as an own property. *)
Definition tag_read (t : string) (v : OSMElement) : option string :=
  el_tags v ≫= λ tags, own_property tags t.

(** The classification the tag accessor leads to, from the tag at the
    previous version ([None] before the first version) and at the
    version. *)
Definition tag_label (prev : option (option string)) (cur : option string)
  : string :=
  match prev with
  | None => "new"
  | Some prev =>
      match prev, cur with
      | None, None => "unchanged"
      | Some a, Some b => if bool_decide (a = b) then "unchanged" else "changed"
      | _, _ => "changed"
      end
  end.

(** The histories of the scenarios: a tag that appears and disappears, a
    way whose nodes are reordered, a relation that gains a member. *)
Definition scenario_A : list OSMElement :=
  [ with_tags 1 []; with_tags 2 [("amenity", "cafe")];
    with_tags 3 [("amenity", "cafe")]; with_tags 4 [] ].

Definition scenario_B : list OSMElement :=
  [ with_nodes 1 [1; 2; 3]; with_nodes 2 [3; 1; 2] ]%Z.

Definition member_way5 : OSMMember :=
  {| m_type := "way"; m_ref := num_of_Z 5; m_role := "outer" |}.
Definition member_node9 : OSMMember :=
  {| m_type := "node"; m_ref := num_of_Z 9; m_role := "" |}.

Definition scenario_C : list OSMElement :=
  [ with_members 1 [member_way5];
    with_members 2 [member_way5; member_node9] ].

(** Every line has one cell per version. *)
Definition lines_wf {K} (n : nat) (lines : list (K * list CellInfo)) : Prop :=
  Forall (λ line, length line.2 = n) lines.

(** ** Members compare by their three fields *)

Lemma member_same_refl m : member_same m m = true.
Proof. unfold member_same. by rewrite !same_refl. Qed.

Lemma member_same_sym a b : member_same a b = member_same b a.
Proof.
  unfold member_same.
  by rewrite (same_sym (m_type a)), (same_sym (m_ref a)), (same_sym (m_role a)).
Qed.

Lemma member_same_trans a b c :
  member_same a b = true → member_same b c = true → member_same a c = true.
Proof.
  unfold member_same. intros Hab Hbc. bool_to_prop; by eapply same_trans.
Qed.

#[export] Instance OSMMember_JsEq : JsEq OSMMember :=
  {| same := member_same; same_refl := member_same_refl;
     same_sym := member_same_sym; same_trans := member_same_trans |}.

Lemma member_same_spec a b :
  member_same a b = true ↔
  m_type a = m_type b ∧ m_ref a ≡ m_ref b ∧ m_role a = m_role b.
Proof.
  unfold member_same. rewrite !andb_true_iff, !(same_true_eq (A:=string)).
  unfold equiv, jseq_equiv. tauto.
Qed.

#[export] Hint Rewrite member_same_refl : js_rw.

(** ** The accessors against their interface *)

#[export] Instance get_user_accessor :
  Accessor get_user (λ v, Some (el_user v)) VStr.
Proof. by split. Qed.

#[export] Instance get_changeset_accessor :
  Accessor get_changeset (λ v, Some (el_changeset v)) VNum.
Proof. by split. Qed.

(** A version that omits [visible] reads as visible. *)
#[export] Instance get_visible_accessor :
  Accessor get_visible (λ v, Some (default true (el_visible v))) VBool.
Proof.
  split; try done. intros v. unfold get_visible. by destruct (el_visible v).
Qed.

#[export] Instance get_node_index_accessor n :
  Accessor (get_node_index n) (node_index n) (λ i, VNum (num_of_Z i)).
Proof.
  split; try done.
  - intros v. unfold get_node_index, node_index. simpl.
    by destruct (0 <=? _)%Z.
  - intros x y. apply num_of_Z_same.
Qed.

Lemma get_tag_never_null t : NeverNull (get_tag t).
Proof.
  intros v. unfold get_tag. destruct (el_tags v) as [tags|]; [|done].
  apply is_null_false, get_property_not_null.
Qed.

Lemma get_lat_never_null : NeverNull get_lat.
Proof. intros v. unfold get_lat. by destruct (el_lat v). Qed.

Lemma get_lon_never_null : NeverNull get_lon.
Proof. intros v. unfold get_lon. by destruct (el_lon v). Qed.

Lemma get_member_never_null m : NeverNull (get_member m).
Proof. by intros v. Qed.

#[export] Existing Instances get_tag_never_null get_lat_never_null
  get_lon_never_null get_member_never_null.

(** ** The keys of the lines *)

Lemma allNodes_collect versions :
  allNodes versions = collect (nodes_of <$> versions).
Proof. unfold collect. by rewrite fold_left_fmap. Qed.

Lemma allMembers_collect versions :
  allMembers versions = collect (members_of <$> versions).
Proof. unfold collect. by rewrite fold_left_fmap. Qed.

Lemma includes_concat_fmap `{JsEq A} (f : OSMElement → list A) versions x :
  includes (concat (f <$> versions)) x = true ↔
  ∃ v, v ∈ versions ∧ includes (f v) x = true.
Proof.
  rewrite includes_concat. split.
  - intros (l & (v & -> & Hv)%list_elem_of_fmap & Hx). eauto.
  - intros (v & Hv & Hx). exists (f v). split; [|done].
    apply list_elem_of_fmap. eauto.
Qed.

(** C22: the collected nodes are pairwise different, and a node id is
    collected exactly when some version refers to it; likewise for the
    members, compared by their three fields. *)
Theorem allNodes_allMembers_spec versions :
  (distinct (allNodes versions) = true
   ∧ ∀ n, includes (allNodes versions) n = true ↔
          ∃ v, v ∈ versions ∧ includes (nodes_of v) n = true)
  ∧ (distinct (allMembers versions) = true
     ∧ ∀ m, includes (allMembers versions) m = true ↔
            ∃ v, v ∈ versions ∧ includes (members_of v) m = true).
Proof.
  rewrite allNodes_collect, allMembers_collect.
  rewrite !collect_eq_nub.
  split; (split; [apply distinct_nub|]); intros x;
    by rewrite includes_nub, includes_concat_fmap.
Qed.

Lemma node_tagLines_keys versions :
  (node_tagLines versions).*1 = computeAllTagKeys versions.
Proof. unfold node_tagLines. rewrite <- list_fmap_compose. apply list_fmap_id. Qed.

Lemma nodeLines_keys versions : (nodeLines versions).*1 = allNodes versions.
Proof. unfold nodeLines. rewrite <- list_fmap_compose. apply list_fmap_id. Qed.

Lemma memberLines_keys versions :
  (memberLines versions).*1 = allMembers versions.
Proof. unfold memberLines. rewrite <- list_fmap_compose. apply list_fmap_id. Qed.

(** The three handlers build the same tag lines, and the node handler the
    property lines of the others followed by the coordinates. *)
Lemma tagLines_same versions :
  way_tagLines versions = node_tagLines versions
  ∧ relation_tagLines versions = node_tagLines versions.
Proof. done. Qed.

Lemma propLines_same versions :
  relation_propLines versions = way_propLines versions
  ∧ node_propLines versions
    = way_propLines versions
      ++ [ ("Lat", changeRow versions get_lat None);
           ("Lon", changeRow versions get_lon None) ].
Proof. done. Qed.

(** ** Every line has one cell per version *)

Lemma lines_wf_changeRow {K} versions (getter : K → OSMElement → value)
    urlTemplate (keys : list K) :
  lines_wf (length versions)
    ((λ k, (k, changeRow versions (getter k) urlTemplate)) <$> keys).
Proof.
  unfold lines_wf. apply Forall_fmap, Forall_true. intros k.
  apply length_changeRow.
Qed.

Lemma lines_wf_cons {K} n (k : K) row lines :
  length row = n → lines_wf n lines → lines_wf n ((k, row) :: lines).
Proof. intros. by constructor. Qed.

Lemma lines_wf_nil {K} n : lines_wf (K:=K) n [].
Proof. constructor. Qed.

#[export] Hint Resolve lines_wf_cons lines_wf_nil lines_wf_changeRow
  length_changeRow : js.

(** C18: in the arguments each handler passes to its renderer, every
    property, tag, node and member line has exactly one cell per
    version. *)
Theorem handlers_wf versions :
  (lines_wf (length versions) (nv_propLines (node_handler versions))
   ∧ lines_wf (length versions) (nv_tagLines (node_handler versions)))
  ∧ (lines_wf (length versions) (wv_propLines (way_handler versions))
     ∧ lines_wf (length versions) (wv_tagLines (way_handler versions))
     ∧ lines_wf (length versions) (wv_nodeLines (way_handler versions)))
  ∧ (lines_wf (length versions) (rv_propLines (relation_handler versions))
     ∧ lines_wf (length versions) (rv_tagLines (relation_handler versions))
     ∧ lines_wf (length versions) (rv_memberLines (relation_handler versions))).
Proof.
  simpl. unfold node_propLines, way_propLines, relation_propLines.
  repeat split; auto 10 with js; apply lines_wf_changeRow.
Qed.

(** ** Node lines *)

Lemma node_index_None n v :
  node_index n v = None ↔ includes (nodes_of v) n = false.
Proof.
  unfold node_index, nodes_of. rewrite indexOf_nonneg.
  by destruct (includes _ n).
Qed.

(** The node accessor reads the position of the first occurrence of
    the node in the version: position [i] when the element at [i] is the
    node and no element before it is. *)
Theorem node_index_spec n v (i : nat) :
  get_node_index n v = VNum (num_of_Z (Z.of_nat i)) ↔
  (∃ n', nodes_of v !! i = Some n' ∧ n' ≡ n)
  ∧ includes (take i (nodes_of v)) n = false.
Proof.
  rewrite <- indexOf_lookup. unfold get_node_index, nodes_of. simpl.
  destruct (0 <=? _)%Z eqn:Hidx; [|apply Z.leb_gt in Hidx].
  - split; [by intros [= ?]|by intros ->].
  - split; [done|lia].
Qed.

(** C16: every node line is the abstract row of the position of its node:
    "new" where the node enters the way, "removed" where it leaves,
    "changed" where it stays at another position, "unchanged" where it
    stays in place, "notpresent" elsewhere. *)
Theorem nodeLines_refine versions :
  Forall (λ line : NodeLine,
            clz <$> line.2 = label <$> spec_row (node_index line.1 <$> versions))
    (nodeLines versions).
Proof.
  unfold nodeLines. apply Forall_fmap, Forall_true. intros n. simpl.
  apply (changeRow_clz_accessor _ _ (λ i, VNum (num_of_Z i))).
Qed.

(** A node that keeps its place is "unchanged"; a node that only moves is
    "changed": reordering a way marks every node that moved. *)
Example scenario_B_lines :
  allNodes scenario_B = num_of_Z <$> [1; 2; 3]%Z
  ∧ (λ line : NodeLine, clz <$> line.2) <$> nodeLines scenario_B
    = [ ["new"; "changed"]; ["new"; "changed"]; ["new"; "changed"] ].
Proof. by vm_compute. Qed.

(** ** Member lines *)

(** C17: a member line never says "notpresent" or "removed": the accessor
    returns a boolean, so the first cell is "new" even for a member the
    first version does not have, and a later cell is "unchanged" when the
    member is in both versions or in neither, and "changed" otherwise. *)
Theorem memberLines_spec versions m i cell :
  changeRow versions (get_member m) None !! i = Some cell →
  ∃ curVer, versions !! i = Some curVer
    ∧ cell
      = {| clz := match prev_version versions i with
                  | None => "new"
                  | Some prevVer =>
                      if bool_decide (includes (members_of prevVer) m
                                      = includes (members_of curVer) m)
                      then "unchanged" else "changed"
                  end;
           val := VBool (includes (members_of curVer) m);
           url := None |}.
Proof.
  intros (curVer & Hcur & ->)%changeRow_at_Some.
  exists curVer. split; [done|]. unfold changeRow_cell. simpl. f_equal.
  destruct (prev_version versions i) as [prevVer|]; [|done].
  change (get_member m prevVer) with (VBool (includes (members_of prevVer) m)).
  change (get_member m curVer) with (VBool (includes (members_of curVer) m)).
  by destruct (includes (members_of prevVer) m),
    (includes (members_of curVer) m).
Qed.

Lemma memberLines_spec_witness :
  ∃ curVer, scenario_C !! 0 = Some curVer
    ∧ {| clz := "new"; val := VBool false; url := None |}
      = {| clz := match prev_version scenario_C 0 with
                  | None => "new"
                  | Some prevVer =>
                      if bool_decide (includes (members_of prevVer) member_node9
                                      = includes (members_of curVer) member_node9)
                      then "unchanged" else "changed"
                  end;
           val := VBool (includes (members_of curVer) member_node9);
           url := None |}.
Proof.
  apply (memberLines_spec scenario_C member_node9 0
           {| clz := "new"; val := VBool false; url := None |}).
  reflexivity.
Defined.

(** The member that the second version adds is "new" already in the first
    column, and "changed" in the second. *)
Example scenario_C_lines :
  allMembers scenario_C = [member_way5; member_node9]
  ∧ (λ line : MemberLine, clz <$> line.2) <$> memberLines scenario_C
    = [ ["new"; "unchanged"]; ["new"; "changed"] ].
Proof. by vm_compute. Qed.

(** ** Tag lines *)

(** For a name that [Object.prototype] does not hold, the tag accessor
    returns the tag, or [undefined] when the version does not have it. *)
Lemma get_tag_read t v :
  object_prototype_get t = None →
  get_tag t v = from_option VStr VUndefined (tag_read t v).
Proof.
  intros Hproto. unfold get_tag, tag_read.
  destruct (el_tags v) as [tags|]; simpl; [|done].
  unfold get_property. by destruct (own_property tags t); [|rewrite Hproto].
Qed.

Lemma tag_label_classify t prevVer curVer :
  object_prototype_get t = None →
  classify (from_option (get_tag t) VNull prevVer) (get_tag t curVer)
  = tag_label (tag_read t <$> prevVer) (tag_read t curVer).
Proof.
  intros Hproto. rewrite classify_never_null by apply _.
  destruct prevVer as [prevVer|]; simpl; [|done].
  rewrite !get_tag_read by done.
  by destruct (tag_read t prevVer), (tag_read t curVer).
Qed.

(** C20: what a tag line shows.  The first cell is "new" whether or not the
    first version has the tag; afterwards a tag that appears or disappears
    is "changed", a tag that stays absent is "unchanged"; the cell shows
    the tag value, or nothing where the version has no such tag.  (For a
    tag named like a member of [Object.prototype] see
    [scenario_prototype].) *)
Theorem tag_row_spec versions t i cell :
  object_prototype_get t = None →
  changeRow versions (get_tag t) None !! i = Some cell →
  ∃ curVer, versions !! i = Some curVer
    ∧ cell
      = {| clz := tag_label (tag_read t <$> prev_version versions i)
                    (tag_read t curVer);
           val := from_option VStr (VStr "") (tag_read t curVer);
           url := None |}.
Proof.
  intros Hproto (curVer & Hcur & ->)%changeRow_at_Some.
  exists curVer. split; [done|]. unfold changeRow_cell. f_equal.
  - rewrite <- tag_label_classify by done.
    by destruct (prev_version versions i).
  - rewrite get_tag_read by done. by destruct (tag_read t curVer).
Qed.

Lemma tag_row_spec_witness :
  ∃ curVer, scenario_A !! 3 = Some curVer
    ∧ {| clz := "changed"; val := VStr ""; url := None |}
      = {| clz := tag_label (tag_read "amenity" <$> prev_version scenario_A 3)
                    (tag_read "amenity" curVer);
           val := from_option VStr (VStr "") (tag_read "amenity" curVer);
           url := None |}.
Proof.
  apply (tag_row_spec scenario_A "amenity" 3
           {| clz := "changed"; val := VStr ""; url := None |});
    reflexivity.
Defined.

(** The line of a tag that is added in version 2 and removed in version 4:
    the abstract row is notpresent, new, unchanged, removed; the program
    shows new, changed, unchanged, changed. *)
Example scenario_A_lines :
  (λ line : TagLine, (line.1, clz <$> line.2)) <$> node_tagLines scenario_A
    = [ ("amenity", ["new"; "changed"; "unchanged"; "changed"]) ]
  ∧ label <$> spec_row (tag_read "amenity" <$> scenario_A)
    = ["notpresent"; "new"; "unchanged"; "removed"].
Proof. by vm_compute. Qed.

(** A tag named "constructor": the versions without it read the function
    [Object] from the prototype of the tag object, which the page shows as
    the value of the tag. *)
Example scenario_prototype :
  val <$> changeRow [with_tags 1 []; with_tags 2 [("constructor", "x")]]
            (get_tag "constructor") None
  = [VObject (NativeFunction "Object"); VStr "x"].
Proof. by vm_compute. Qed.

(** A version that omits [visible] is visible: the line of a history that
    never mentions [visible] is "new" and then "unchanged". *)
Example scenario_D_lines :
  (λ cell, (clz cell, val cell)) <$> changeRow scenario_A get_visible None
  = [ ("new", VBool true); ("unchanged", VBool true);
      ("unchanged", VBool true); ("unchanged", VBool true) ].
Proof. by vm_compute. Qed.

(** ** The links of the user and changeset lines *)

Lemma cell_url_plain before after curVal :
  to_boolean curVal = true → mem_char "$" (to_string curVal) = false →
  cell_url (Some (before +:+ "{val}" +:+ after)) curVal
  = match split_at_first "{val}" (before +:+ "{val}" +:+ after) with
    | Some (b, a) => Some (b +:+ to_string curVal +:+ a)
    | None => None
    end.
Proof.
intros Hv Hd. unfold cell_url. rewrite Hv.
destruct (split_at_first _ _) as [[b a]|] eqn:Hs.
- rewrite (replace_plain _ _ _ _ _ Hs Hd).
  by destruct before; simpl.
- by destruct (split_at_first_None _ _ before after Hs).
Qed.

(** C30: the cell of a user whose name is not empty and has no dollar
    sign links to the page of that user, and the cell of a changeset with
    a positive number below [10^21] links to the page of that changeset:
    the templates with [{val}] replaced by the name and by the decimal
    numeral. *)
Theorem links_spec v (z : Z) :
  (el_user v ≠ "" → mem_char "$" (el_user v) = false →
   cell_url (Some user_url) (get_user v)
   = Some ("https://osm.org/user/" +:+ el_user v))
  ∧ (el_changeset v = num_of_Z z → (0 < z < 10 ^ 21)%Z →
     cell_url (Some changeset_url) (get_changeset v)
     = Some ("https://osm.org/changeset/" +:+ pretty z)).
Proof.
split.
- intros Hu Hd.
  etrans; [apply (cell_url_plain "https://osm.org/user/" "" (get_user v))|];
    simpl; [by rewrite bool_decide_eq_false_2|done|by rewrite append_nil_r].
- intros Hc Hz. unfold get_changeset. rewrite Hc.
  assert (to_string (VNum (num_of_Z z)) = pretty z) as Hs
    by (apply num_to_string_integer; lia).
  etrans; [apply (cell_url_plain "https://osm.org/changeset/" ""
                    (VNum (num_of_Z z)))|];
    rewrite ?Hs; simpl;
    [by rewrite (proj2 (Z.eqb_neq z 0)) by lia|apply mem_char_pretty_Z
    |by rewrite ?append_nil_l, ?append_nil_r].
Qed.

(** Version 3 of the sample way, by user "u" in changeset 103. *)
Lemma links_spec_witness :
  cell_url (Some user_url) (get_user (with_tags 3 []))
  = Some "https://osm.org/user/u"
  ∧ cell_url (Some changeset_url) (get_changeset (with_tags 3 []))
    = Some "https://osm.org/changeset/103".
Proof.
destruct (links_spec (with_tags 3 []) 103) as [Hu Hc].
split; [by apply Hu|apply Hc; [reflexivity|done]].
Defined.

(** A user name with a dollar pattern: the link is not the page of the
    user.  The values 0 and the empty string get no link. *)
Example links_dollar :
  cell_url (Some user_url) (VStr "a$&b") = Some "https://osm.org/user/a{val}b"
  ∧ cell_url (Some user_url) (VStr "") = None
  ∧ cell_url (Some changeset_url) (VNum (num_of_Z 0)) = None.
Proof. by vm_compute. Qed.
