(* ===== verification/Fetch.v ===== *)
(** * Fetching a history ([src/src/api.ts], lines 1 to 42)

    [fetchAndParseJson] asks the OpenStreetMap API for a history and
    returns its elements, or throws: [ElementDoesntExistException] on
    status 404, [Error] on any other status outside 200..299.  The network
    is a function from the URL to what [fetch] resolves or rejects with,
    so that the model says which URL is requested and how each outcome of
    the request is treated. *)

From stdpp Require Import pretty.
From S2P Require Import Prelude JsString JsNumber JsValue Types.

(** ** Definitions *)

Definition API_URL : string := "https://api.openstreetmap.org/api/0.6".

(** The exceptions of the program: the class the sources declare, with
    its fields [url] and [status], and the built-in errors. *)
Inductive exn :=
  | ElementDoesntExistException (url : string) (status : Z)
  | Error (message : string)
  | TypeError (message : string)
  | SyntaxError (message : string).

#[export] Instance exn_eq_dec : EqDecision exn.
Proof. solve_decision. Defined.

(** [err.message]: the constructor of [ElementDoesntExistException] passes
    [`Element not found: ${url}`] to [Error]. *)
Definition message (err : exn) : string :=
  match err with
  | ElementDoesntExistException url _ => "Element not found: " +:+ url
  | Error m | TypeError m | SyntaxError m => m
  end.

(** What [response.json()] gives: a rejection when the body is not JSON,
    [null], or a value whose [elements] property is the list given, or
    [undefined] when it has none. *)
Inductive json_body :=
  | InvalidJson
  | JsonNull
  | JsonData (elements : option (list OSMElement)).

(** The part of a [Response] the program reads. *)
Record Response := {
  status : Z;
  body : json_body;
}.

(** [response.ok]: the status is in the range 200 to 299. *)
Definition ok (response : Response) : bool :=
  (200 <=? status response)%Z && (status response <=? 299)%Z.

(** [fetch]: for every URL, the response, or the exception [fetch] rejects
    with. *)
Definition network : Type := string → result exn Response.

(** [await response.json()] followed by [data.elements]. *)
Definition json_elements (response : Response)
  : result exn (option (list OSMElement)) :=
  match body response with
  | InvalidJson => Throw (SyntaxError "Unexpected token in JSON")
  | JsonNull =>
      Throw (TypeError "Cannot read properties of null (reading 'elements')")
  | JsonData elements => Return elements
  end.

(** [fetchAndParseJson(urlSuffix)] *)
Definition fetchAndParseJson (fetch : network) (urlSuffix : string)
  : result exn (option (list OSMElement)) :=
  let url := API_URL +:+ urlSuffix in
  response ← fetch url;
  if bool_decide (status response = 404%Z) then
    Throw (ElementDoesntExistException url (status response))
  else if negb (ok response) then
    Throw (Error ("HTTP error: " +:+ num_to_string (num_of_Z (status response))))
  else
    json_elements response.

(** [fetchNodeHistory(id)], [fetchWayHistory(id)] and
    [fetchRelationHistory(id)] *)
Definition fetchNodeHistory (fetch : network) (id : int_or_NaN) :=
  fetchAndParseJson fetch ("/node/" +:+ int_to_string id +:+ "/history.json").

Definition fetchWayHistory (fetch : network) (id : int_or_NaN) :=
  fetchAndParseJson fetch ("/way/" +:+ int_to_string id +:+ "/history.json").

Definition fetchRelationHistory (fetch : network) (id : int_or_NaN) :=
  fetchAndParseJson fetch
    ("/relation/" +:+ int_to_string id +:+ "/history.json").

(** A network that answers every request with the same response. *)
Definition always (response : Response) : network := λ _, Return response.

(** ** The outcomes of [fetchAndParseJson] *)

Lemma ok_404 response : status response = 404%Z → ok response = false.
Proof. unfold ok. intros ->. done. Qed.

Lemma ok_spec response :
  ok response = true ↔ (200 ≤ status response ≤ 299)%Z.
Proof. unfold ok. rewrite andb_true_iff, !Z.leb_le. done. Qed.

Section outcomes.
Context (fetch : network) (urlSuffix : string).
Let url := API_URL +:+ urlSuffix.

(** [fetch] rejects: the exception goes through. *)
Lemma fetchAndParseJson_rejected e :
  fetch (API_URL +:+ urlSuffix) = Throw e →
  fetchAndParseJson fetch urlSuffix = Throw e.
Proof. unfold fetchAndParseJson. by intros ->. Qed.

(** Status 404: [ElementDoesntExistException] with the URL requested. *)
Lemma fetchAndParseJson_404 response :
  fetch (API_URL +:+ urlSuffix) = Return response →
  status response = 404%Z →
  fetchAndParseJson fetch urlSuffix
  = Throw (ElementDoesntExistException (API_URL +:+ urlSuffix) 404).
Proof. unfold fetchAndParseJson. intros -> Hs. simpl. by rewrite Hs. Qed.

(** Any other status outside 200..299: [Error] with the status. *)
Lemma fetchAndParseJson_not_ok response :
  fetch (API_URL +:+ urlSuffix) = Return response →
  status response ≠ 404%Z → ok response = false →
  fetchAndParseJson fetch urlSuffix
  = Throw (Error ("HTTP error: "
                  +:+ num_to_string (num_of_Z (status response)))).
Proof.
unfold fetchAndParseJson. intros -> Hs Hok. simpl.
by rewrite bool_decide_eq_false_2, Hok.
Qed.

(** Status 200..299: the elements of the body. *)
Lemma fetchAndParseJson_ok response :
  fetch (API_URL +:+ urlSuffix) = Return response →
  ok response = true →
  fetchAndParseJson fetch urlSuffix = json_elements response.
Proof.
unfold fetchAndParseJson. intros -> Hok. simpl. rewrite Hok.
apply ok_spec in Hok. rewrite bool_decide_eq_false_2 by lia. done.
Qed.
End outcomes.

(** C26: [fetchAndParseJson] returns exactly when the request for
    [API_URL] followed by the suffix is answered with a status in 200..299
    and a JSON body that is not [null]; what it returns is the [elements]
    property of that body. *)
Theorem fetchAndParseJson_Return fetch urlSuffix elements :
  fetchAndParseJson fetch urlSuffix = Return elements
  ↔ ∃ response, fetch (API_URL +:+ urlSuffix) = Return response
      ∧ (200 ≤ status response ≤ 299)%Z
      ∧ body response = JsonData elements.
Proof.
unfold fetchAndParseJson, json_elements. split.
- intros (response & Hf & Hr)%bind_Return_inv. exists response.
  case_bool_decide; [done|]. destruct (ok response) eqn:Hok; [|done].
  apply ok_spec in Hok. simpl in Hr.
  by destruct (body response); simplify_eq.
- intros (response & -> & Hs & Hb). simpl.
  rewrite bool_decide_eq_false_2 by lia.
  apply ok_spec in Hs. by rewrite Hs, Hb.
Qed.

(** C27: [fetchAndParseJson] throws [ElementDoesntExistException] exactly
    when [fetch] itself rejects with one or the status of the response is
    404, and then the exception carries the full URL requested and the
    status 404. *)
Theorem fetchAndParseJson_ElementDoesntExist fetch urlSuffix url st :
  fetchAndParseJson fetch urlSuffix = Throw (ElementDoesntExistException url st)
  ↔ fetch (API_URL +:+ urlSuffix) = Throw (ElementDoesntExistException url st)
    ∨ ∃ response, fetch (API_URL +:+ urlSuffix) = Return response
        ∧ status response = 404%Z
        ∧ url = API_URL +:+ urlSuffix ∧ st = 404%Z.
Proof.
unfold fetchAndParseJson, json_elements. split.
- intros [Hf|(response & Hf & Hr)]%bind_Throw_inv; [by left|right].
  exists response. case_bool_decide as Hs; [by simplify_eq|].
  destruct (ok response); [|done]. simpl in Hr. by destruct (body response).
- intros [->|(response & -> & Hs & -> & ->)]; [done|]. simpl.
  by rewrite bool_decide_eq_true_2, Hs.
Qed.

(** The result depends on the network at the one URL requested only. *)
Lemma fetchAndParseJson_local fetch1 fetch2 urlSuffix :
  fetch1 (API_URL +:+ urlSuffix) = fetch2 (API_URL +:+ urlSuffix) →
  fetchAndParseJson fetch1 urlSuffix = fetchAndParseJson fetch2 urlSuffix.
Proof. unfold fetchAndParseJson. by intros ->. Qed.

(** [fetchAndParseJson] never fails silently: it returns, or throws the
    exception of [fetch], the 404 exception, the HTTP error or the error
    of reading the body. *)
Lemma fetchAndParseJson_total fetch urlSuffix :
  (∃ elements, fetchAndParseJson fetch urlSuffix = Return elements)
  ∨ (∃ e, fetchAndParseJson fetch urlSuffix = Throw e).
Proof. destruct (fetchAndParseJson fetch urlSuffix); eauto. Qed.
