(* ===== verification/Templates.v ===== *)
(** * The HTML templates ([src/src/templates.ts])

    Every template is the function from its arguments to the text of the
    page or of the fragment, character by character.  A double quote of the
    text is written [q], because a string of this file cannot hold one.
    A template that reads a field of a version that is not there throws,
    so the templates that do return a [result]. *)

From Stdlib Require Import Ascii.
From S2P Require Import Prelude JsString JsNumber JsValue Aggregate Types Api.
From S2P Require Import DiffSpec History Fetch.

(** ** Definitions *)

(** The double quote. *)
Definition q : string := String "034" "".

Definition MAX_COLUMN_LENGTH : nat := 20.

(** [escapeHtml(text)]: the five replacements, one after the other. *)
Definition escapeHtml (text : string) : string :=
  replace_all "'" "&#039;"
    (replace_all "034" "&quot;"
       (replace_all ">" "&gt;"
          (replace_all "<" "&lt;"
             (replace_all "&" "&amp;" text)))).

(** [truncate(val)]: a value that is no string is printed as it is
    ([null] and [undefined] as nothing); a string is escaped, and cut
    after [MAX_COLUMN_LENGTH] code units with its full text as the title
    of an ellipsis. *)
Definition truncate (val : value) : string :=
  match val with
  | VStr s =>
      if (MAX_COLUMN_LENGTH <? String.length s)%nat then
        escapeHtml (str_take MAX_COLUMN_LENGTH s) +:+ "<abbr title=" +:+ q +:+ escapeHtml s +:+ q +:+ ">…</abbr>"
      else escapeHtml s
  | _ => to_string (nullish val (VStr ""))
  end.

(** [baseTemplate(content)] *)
Definition baseTemplate (content : string) : string :=
  "<!DOCTYPE html>
<html lang=" +:+ q +:+ "en" +:+ q +:+ ">
<head>
    <title>OSM Deep History</title>
    <link rel=" +:+ q +:+ "stylesheet" +:+ q +:+ " href=" +:+ q +:+ "/history/styles.css" +:+ q +:+ ">
    <script src=" +:+ q +:+ "/history/app.js" +:+ q +:+ "></script>
</head>
<body>
    " +:+ content +:+ "
</body>
</html>".

(** The icons. *)
Definition nodeIcon : string :=
  "<img class=" +:+ q +:+ "primitive-icon" +:+ q +:+ " src=" +:+ q +:+ "/history/icons/node.svg" +:+ q +:+ " alt=" +:+ q +:+ "node" +:+ q +:+ ">".

Definition wayIcon : string :=
  "<img class=" +:+ q +:+ "primitive-icon" +:+ q +:+ " src=" +:+ q +:+ "/history/icons/way.svg" +:+ q +:+ " alt=" +:+ q +:+ "way" +:+ q +:+ ">".

Definition relationIcon : string :=
  "<img class=" +:+ q +:+ "primitive-icon" +:+ q +:+ " src=" +:+ q +:+ "/history/icons/relation.svg" +:+ q +:+ " alt=" +:+ q +:+ "relation" +:+ q +:+ ">".

Definition tagIcon : string :=
  "<img class=" +:+ q +:+ "primitive-icon" +:+ q +:+ " src=" +:+ q +:+ "/history/icons/tag.svg" +:+ q +:+ " alt=" +:+ q +:+ "tag" +:+ q +:+ ">".

Definition memberIcon : string :=
  "<img class=" +:+ q +:+ "primitive-icon" +:+ q +:+ " src=" +:+ q +:+ "/history/icons/member.svg" +:+ q +:+ " alt=" +:+ q +:+ "member" +:+ q +:+ ">".

(** [getTypeIcon(type)] *)
Definition getTypeIcon (type : string) : string :=
  if bool_decide (type = "node") then nodeIcon
  else if bool_decide (type = "way") then wayIcon
  else if bool_decide (type = "relation") then relationIcon
  else "".

(** [renderCell(col)]: the value, inside a link when the cell has one. *)
Definition renderCell (col : CellInfo) : string :=
  let valStr := truncate (val col) in
  if to_boolean (of_option VStr (url col)) then
    "<td class=" +:+ q +:+ clz col +:+ q +:+ "><a href=" +:+ q +:+ escapeHtml (default "" (url col)) +:+ q +:+ ">" +:+ valStr +:+ "</a></td>"
  else
    "<td class=" +:+ q +:+ clz col +:+ q +:+ ">" +:+ valStr +:+ "</td>".

(** [versions[versions.length - 1].version]: throws when there is no
    version. *)
Definition last_version (versions : list OSMElement) : result exn number :=
  match last versions with
  | Some v => Return (el_version v)
  | None =>
      Throw (TypeError "Cannot read properties of undefined (reading 'version')")
  end.

(** [renderTableHeader(versions)] *)
Definition renderTableHeader (versions : list OSMElement) : result exn string :=
  lastVersion ← last_version versions;
  Return ("
    <thead>
        <tr>
            <th><a href=" +:+ q +:+ "#version-" +:+ num_to_string lastVersion +:+ q +:+ ">Go to Recent &rightarrow;</a></th>
            " +:+ join "" ((λ v, "<th id=" +:+ q +:+ "version-" +:+ num_to_string (el_version v) +:+ q +:+ "><a href=" +:+ q +:+ "#version-" +:+ num_to_string (el_version v) +:+ q +:+ ">" +:+ num_to_string (el_version v) +:+ "</a></th>") <$> versions) +:+ "
        </tr>
        <tr>
            <th>&nbsp;</th>
            " +:+ join "" ((λ v, "<th>" +:+ escapeHtml (el_timestamp v) +:+ "</th>") <$> versions) +:+ "
        </tr>
    </thead>").

(** [versions.length + 1] as the text of a [colspan]. *)
Definition colspan (versions : list OSMElement) : string :=
  num_to_string (num_of_Z (Z.of_nat (length versions) + 1)).

(** [renderPropLines(versions, propLines)] *)
Definition renderPropLines (versions : list OSMElement)
    (propLines : list PropLine) : string :=
  join "" ((λ '(name, lineInfo), "
        <tr>
            <th>" +:+ escapeHtml name +:+ "</th>
            " +:+ join "" (renderCell <$> lineInfo) +:+ "
        </tr>")
           <$> propLines).

(** [renderTagLines(versions, tagLines)] *)
Definition renderTagLines (versions : list OSMElement)
    (tagLines : list TagLine) : string :=
  if bool_decide (length tagLines = 0) then
    "
        <tr>
            <td colspan=" +:+ q +:+ colspan versions +:+ q +:+ ">
                " +:+ tagIcon +:+ "
                <em>No tags</em>
            </td>
        </tr>"
  else
    join "" ((λ '(name, lineInfo), "
        <tr>
            <th>
                " +:+ tagIcon +:+ "
                <code><a href=" +:+ q +:+ "https://taginfo.openstreetmap.org/keys/" +:+ encodeURIComponent name +:+ "#overview" +:+ q +:+ ">" +:+ escapeHtml name +:+ "</a></code>
            </th>
            " +:+ join "" ((λ col, "<td class=" +:+ q +:+ clz col +:+ q +:+ ">" +:+ truncate (val col) +:+ "</td>") <$> lineInfo) +:+ "
        </tr>")
             <$> tagLines).

(** [renderIndex()] *)
Definition renderIndex : string :=
  baseTemplate ("
<h3>Deep History</h3>
<hr/>

<table>
    <tr>
        <form action=" +:+ q +:+ "node.php" +:+ q +:+ ">
            <td align=" +:+ q +:+ "right" +:+ q +:+ ">
                <label for=" +:+ q +:+ "node" +:+ q +:+ ">Node ID:</label>
            </td>
            <td>
                <input type=" +:+ q +:+ "text" +:+ q +:+ " size=" +:+ q +:+ "16" +:+ q +:+ " id=" +:+ q +:+ "node" +:+ q +:+ " name=" +:+ q +:+ "id" +:+ q +:+ ">
            </td>
            <td>
                <input type=" +:+ q +:+ "submit" +:+ q +:+ " value=" +:+ q +:+ "Get History" +:+ q +:+ ">
            </td>
        </form>
    </tr>

    <tr>
        <form action=" +:+ q +:+ "way.php" +:+ q +:+ ">
            <td align=" +:+ q +:+ "right" +:+ q +:+ ">
                <label for=" +:+ q +:+ "way" +:+ q +:+ ">Way ID:</label>
            </td>
            <td>
                <input type=" +:+ q +:+ "text" +:+ q +:+ " size=" +:+ q +:+ "16" +:+ q +:+ " id=" +:+ q +:+ "way" +:+ q +:+ " name=" +:+ q +:+ "id" +:+ q +:+ ">
            </td>
            <td>
                <input type=" +:+ q +:+ "submit" +:+ q +:+ " value=" +:+ q +:+ "Get History" +:+ q +:+ ">
            </td>
        </form>
    </tr>
    <tr>
        <form action=" +:+ q +:+ "relation.php" +:+ q +:+ ">
            <td align=" +:+ q +:+ "right" +:+ q +:+ ">
                <label for=" +:+ q +:+ "relation" +:+ q +:+ ">Relation ID:</label>
            </td>
            <td>
                <input type=" +:+ q +:+ "text" +:+ q +:+ " size=" +:+ q +:+ "16" +:+ q +:+ " id=" +:+ q +:+ "relation" +:+ q +:+ " name=" +:+ q +:+ "id" +:+ q +:+ ">
            </td>
            <td>
                <input type=" +:+ q +:+ "submit" +:+ q +:+ " value=" +:+ q +:+ "Get History" +:+ q +:+ ">
            </td>
        </form>
    </tr>
</table>
").

(** [versions[0].id]: throws when there is no version. *)
Definition first_id (versions : list OSMElement) : result exn number :=
  match versions with
  | v :: _ => Return (el_id v)
  | [] => Throw (TypeError "Cannot read properties of undefined (reading 'id')")
  end.

(** [renderNode(versions, propLines, tagLines)] *)
Definition renderNode (versions : list OSMElement)
    (propLines : list PropLine) (tagLines : list TagLine)
  : result exn string :=
  id ← first_id versions;
  header ← renderTableHeader versions;
  Return (baseTemplate ("
<h3>History of Node " +:+ nodeIcon +:+ "&nbsp;<a href=" +:+ q +:+ "https://openstreetmap.org/node/" +:+ num_to_string id +:+ q +:+ ">" +:+ num_to_string id +:+ "</a></h3>
<hr/>

<table>
    " +:+ header +:+ "
    <tbody>
        <tr>
            <td class=" +:+ q +:+ "header" +:+ q +:+ " colspan=" +:+ q +:+ colspan versions +:+ q +:+ ">
                <strong>Primitive Info</strong>
            </td>
        </tr>
        " +:+ renderPropLines versions propLines +:+ "

        <tr>
            <td class=" +:+ q +:+ "header" +:+ q +:+ " colspan=" +:+ q +:+ colspan versions +:+ q +:+ ">
                <strong>Tags</strong>
            </td>
        </tr>
        " +:+ renderTagLines versions tagLines +:+ "
    </tbody>
</table>
")).

(** The rows of the nodes of a way. *)
Definition nodesContent (versions : list OSMElement)
    (nodeLines : list NodeLine) : string :=
  if bool_decide (length nodeLines = 0) then
    "
        <tr>
            <td colspan=" +:+ q +:+ colspan versions +:+ q +:+ ">
                " +:+ memberIcon +:+ "
                <em>No nodes</em>
            </td>
        </tr>"
  else
    join "" ((λ '(nodeName, lineInfo), "
        <tr>
            <th>
                " +:+ memberIcon +:+ "
                <code>" +:+ num_to_string nodeName +:+ "</code>
            </th>
            " +:+ join "" ((λ col, "<td class=" +:+ q +:+ clz col +:+ q +:+ ">&nbsp;</td>") <$> lineInfo) +:+ "
        </tr>")
             <$> nodeLines).

(** [renderWay(versions, propLines, tagLines, nodeLines)] *)
Definition renderWay (versions : list OSMElement)
    (propLines : list PropLine) (tagLines : list TagLine)
    (nodeLines : list NodeLine) : result exn string :=
  id ← first_id versions;
  let nodesContent := nodesContent versions nodeLines in
  header ← renderTableHeader versions;
  Return (baseTemplate ("
<h3>History of Way " +:+ wayIcon +:+ "&nbsp;<a href=" +:+ q +:+ "https://openstreetmap.org/way/" +:+ num_to_string id +:+ q +:+ ">" +:+ num_to_string id +:+ "</a></h3>
<hr/>

<table>
    " +:+ header +:+ "
    <tbody>
        <tr>
            <td class=" +:+ q +:+ "header" +:+ q +:+ " colspan=" +:+ q +:+ colspan versions +:+ q +:+ ">
                <strong>Primitive Info</strong>
            </td>
        </tr>
        " +:+ renderPropLines versions propLines +:+ "

        <tr>
            <td class=" +:+ q +:+ "header" +:+ q +:+ " colspan=" +:+ q +:+ colspan versions +:+ q +:+ ">
                <strong>Tags</strong>
            </td>
        </tr>
        " +:+ renderTagLines versions tagLines +:+ "

        <tr>
            <td class=" +:+ q +:+ "header" +:+ q +:+ " colspan=" +:+ q +:+ colspan versions +:+ q +:+ ">
                <strong>Nodes</strong>
            </td>
        </tr>
        " +:+ nodesContent +:+ "
    </tbody>
</table>
")).

(** The rows of the members of a relation. *)
Definition membersContent (versions : list OSMElement)
    (memberLines : list MemberLine) : string :=
  if bool_decide (length memberLines = 0) then
    "
        <tr>
            <td colspan=" +:+ q +:+ colspan versions +:+ q +:+ ">
                " +:+ memberIcon +:+ "
                <em>No members</em>
            </td>
        </tr>"
  else
    join "" ((λ '(member, lineInfo), "
        <tr>
            <th>
                " +:+ getTypeIcon (m_type member) +:+ "
                <code>" +:+ num_to_string (m_ref member) +:+ " - " +:+ escapeHtml (if to_boolean (VStr (m_role member)) then m_role member else "(no role)") +:+ "</code>
            </th>
            " +:+ join "" ((λ col, "<td class=" +:+ q +:+ clz col +:+ q +:+ ">&nbsp;</td>") <$> lineInfo) +:+ "
        </tr>")
             <$> memberLines).

(** [renderRelation(versions, propLines, tagLines, memberLines)] *)
Definition renderRelation (versions : list OSMElement)
    (propLines : list PropLine) (tagLines : list TagLine)
    (memberLines : list MemberLine) : result exn string :=
  id ← first_id versions;
  let membersContent := membersContent versions memberLines in
  header ← renderTableHeader versions;
  Return (baseTemplate ("
<h3>History of Relation " +:+ relationIcon +:+ "&nbsp;<a href=" +:+ q +:+ "https://openstreetmap.org/relation/" +:+ num_to_string id +:+ q +:+ ">" +:+ num_to_string id +:+ "</a></h3>
<hr/>

<table>
    " +:+ header +:+ "
    <tbody>
        <tr>
            <td class=" +:+ q +:+ "header" +:+ q +:+ " colspan=" +:+ q +:+ colspan versions +:+ q +:+ ">
                <strong>Primitive Info</strong>
            </td>
        </tr>
        " +:+ renderPropLines versions propLines +:+ "

        <tr>
            <td class=" +:+ q +:+ "header" +:+ q +:+ " colspan=" +:+ q +:+ colspan versions +:+ q +:+ ">
                <strong>Tags</strong>
            </td>
        </tr>
        " +:+ renderTagLines versions tagLines +:+ "

        <tr>
            <td class=" +:+ q +:+ "header" +:+ q +:+ " colspan=" +:+ q +:+ colspan versions +:+ q +:+ ">
                <strong>Members</strong>
            </td>
        </tr>
        " +:+ membersContent +:+ "
    </tbody>
</table>
")).

(** [renderMissingElement(url, status)] *)
Definition renderMissingElement (url : string) (status : Z) : string :=
  baseTemplate ("
<h3>Object Missing</h3>
<hr/>

<p>The OSM API server says that object doesn't exist. Perhaps you could <a href=" +:+ q +:+ "/history" +:+ q +:+ ">go look for another object</a>?</p>

<p><code>HTTP " +:+ num_to_string (num_of_Z status) +:+ " - <a href=" +:+ q +:+ escapeHtml url +:+ q +:+ ">" +:+ escapeHtml url +:+ "</a></code></p>
").

(** The text that stands for one character in escaped text. *)
Definition escape_char (c : ascii) : string :=
  if Ascii.eqb c "&" then "&amp;"
  else if Ascii.eqb c "<" then "&lt;"
  else if Ascii.eqb c ">" then "&gt;"
  else if Ascii.eqb c "034" then "&quot;"
  else if Ascii.eqb c "'" then "&#039;"
  else String c "".

(** The five entities [escapeHtml] writes, with the character each
    stands for. *)
Definition entities : list (string * ascii) :=
  [("&amp;", "&"%char); ("&lt;", "<"%char); ("&gt;", ">"%char);
   ("&quot;", "034"%char); ("&#039;", "'"%char)].

(** The entity [s] starts with, if any: its character and the rest. *)
Definition decode_entity (s : string) : option (ascii * string) :=
  match find (λ e, String.prefix e.1 s) entities with
  | Some e => Some (e.2, str_drop (String.length e.1) s)
  | None => None
  end.

(** The text a browser shows for escaped text: every entity is read as
    its character.  The fuel is the number of characters still to read. *)
Fixpoint unescape (fuel : nat) (s : string) : string :=
  match fuel with
  | O => ""
  | S fuel' =>
      match decode_entity s, s with
      | Some (c, rest), _ => String c (unescape fuel' rest)
      | None, String c rest => String c (unescape fuel' rest)
      | None, "" => ""
      end
  end.

Definition unescapeHtml (s : string) : string := unescape (String.length s) s.

(** Text that cannot leave the element or the attribute value it is
    written in: it has no angle bracket and no quote. *)
Definition inert (s : string) : bool :=
  negb (mem_char "<" s) && negb (mem_char ">" s)
  && negb (mem_char "034" s) && negb (mem_char "'" s).

(** The values [changeRow] can hold: a function object is one
    of [Object.prototype]. *)
Definition plain_value (v : value) : bool :=
  match v with
  | VObject (NativeFunction name) => inert name
  | _ => true
  end.

(** The ellipsis that stands for the rest of a long value. *)
Definition abbr (title : string) : string :=
  "<abbr title=" +:+ q +:+ title +:+ q +:+ ">…</abbr>".

(** A cell the templates can show: its class is one of the five labels
    and its value is plain. *)
Definition cell_ok (cell : CellInfo) : bool :=
  bool_decide (clz cell ∈ labels) && plain_value (val cell).

(** Lines of such cells. *)
Definition lines_ok {K} (lines : list (K * list CellInfo)) : Prop :=
  Forall (λ line, Forall (λ cell, cell_ok cell = true) line.2) lines.

(** ** [escapeHtml] *)

(** C10: the five replacements of [escapeHtml], made one after the other
    over the whole text, amount to one pass that replaces every character
    by its entity: no replacement is escaped again by a later one, and
    the ampersands of the text are not confused with those of the
    entities. *)
Theorem escapeHtml_single_pass text :
  escapeHtml text = flat_map_string escape_char text.
Proof.
unfold escapeHtml. rewrite !replace_all_flat_map, !flat_map_string_compose.
apply flat_map_string_ext. intros c. unfold escape_char.
repeat match goal with
       | |- context [Ascii.eqb c ?y] =>
           destruct (Ascii.eqb_spec c y) as [->|?]; [by vm_compute|];
           cbn [flat_map_string]; string_norm
       end.
done.
Qed.

Lemma inert_app s t : inert (s +:+ t) = inert s && inert t.
Proof.
unfold inert. rewrite !mem_char_app.
by destruct (mem_char "<" s), (mem_char ">" s), (mem_char "034" s),
  (mem_char "'" s), (mem_char "<" t), (mem_char ">" t), (mem_char "034" t).
Qed.

Lemma inert_escape_char c : inert (escape_char c) = true.
Proof.
unfold escape_char.
destruct (Ascii.eqb_spec c "&"); [done|]. destruct (Ascii.eqb_spec c "<"); [done|].
destruct (Ascii.eqb_spec c ">"); [done|].
destruct (Ascii.eqb_spec c "034"); [done|].
destruct (Ascii.eqb_spec c "'"); [done|].
unfold inert. cbn [mem_char]. rewrite !orb_false_r.
by repeat (rewrite (proj2 (Ascii.eqb_neq _ _)) by done).
Qed.

(** The five passes read as one: every character is replaced by its
    entity, or kept. *)
Lemma escapeHtml_cons c text :
  escapeHtml (String c text) = escape_char c +:+ escapeHtml text.
Proof.
unfold escapeHtml, escape_char. cbn [replace_all].
destruct (Ascii.eqb_spec c "&") as [->|Hamp].
{ by rewrite !replace_all_app. }
cbn [replace_all]. destruct (Ascii.eqb_spec c "<") as [->|Hlt].
{ by rewrite !replace_all_app. }
cbn [replace_all]. destruct (Ascii.eqb_spec c ">") as [->|Hgt].
{ by rewrite !replace_all_app. }
cbn [replace_all]. destruct (Ascii.eqb_spec c "034") as [->|Hq].
{ by rewrite !replace_all_app. }
cbn [replace_all]. by destruct (Ascii.eqb_spec c "'") as [->|Hap].
Qed.

Lemma escapeHtml_nil : escapeHtml "" = "".
Proof. done. Qed.

Lemma escapeHtml_app s t : escapeHtml (s +:+ t) = escapeHtml s +:+ escapeHtml t.
Proof.
induction s as [|c s IH]; [done|].
by rewrite append_cons, !escapeHtml_cons, IH, append_assoc.
Qed.

(** Escaped text has no angle bracket and no quote, whatever the
    text was. *)
Theorem escapeHtml_inert text : inert (escapeHtml text) = true.
Proof.
induction text as [|c text IH]; [done|].
by rewrite escapeHtml_cons, inert_app, inert_escape_char, IH.
Qed.

Lemma escape_char_not_nil c s : escape_char c +:+ s ≠ "".
Proof.
unfold escape_char. by repeat (destruct (Ascii.eqb _ _); [done|]).
Qed.

(** Two escaped texts that start with the entities of [c] and of [d]
    are equal only when [c] is [d] and the rest is equal. *)
Lemma escape_char_inj c d s t :
  escape_char c +:+ s = escape_char d +:+ t → c = d ∧ s = t.
Proof.
unfold escape_char.
repeat match goal with
       | |- context [Ascii.eqb ?x ?y] =>
           is_var x; destruct (Ascii.eqb_spec x y) as [->|?]; simpl
       end;
  rewrite ?append_cons, ?append_nil_l; intros H; by simplify_eq.
Qed.

(** Escaping loses nothing. *)
Lemma escapeHtml_inj s t : escapeHtml s = escapeHtml t → s = t.
Proof.
revert t. induction s as [|c s IH]; intros [|d t]; rewrite ?escapeHtml_cons.
- done.
- intros H. by destruct (escape_char_not_nil d (escapeHtml t)).
- intros H. by destruct (escape_char_not_nil c (escapeHtml s)).
- intros [-> Hs]%escape_char_inj. f_equal. by apply IH.
Qed.

(** Reading the entity of a character gives the character back. *)
Lemma decode_escape_char c s :
  match decode_entity (escape_char c +:+ s) with
  | Some (d, rest) => d = c ∧ rest = s
  | None => escape_char c = String c ""
  end.
Proof.
unfold escape_char.
assert (∀ t, String.prefix "" t = true) as Hnil by (by intros []).
repeat match goal with
       | |- context [Ascii.eqb ?x ?y] =>
           is_var x; destruct (Ascii.eqb_spec x y) as [->|?];
           [unfold decode_entity; string_norm; cbn; by rewrite Hnil|]
       end.
unfold decode_entity. string_norm. cbn -[ascii_dec].
by repeat (destruct (ascii_dec _ c) as [<-|?]; [done|]).
Qed.

Lemma unescape_cons fuel c s :
  unescape (S fuel) (escape_char c +:+ s) = String c (unescape fuel s).
Proof.
cbn [unescape]. pose proof (decode_escape_char c s) as Hd.
destruct (decode_entity _) as [[d rest]|]; [by destruct Hd as [-> ->]|].
by rewrite Hd.
Qed.

Lemma unescape_escapeHtml fuel s :
  String.length s ≤ fuel → unescape fuel (escapeHtml s) = s.
Proof.
revert fuel. induction s as [|c s IH]; intros [|fuel] Hlen; simpl in Hlen;
  try done; try lia.
rewrite escapeHtml_cons, unescape_cons. f_equal. apply IH. lia.
Qed.

Lemma length_escape_char c s :
  S (String.length s) ≤ String.length (escape_char c +:+ s).
Proof.
unfold escape_char.
repeat (destruct (Ascii.eqb _ _); [string_norm; simpl; lia|]). by string_norm.
Qed.

Lemma length_escapeHtml s : String.length s ≤ String.length (escapeHtml s).
Proof.
induction s as [|c s IH]; [done|]. rewrite escapeHtml_cons.
etrans; [|apply length_escape_char]. simpl. lia.
Qed.

(** [escapeHtml] and the reading of entities are a round trip: the
    text a browser shows for the escaped text is the text itself, so
    escaping loses nothing and adds nothing. *)
Theorem unescapeHtml_escapeHtml s : unescapeHtml (escapeHtml s) = s.
Proof. apply unescape_escapeHtml, length_escapeHtml. Qed.

(** ** The text of a cell *)

Lemma inert_not_numeric s :
  (∀ c, not_numeric c = true → mem_char c s = false) → inert s = true.
Proof. intros Hs. unfold inert. by rewrite !Hs. Qed.

(** A number prints as inert text. *)
Lemma inert_num_to_string x : inert (num_to_string x) = true.
Proof.
apply inert_not_numeric. intros c Hc. by apply mem_char_num_to_string.
Qed.

(** [String(v)] of a value that is no string is inert text. *)
Lemma inert_to_string v :
  plain_value v = true → (∀ s, v ≠ VStr s) → inert (to_string v) = true.
Proof.
destruct v as [| |[]|x|s|[|name]]; simpl; intros Hv Hs; try done.
- apply inert_num_to_string.
- by destruct (Hs s).
- by rewrite !inert_app, Hv.
Qed.

(** C8: the text [truncate] writes into a cell is inert text, followed
    for a string of more than 20 code units by an ellipsis whose title is
    inert text: no value of a history can open or close an element or
    leave an attribute of the page.  The text shown for a string is the
    escaped text of its first 20 code units at most. *)
Theorem truncate_inert v :
  plain_value v = true →
  ∃ shown, inert shown = true
    ∧ (truncate v = shown
       ∨ ∃ title, inert title = true ∧ truncate v = shown +:+ abbr title)
    ∧ ∀ s, v = VStr s → shown = escapeHtml (str_take MAX_COLUMN_LENGTH s).
Proof.
intros Hv.
assert ((∃ s, v = VStr s) ∨ ∀ s, v ≠ VStr s) as [[s ->]|Hs]
  by (destruct v; eauto; by right).
- exists (escapeHtml (str_take MAX_COLUMN_LENGTH s)).
  split; [apply escapeHtml_inert|]. split; [|by intros ? [= ->]].
  unfold truncate. destruct (_ <? _)%nat eqn:Hlen.
  + right. exists (escapeHtml s). split; [apply escapeHtml_inert|done].
  + left. apply Nat.ltb_ge in Hlen. by rewrite str_take_all.
- exists (truncate v). split; [|split; [by left|]].
  + destruct v as [| |b|x|s|o]; try done; try (by destruct (Hs s));
      by apply inert_to_string.
  + intros s ->. by destruct (Hs s).
Qed.

Lemma truncate_inert_witness :
  ∃ shown, inert shown = true
    ∧ (truncate (VStr "<b>Main Street & 1st Avenue</b>") = shown
       ∨ ∃ title, inert title = true
           ∧ truncate (VStr "<b>Main Street & 1st Avenue</b>")
             = shown +:+ abbr title)
    ∧ ∀ s, VStr "<b>Main Street & 1st Avenue</b>" = VStr s →
           shown = escapeHtml (str_take MAX_COLUMN_LENGTH s).
Proof. exact (truncate_inert (VStr "<b>Main Street & 1st Avenue</b>") eq_refl). Defined.

(** The cut is made before the text is escaped: an entity is never cut
    in two, and the text shown can be longer than 20 characters. *)
Example truncate_long :
  truncate (VStr "<b>Main Street & 1st Avenue</b>")
  = "&lt;b&gt;Main Street &amp; 1st" +:+ abbr "&lt;b&gt;Main Street &amp; 1st Avenue&lt;/b&gt;"
  ∧ truncate (VStr "a < b") = "a &lt; b"
  ∧ truncate (VNum (Num 515074 4)) = "51.5074"
  ∧ truncate VNull = "" ∧ truncate VUndefined = ""
  ∧ truncate (VBool false) = "false".
Proof. by vm_compute. Qed.

(** ** The cells of the handlers *)

Lemma plain_object_prototype_get key o :
  object_prototype_get key = Some o → plain_value (VObject o) = true.
Proof.
unfold object_prototype_get. repeat case_bool_decide; intros [= <-]; try done.
match goal with H : key ∈ object_prototype_methods |- _ => rename H into Hin end.
unfold object_prototype_methods in Hin.
by repeat (apply elem_of_cons in Hin as [->|Hin]; [done|]);
  apply elem_of_nil in Hin.
Qed.

Lemma plain_get_property tags key : plain_value (get_property tags key) = true.
Proof.
unfold get_property. destruct (own_property tags key); [done|].
destruct (object_prototype_get key) eqn:Hk; [|done].
by eapply plain_object_prototype_get.
Qed.

(** Every accessor of the handlers returns a plain value. *)
Lemma plain_accessors v :
  plain_value (get_user v) = true ∧ plain_value (get_visible v) = true
  ∧ plain_value (get_changeset v) = true ∧ plain_value (get_lat v) = true
  ∧ plain_value (get_lon v) = true
  ∧ (∀ t, plain_value (get_tag t v) = true)
  ∧ (∀ n, plain_value (get_node_index n v) = true)
  ∧ (∀ m, plain_value (get_member m v) = true).
Proof.
repeat split; try done.
- unfold get_visible. by destruct (el_visible v).
- unfold get_lat. by destruct (el_lat v).
- unfold get_lon. by destruct (el_lon v).
- intros t. unfold get_tag. destruct (el_tags v); [|done].
  apply plain_get_property.
- intros n. unfold get_node_index. by destruct (_ <=? _)%Z.
Qed.

Lemma plain_cell_val v : plain_value v = true → plain_value (cell_val v) = true.
Proof. unfold cell_val. by destruct (_ && _). Qed.

Lemma changeRow_cell_ok attrGetter versions urlTemplate :
  (∀ v, plain_value (attrGetter v) = true) →
  Forall (λ cell, cell_ok cell = true) (changeRow versions attrGetter urlTemplate).
Proof.
intros Hplain. rewrite changeRow_map. apply Forall_fmap, Forall_true.
intros [prevVer curVer]. unfold cell_ok. simpl.
rewrite bool_decide_eq_true_2 by apply classify_label.
apply plain_cell_val, Hplain.
Qed.

Lemma lines_ok_changeRow {K} versions (getter : K → OSMElement → value)
    urlTemplate (keys : list K) :
  (∀ k v, plain_value (getter k v) = true) →
  lines_ok ((λ k, (k, changeRow versions (getter k) urlTemplate)) <$> keys).
Proof.
intros Hplain. apply Forall_fmap, Forall_true. intros k.
apply changeRow_cell_ok, Hplain.
Qed.

Lemma lines_ok_cons {K} (k : K) row lines :
  Forall (λ cell, cell_ok cell = true) row → lines_ok lines →
  lines_ok ((k, row) :: lines).
Proof. intros. by constructor. Qed.

Lemma lines_ok_nil {K} : lines_ok (K:=K) [].
Proof. constructor. Qed.

(** Every cell the three handlers pass to their templates has one of
    the five labels as its class and a plain value: a string, a number,
    a boolean, nothing, or a function of [Object.prototype]. *)
Theorem handlers_cells_ok versions :
  (lines_ok (nv_propLines (node_handler versions))
   ∧ lines_ok (nv_tagLines (node_handler versions)))
  ∧ (lines_ok (wv_propLines (way_handler versions))
     ∧ lines_ok (wv_tagLines (way_handler versions))
     ∧ lines_ok (wv_nodeLines (way_handler versions)))
  ∧ (lines_ok (rv_propLines (relation_handler versions))
     ∧ lines_ok (rv_tagLines (relation_handler versions))
     ∧ lines_ok (rv_memberLines (relation_handler versions))).
Proof.
assert (∀ getter tmpl, (∀ v, plain_value (getter v) = true) →
          Forall (λ cell, cell_ok cell = true) (changeRow versions getter tmpl))
  as Hrow by (intros; by apply changeRow_cell_ok).
simpl. unfold node_propLines, way_propLines, relation_propLines.
repeat split;
  repeat (apply lines_ok_cons; [apply Hrow; intros v; apply plain_accessors|]);
  try apply lines_ok_nil;
  apply lines_ok_changeRow; intros k v; apply plain_accessors.
Qed.

(** ** [renderCell] *)

(** C9: the text of a cell that is ok: a [td] element whose class is one
    of the five labels, holding the text of the value, inside a link
    with an inert target when the cell has one. *)
Theorem renderCell_safe cell :
  cell_ok cell = true →
  ∃ inner,
    clz cell ∈ labels
    ∧ renderCell cell
      = "<td class=" +:+ q +:+ clz cell +:+ q +:+ ">" +:+ inner +:+ "</td>"
    ∧ (inner = truncate (val cell)
       ∨ ∃ href, inert href = true
           ∧ inner = "<a href=" +:+ q +:+ href +:+ q +:+ ">"
                     +:+ truncate (val cell) +:+ "</a>").
Proof.
intros [Hclz%bool_decide_eq_true _]%andb_true_iff. unfold renderCell.
destruct (to_boolean _).
- exists ("<a href=" +:+ q +:+ escapeHtml (default "" (url cell)) +:+ q +:+ ">"
          +:+ truncate (val cell) +:+ "</a>").
  split; [done|]. split; [unfold q; by string_norm|].
  right. eexists. split; [apply escapeHtml_inert|done].
- exists (truncate (val cell)). auto.
Qed.

Lemma renderCell_safe_witness :
  ∃ inner,
    "new" ∈ labels
    ∧ renderCell {| clz := "new"; val := VStr "a<b"; url := Some "/u/a<b" |}
      = "<td class=" +:+ q +:+ "new" +:+ q +:+ ">" +:+ inner +:+ "</td>"
    ∧ (inner = truncate (VStr "a<b")
       ∨ ∃ href, inert href = true
           ∧ inner = "<a href=" +:+ q +:+ href +:+ q +:+ ">"
                     +:+ truncate (VStr "a<b") +:+ "</a>").
Proof.
exact (renderCell_safe {| clz := "new"; val := VStr "a<b"; url := Some "/u/a<b" |}
         eq_refl).
Defined.

(** ** The pages *)

Lemma renderTableHeader_Return v versions :
  ∃ header, renderTableHeader (v :: versions) = Return header.
Proof.
unfold renderTableHeader, last_version. rewrite last_cons.
destruct (last versions); eauto.
Qed.

Lemma renderNode_Return v versions propLines tagLines :
  ∃ html, renderNode (v :: versions) propLines tagLines = Return html.
Proof.
destruct (renderTableHeader_Return v versions) as [header Hh].
unfold renderNode. rewrite Hh. by eexists.
Qed.

Lemma renderWay_Return v versions propLines tagLines nodeLines :
  ∃ html, renderWay (v :: versions) propLines tagLines nodeLines = Return html.
Proof.
destruct (renderTableHeader_Return v versions) as [header Hh].
unfold renderWay. rewrite Hh. by eexists.
Qed.

Lemma renderRelation_Return v versions propLines tagLines memberLines :
  ∃ html,
    renderRelation (v :: versions) propLines tagLines memberLines = Return html.
Proof.
destruct (renderTableHeader_Return v versions) as [header Hh].
unfold renderRelation. rewrite Hh. by eexists.
Qed.

(** The three element pages are rendered exactly when the history
    has a version: with one they return a page, without one they throw
    the [TypeError] of reading the identifier of the first version. *)
Theorem render_total versions propLines tagLines nodeLines memberLines :
  match versions with
  | [] =>
      renderNode versions propLines tagLines
      = Throw (TypeError "Cannot read properties of undefined (reading 'id')")
      ∧ renderWay versions propLines tagLines nodeLines
        = Throw (TypeError "Cannot read properties of undefined (reading 'id')")
      ∧ renderRelation versions propLines tagLines memberLines
        = Throw (TypeError "Cannot read properties of undefined (reading 'id')")
  | _ :: _ =>
      (∃ html, renderNode versions propLines tagLines = Return html)
      ∧ (∃ html, renderWay versions propLines tagLines nodeLines = Return html)
      ∧ (∃ html, renderRelation versions propLines tagLines memberLines
                 = Return html)
  end.
Proof.
destruct versions as [|v versions]; [done|].
split; [apply renderNode_Return|].
split; [apply renderWay_Return|apply renderRelation_Return].
Qed.
