(* ===== verification/Shown.v ===== *)
(** * What a cell shows ([src/src/templates.ts])

    The text a browser shows for a piece of a page: the text between its
    tags, with the entities read as their characters.  The theorems show
    that the cell of a value shows the value itself, cut after
    [MAX_COLUMN_LENGTH] code units and followed by an ellipsis when it
    is longer: escaping and the link around the value change nothing of
    what is read. *)

From Stdlib Require Import Ascii.
From S2P Require Import Prelude JsString JsNumber JsValue Aggregate Types Api.
From S2P Require Import DiffSpec History Fetch Templates.

(** ** Definitions *)

(** The text between the tags; [in_tag] says that the text starts inside
    a tag. *)
Fixpoint strip_tags (in_tag : bool) (html : string) : string :=
  match html with
  | "" => ""
  | String c html' =>
      if in_tag then strip_tags (negb (Ascii.eqb c ">")) html'
      else if Ascii.eqb c "<" then strip_tags true html'
      else String c (strip_tags false html')
  end.

(** [element.textContent] *)
Definition text_content (html : string) : string :=
  unescapeHtml (strip_tags false html).

(** The ellipsis, as the bytes the template holds. *)
Definition ellipsis : string := "…".

(** What the cell of a value is meant to show. *)
Definition displayed (v : value) : string :=
  match v with
  | VStr s =>
      if (MAX_COLUMN_LENGTH <? String.length s)%nat
      then str_take MAX_COLUMN_LENGTH s +:+ ellipsis
      else s
  | VNull | VUndefined => ""
  | _ => to_string v
  end.

(** The text of a value between the tags of its cell, before the
    entities are read. *)
Definition visible (v : value) : string :=
  match v with
  | VStr s =>
      if (MAX_COLUMN_LENGTH <? String.length s)%nat
      then escapeHtml (str_take MAX_COLUMN_LENGTH s) +:+ ellipsis
      else escapeHtml s
  | _ => to_string (nullish v (VStr ""))
  end.

(** A value whose text, when it is no string, has no ampersand. *)
Definition showable (v : value) : bool :=
  match v with
  | VObject (NativeFunction name) => negb (mem_char "&" name)
  | _ => true
  end.

(** ** Tags *)

Lemma strip_tags_text s t :
  mem_char "<" s = false →
  strip_tags false (s +:+ t) = s +:+ strip_tags false t.
Proof.
induction s as [|c s IH]; [done|]. cbn [mem_char]. rewrite orb_false_iff.
intros [Hc Hs]. rewrite !append_cons. cbn [strip_tags]. by rewrite Hc, IH.
Qed.

Lemma strip_tags_tag s t :
  mem_char ">" s = false → strip_tags true (s +:+ t) = strip_tags true t.
Proof.
induction s as [|c s IH]; [done|]. cbn [mem_char]. rewrite orb_false_iff.
intros [Hc Hs]. rewrite !append_cons. cbn [strip_tags]. rewrite Hc.
by apply IH.
Qed.

Lemma strip_tags_plain s : mem_char "<" s = false → strip_tags false s = s.
Proof.
intros Hs. rewrite <- (append_nil_r s) at 1.
by rewrite strip_tags_text, append_nil_r.
Qed.

(** ** Entities *)

Lemma decode_entity_shorter s c rest :
  decode_entity s = Some (c, rest) → String.length rest < String.length s.
Proof.
unfold decode_entity. destruct (find _ _) as [e|] eqn:He; [|done].
intros [= _ <-]. apply find_some in He as [Hin Hprefix].
rewrite (prefix_drop _ _ Hprefix) at 2. rewrite length_append.
enough (0 < String.length e.1) by lia.
by repeat (destruct Hin as [<-|Hin]; [simpl; lia|]).
Qed.

Lemma decode_entity_ampersand s :
  is_Some (decode_entity s) → ∃ s', s = String "&" s'.
Proof.
unfold decode_entity. destruct (find _ _) as [e|] eqn:He; [|by intros [? ?]].
intros _. apply find_some in He as [Hin Hprefix].
apply prefix_drop in Hprefix.
repeat (destruct Hin as [<-|Hin]; [rewrite Hprefix; by eexists|]). done.
Qed.

(** More fuel than the text has characters changes nothing. *)
Lemma unescape_fuel fuel1 fuel2 s :
  String.length s ≤ fuel1 → String.length s ≤ fuel2 →
  unescape fuel1 s = unescape fuel2 s.
Proof.
revert fuel2 s. induction fuel1 as [|fuel1 IH]; intros [|fuel2] s H1 H2;
  try (by destruct s; simpl in *; try lia).
cbn [unescape]. destruct (decode_entity s) as [[c rest]|] eqn:Hd.
- apply decode_entity_shorter in Hd. f_equal. apply IH; lia.
- destruct s as [|c s]; [done|]. simpl in *. f_equal. apply IH; lia.
Qed.

Lemma unescapeHtml_fuel fuel s :
  String.length s ≤ fuel → unescape fuel s = unescapeHtml s.
Proof. intros Hlen. by apply unescape_fuel. Qed.

(** Escaped text followed by more text reads as the text followed by
    what the rest reads as. *)
Lemma unescapeHtml_app s t :
  unescapeHtml (escapeHtml s +:+ t) = s +:+ unescapeHtml t.
Proof.
induction s as [|c s IH]; [done|].
rewrite escapeHtml_cons, append_assoc, append_cons, <- IH.
pose proof (length_escape_char c (escapeHtml s +:+ t)) as Hlen.
unfold unescapeHtml at 1.
destruct (String.length (escape_char c +:+ _)) as [|fuel] eqn:Hfuel; [lia|].
rewrite unescape_cons. f_equal. apply unescapeHtml_fuel. lia.
Qed.

(** Text without an ampersand reads as itself. *)
Lemma unescapeHtml_plain s : mem_char "&" s = false → unescapeHtml s = s.
Proof.
unfold unescapeHtml. induction s as [|c s IH]; [done|].
cbn [mem_char String.length unescape]. rewrite orb_false_iff. intros [Hc Hs].
destruct (decode_entity (String c s)) as [[d rest]|] eqn:Hd.
- destruct (decode_entity_ampersand (String c s)) as [s' [= -> _]]; [by eexists|].
  done.
- by rewrite IH.
Qed.

(** ** The cells *)

Lemma text_content_plain s :
  mem_char "<" s = false → mem_char "&" s = false → text_content s = s.
Proof.
intros Hlt Hamp. unfold text_content.
by rewrite strip_tags_plain, unescapeHtml_plain.
Qed.

Lemma mem_char_escapeHtml c text :
  c = "<"%char ∨ c = ">"%char → mem_char c (escapeHtml text) = false.
Proof.
pose proof (escapeHtml_inert text) as Hinert. unfold inert in Hinert.
rewrite !andb_true_iff, !negb_true_iff in Hinert.
destruct Hinert as [[[? ?] _] _]. by intros [->| ->].
Qed.

(** What [truncate] writes stands between its tags as the escaped
    value, cut when it is long. *)
Lemma strip_tags_truncate v rest :
  plain_value v = true →
  strip_tags false (truncate v +:+ rest)
  = visible v +:+ strip_tags false rest.
Proof.
intros Hplain.
assert ((∃ s, v = VStr s) ∨ ∀ s, v ≠ VStr s) as [[s ->]|Hs]
  by (destruct v; eauto; by right).
- unfold truncate, visible. destruct (_ <? _)%nat;
    rewrite ?append_assoc, strip_tags_text
      by (apply mem_char_escapeHtml; by left); [|done].
  unfold q. string_norm. cbn [strip_tags Ascii.eqb Bool.eqb negb].
  rewrite strip_tags_tag by (apply mem_char_escapeHtml; by right).
  by cbn [strip_tags Ascii.eqb Bool.eqb negb].
- assert (truncate v = visible v) as ->
    by (destruct v as [| |b|x|s|o]; try done; by destruct (Hs s)).
  apply strip_tags_text.
  assert (inert (visible v) = true) as Hinert
    by (destruct v as [| |b|x|s|o]; try done; try (by destruct (Hs s));
        by apply inert_to_string).
  unfold inert in Hinert. rewrite !andb_true_iff, !negb_true_iff in Hinert.
  by destruct Hinert as [[[? _] _] _].
Qed.

(** Read with its entities, it is the value. *)
Lemma unescapeHtml_visible v :
  showable v = true → unescapeHtml (visible v) = displayed v.
Proof.
intros Hv. destruct v as [| |[]|x|s|[|name]]; try done.
- apply unescapeHtml_plain. by apply mem_char_num_to_string.
- unfold visible, displayed. destruct (_ <? _)%nat.
  + by rewrite unescapeHtml_app.
  + apply unescapeHtml_escapeHtml.
- simpl in Hv. apply negb_true_iff in Hv.
  apply unescapeHtml_plain. simpl. string_norm.
  by rewrite mem_char_app, Hv.
Qed.

Lemma text_content_truncate v :
  plain_value v = true → showable v = true →
  text_content (truncate v) = displayed v.
Proof.
intros Hplain Hv. unfold text_content.
rewrite <- (append_nil_r (truncate v)), strip_tags_truncate by done.
simpl. rewrite append_nil_r. by apply unescapeHtml_visible.
Qed.

(** C32: a cell shows its value.  What a browser reads in the cell of a
    value, between the tags and with the entities as their characters,
    is the value: the text of a string, cut after [MAX_COLUMN_LENGTH]
    code units and followed by an ellipsis when it is longer, the
    numeral of a number, [true] or [false], and nothing for [null] and
    [undefined].  The escaping, the link and the class of the cell add
    nothing to it and take nothing away. *)
Theorem renderCell_shows cell :
  cell_ok cell = true → showable (val cell) = true →
  text_content (renderCell cell) = displayed (val cell).
Proof.
intros [Hclz%bool_decide_eq_true Hplain]%andb_true_iff Hshow.
assert (mem_char ">" (clz cell) = false) as Hlabel.
{ unfold labels in Hclz.
  by repeat (apply elem_of_cons in Hclz as [->|Hclz]; [done|]);
    apply elem_of_nil in Hclz. }
unfold renderCell, text_content.
rewrite <- (unescapeHtml_visible _ Hshow). f_equal.
destruct (to_boolean _); unfold q; string_norm;
  cbn [strip_tags Ascii.eqb Bool.eqb negb];
  rewrite strip_tags_tag by done;
  cbn [strip_tags Ascii.eqb Bool.eqb negb];
  rewrite ?strip_tags_tag by (apply mem_char_escapeHtml; by right);
  cbn [strip_tags Ascii.eqb Bool.eqb negb];
  rewrite strip_tags_truncate by done; simpl; by rewrite append_nil_r.
Qed.

Lemma renderCell_shows_witness :
  text_content
    (renderCell {| clz := "changed";
                   val := VStr "Rue de l'<Église> & du Marché";
                   url := None |})
  = "Rue de l'<Église> &" +:+ ellipsis.
Proof.
exact (renderCell_shows
         {| clz := "changed"; val := VStr "Rue de l'<Église> & du Marché";
            url := None |} eq_refl eq_refl).
Defined.
