(* ===== verification/Routes.v ===== *)
(** * The routes ([src/src/routes/history.ts], [src/src/index.ts])

    A request is the route the framework matched with the parameter or the
    query value the handler reads; a response is the HTML text of a page
    or a redirect.  A handler returns a response or throws; [onError]
    turns the exception of a missing element into the page that says so
    and lets every other exception through. *)

From S2P Require Import Prelude JsString JsNumber JsValue Aggregate Types Api.
From S2P Require Import History Fetch Templates.

(** ** Definitions *)

(** The routes of [historyRoutes], each with what its handler reads:
    [c.req.query('id')], a string or [undefined], for the legacy routes,
    [c.req.param('id')] for the element routes. *)
Inductive history_request :=
  | GetIndex
  | GetNodePhp (id : option string)
  | GetWayPhp (id : option string)
  | GetRelationPhp (id : option string)
  | GetNode (id : string)
  | GetWay (id : string)
  | GetRelation (id : string).

(** The routes of [app]: the root, and [historyRoutes] under [/history]. *)
Inductive request :=
  | GetRoot
  | GetHistory (r : history_request).

(** [c.html(body)] and [c.redirect(location)]. *)
Inductive reply :=
  | Html (body : string)
  | Redirect (location : string).

(** The error handler of [historyRoutes]. *)
Definition onError (err : exn) : result exn reply :=
  match err with
  | ElementDoesntExistException url status =>
      Return (Html (renderMissingElement url status))
  | _ => Throw err
  end.

(** The legacy routes: a truthy [id] redirects to the element route, a
    missing or empty one to the index. *)
Definition node_php (id : option string) : reply :=
  if to_boolean (of_option VStr id)
  then Redirect ("/history/node/" +:+ to_string (of_option VStr id))
  else Redirect "/history".

Definition way_php (id : option string) : reply :=
  if to_boolean (of_option VStr id)
  then Redirect ("/history/way/" +:+ to_string (of_option VStr id))
  else Redirect "/history".

Definition relation_php (id : option string) : reply :=
  if to_boolean (of_option VStr id)
  then Redirect ("/history/relation/" +:+ to_string (of_option VStr id))
  else Redirect "/history".

(** What the handlers do first with [versions] is to spread it, in
    [pairwise]: this throws when the body had no [elements]. *)
Definition versions_array (versions : option (list OSMElement))
  : result exn (list OSMElement) :=
  match versions with
  | Some versions => Return versions
  | None =>
      Throw (TypeError "iterable is not iterable")
  end.

(** [GET /node/:id] *)
Definition node_route (fetch : network) (idParam : string)
  : result exn reply :=
  let id := parseInt idParam in
  versions ← fetchNodeHistory fetch id;
  versions ← versions_array versions;
  let view := node_handler versions in
  body ← renderNode (nv_versions view) (nv_propLines view) (nv_tagLines view);
  Return (Html body).

(** [GET /way/:id] *)
Definition way_route (fetch : network) (idParam : string)
  : result exn reply :=
  let id := parseInt idParam in
  versions ← fetchWayHistory fetch id;
  versions ← versions_array versions;
  let view := way_handler versions in
  body ← renderWay (wv_versions view) (wv_propLines view) (wv_tagLines view)
           (wv_nodeLines view);
  Return (Html body).

(** [GET /relation/:id] *)
Definition relation_route (fetch : network) (idParam : string)
  : result exn reply :=
  let id := parseInt idParam in
  versions ← fetchRelationHistory fetch id;
  versions ← versions_array versions;
  let view := relation_handler versions in
  body ← renderRelation (rv_versions view) (rv_propLines view)
           (rv_tagLines view) (rv_memberLines view);
  Return (Html body).

(** [historyRoutes]: the handler of the route, under [onError]. *)
Definition historyRoutes (fetch : network) (r : history_request)
  : result exn reply :=
  catch
    match r with
    | GetIndex => Return (Html renderIndex)
    | GetNodePhp id => Return (node_php id)
    | GetWayPhp id => Return (way_php id)
    | GetRelationPhp id => Return (relation_php id)
    | GetNode id => node_route fetch id
    | GetWay id => way_route fetch id
    | GetRelation id => relation_route fetch id
    end
    onError.

(** [app]: the root redirects to [/history]. *)
Definition app (fetch : network) (r : request) : result exn reply :=
  match r with
  | GetRoot => Return (Redirect "/history")
  | GetHistory r => historyRoutes fetch r
  end.

(** The URL an element route requests. *)
Definition history_url (kind idParam : string) : string :=
  API_URL +:+ "/" +:+ kind +:+ "/" +:+ int_to_string (parseInt idParam)
  +:+ "/history.json".

(** A network that answers the URL given with the elements given and
    every other URL with status 404. *)
Definition serving (url : string) (elements : list OSMElement) : network :=
  λ u, Return (if bool_decide (u = url)
               then {| status := 200; body := JsonData (Some elements) |}
               else {| status := 404; body := InvalidJson |}).

(** [err instanceof ElementDoesntExistException] *)
Definition is_missing (err : exn) : bool :=
  match err with
  | ElementDoesntExistException _ _ => true
  | _ => false
  end.

(** The outcome of a fetcher when the request is answered: the 404
    exception, the HTTP error, or the elements of the body. *)
Definition answered (url : string) (response : Response)
  : result exn (option (list OSMElement)) :=
  if bool_decide (status response = 404%Z) then
    Throw (ElementDoesntExistException url 404)
  else if ok response then json_elements response
  else Throw (Error ("HTTP error: "
                     +:+ num_to_string (num_of_Z (status response)))).

(** The response of an element route whose request is answered, for
    the template [render] of the route applied to the versions. *)
Definition shown (url : string) (response : Response)
    (render : list OSMElement → result exn string) : result exn reply :=
  catch
    (versions ← answered url response;
     versions ← versions_array versions;
     body ← render versions;
     Return (Html body))
    onError.

(** The templates of the three routes, applied to the versions. *)
Definition node_page (versions : list OSMElement) : result exn string :=
  renderNode versions (node_propLines versions) (node_tagLines versions).

Definition way_page (versions : list OSMElement) : result exn string :=
  renderWay versions (way_propLines versions) (way_tagLines versions)
    (nodeLines versions).

Definition relation_page (versions : list OSMElement) : result exn string :=
  renderRelation versions (relation_propLines versions)
    (relation_tagLines versions) (memberLines versions).

(** ** The error handler *)

Lemma onError_missing err :
  is_missing err = true →
  ∃ url st, err = ElementDoesntExistException url st
    ∧ onError err = Return (Html (renderMissingElement url st)).
Proof. destruct err; try done. intros _. eauto. Qed.

Lemma onError_other err : is_missing err = false → onError err = Throw err.
Proof. by destruct err. Qed.

Lemma onError_Throw err e : onError err = Throw e → is_missing e = false.
Proof. destruct err; simpl; intros; by simplify_eq. Qed.

Lemma catch_onError_Throw (m : result exn reply) e :
  catch m onError = Throw e → m = Throw e ∧ is_missing e = false.
Proof.
destruct m as [resp|err]; simpl; [done|].
intros He. pose proof (onError_Throw _ _ He) as Hm.
destruct err; simpl in He; by simplify_eq.
Qed.

(** ** The element routes *)

(** The three fetchers request [history_url]. *)
Lemma fetchNodeHistory_url fetch idParam :
  fetchNodeHistory fetch (parseInt idParam)
  = fetchAndParseJson fetch
      ("/node/" +:+ int_to_string (parseInt idParam) +:+ "/history.json")
  ∧ API_URL +:+ "/node/" +:+ int_to_string (parseInt idParam)
      +:+ "/history.json" = history_url "node" idParam.
Proof. done. Qed.

Lemma fetchWayHistory_url fetch idParam :
  fetchWayHistory fetch (parseInt idParam)
  = fetchAndParseJson fetch
      ("/way/" +:+ int_to_string (parseInt idParam) +:+ "/history.json")
  ∧ API_URL +:+ "/way/" +:+ int_to_string (parseInt idParam)
      +:+ "/history.json" = history_url "way" idParam.
Proof. done. Qed.

Lemma fetchRelationHistory_url fetch idParam :
  fetchRelationHistory fetch (parseInt idParam)
  = fetchAndParseJson fetch
      ("/relation/" +:+ int_to_string (parseInt idParam) +:+ "/history.json")
  ∧ API_URL +:+ "/relation/" +:+ int_to_string (parseInt idParam)
      +:+ "/history.json" = history_url "relation" idParam.
Proof. done. Qed.

Lemma fetchAndParseJson_answered fetch urlSuffix response :
  fetch (API_URL +:+ urlSuffix) = Return response →
  fetchAndParseJson fetch urlSuffix = answered (API_URL +:+ urlSuffix) response.
Proof.
unfold fetchAndParseJson, answered. intros ->. simpl.
case_bool_decide as Hs; [by rewrite Hs|]. by destruct (ok response).
Qed.

Lemma fetchers_answered fetch idParam :
  (∀ response, fetch (history_url "node" idParam) = Return response →
     fetchNodeHistory fetch (parseInt idParam)
     = answered (history_url "node" idParam) response)
  ∧ (∀ response, fetch (history_url "way" idParam) = Return response →
       fetchWayHistory fetch (parseInt idParam)
       = answered (history_url "way" idParam) response)
  ∧ (∀ response, fetch (history_url "relation" idParam) = Return response →
       fetchRelationHistory fetch (parseInt idParam)
       = answered (history_url "relation" idParam) response).
Proof. repeat split; intros response Hf; by apply fetchAndParseJson_answered. Qed.

Lemma routes_answered fetch idParam :
  (∀ response, fetch (history_url "node" idParam) = Return response →
     app fetch (GetHistory (GetNode idParam))
     = shown (history_url "node" idParam) response node_page)
  ∧ (∀ response, fetch (history_url "way" idParam) = Return response →
       app fetch (GetHistory (GetWay idParam))
       = shown (history_url "way" idParam) response way_page)
  ∧ (∀ response, fetch (history_url "relation" idParam) = Return response →
       app fetch (GetHistory (GetRelation idParam))
       = shown (history_url "relation" idParam) response relation_page).
Proof.
destruct (fetchers_answered fetch idParam) as (Hn & Hw & Hr).
repeat split; intros response Hf; unfold shown; simpl; unfold historyRoutes.
- unfold node_route. by rewrite (Hn _ Hf).
- unfold way_route. by rewrite (Hw _ Hf).
- unfold relation_route. by rewrite (Hr _ Hf).
Qed.

Lemma shown_404 url response render :
  status response = 404%Z →
  shown url response render = Return (Html (renderMissingElement url 404)).
Proof. unfold shown, answered. by intros ->. Qed.

Lemma answered_ok url response versions :
  (200 ≤ status response ≤ 299)%Z →
  body response = JsonData versions →
  answered url response = Return versions.
Proof.
unfold answered, json_elements. intros Hs ->.
rewrite bool_decide_eq_false_2 by lia. apply ok_spec in Hs. by rewrite Hs.
Qed.

Lemma shown_ok url response render versions html :
  (200 ≤ status response ≤ 299)%Z →
  body response = JsonData (Some versions) →
  render versions = Return html →
  shown url response render = Return (Html html).
Proof.
intros Hs Hb Hr. unfold shown. rewrite (answered_ok _ _ _ Hs Hb). simpl.
by rewrite Hr.
Qed.

Lemma shown_TypeError url response render versions msg :
  (200 ≤ status response ≤ 299)%Z →
  body response = JsonData (Some versions) →
  render versions = Throw (TypeError msg) →
  shown url response render = Throw (TypeError msg).
Proof.
intros Hs Hb Hr. unfold shown. rewrite (answered_ok _ _ _ Hs Hb). simpl.
by rewrite Hr.
Qed.

Lemma shown_not_ok url response render :
  status response ≠ 404%Z → ok response = false →
  shown url response render
  = Throw (Error ("HTTP error: "
                  +:+ num_to_string (num_of_Z (status response)))).
Proof.
unfold shown, answered. intros Hs ->. by rewrite bool_decide_eq_false_2.
Qed.

(** The pages of a history with a version are rendered. *)
Lemma pages_Return v versions :
  (∃ html, node_page (v :: versions) = Return html)
  ∧ (∃ html, way_page (v :: versions) = Return html)
  ∧ (∃ html, relation_page (v :: versions) = Return html).
Proof.
unfold node_page, way_page, relation_page.
split; [apply renderNode_Return|].
split; [apply renderWay_Return|apply renderRelation_Return].
Qed.

(** ** The application *)

(** C25: when the API answers the request of an element route with
    status 404, the application responds with the page for a missing
    element, which shows the full URL requested and the status. *)
Theorem routes_missing fetch idParam response :
  status response = 404%Z →
  (fetch (history_url "node" idParam) = Return response →
   app fetch (GetHistory (GetNode idParam))
   = Return (Html (renderMissingElement (history_url "node" idParam) 404)))
  ∧ (fetch (history_url "way" idParam) = Return response →
     app fetch (GetHistory (GetWay idParam))
     = Return (Html (renderMissingElement (history_url "way" idParam) 404)))
  ∧ (fetch (history_url "relation" idParam) = Return response →
     app fetch (GetHistory (GetRelation idParam))
     = Return (Html (renderMissingElement (history_url "relation" idParam)
                       404))).
Proof.
intros Hs. destruct (routes_answered fetch idParam) as (Hn & Hw & Hr).
repeat split; intros Hf.
- by rewrite (Hn _ Hf), shown_404.
- by rewrite (Hw _ Hf), shown_404.
- by rewrite (Hr _ Hf), shown_404.
Qed.

(** Node 42 when the API answers every request with status 404. *)
Lemma routes_missing_witness :
  history_url "node" "42"
  = "https://api.openstreetmap.org/api/0.6/node/42/history.json"
  ∧ app (always {| status := 404; body := InvalidJson |})
      (GetHistory (GetNode "42"))
    = Return (Html (renderMissingElement (history_url "node" "42") 404)).
Proof.
split; [reflexivity|].
pose proof (routes_missing (always {| status := 404; body := InvalidJson |})
              "42" {| status := 404; body := InvalidJson |} eq_refl)
  as (Hnode & _ & _).
exact (Hnode eq_refl).
Defined.

(** When the API answers with a status in 200..299 and a history
    of at least one version, the node route responds with the page
    [renderNode] makes of the versions and of the lines the handler
    computes from them, and this page is rendered without an exception;
    likewise for ways and relations. *)
Theorem routes_found fetch idParam response v versions :
  (200 ≤ status response ≤ 299)%Z →
  body response = JsonData (Some (v :: versions)) →
  (fetch (history_url "node" idParam) = Return response →
   ∃ html, node_page (v :: versions) = Return html
     ∧ app fetch (GetHistory (GetNode idParam)) = Return (Html html))
  ∧ (fetch (history_url "way" idParam) = Return response →
     ∃ html, way_page (v :: versions) = Return html
       ∧ app fetch (GetHistory (GetWay idParam)) = Return (Html html))
  ∧ (fetch (history_url "relation" idParam) = Return response →
     ∃ html, relation_page (v :: versions) = Return html
       ∧ app fetch (GetHistory (GetRelation idParam)) = Return (Html html)).
Proof.
intros Hs Hb. destruct (routes_answered fetch idParam) as (Hn & Hw & Hr).
destruct (pages_Return v versions) as ([hn Hhn] & [hw Hhw] & [hr Hhr]).
repeat split; intros Hf.
- exists hn. split; [done|]. rewrite (Hn _ Hf). by eapply shown_ok.
- exists hw. split; [done|]. rewrite (Hw _ Hf). by eapply shown_ok.
- exists hr. split; [done|]. rewrite (Hr _ Hf). by eapply shown_ok.
Qed.

(** Way 1 when the API serves the history of scenario B. *)
Lemma routes_found_witness :
  ∃ html, way_page scenario_B = Return html
    ∧ app (serving (history_url "way" "1") scenario_B)
        (GetHistory (GetWay " 1")) = Return (Html html).
Proof.
pose proof (routes_found (serving (history_url "way" "1") scenario_B) " 1"
              {| status := 200; body := JsonData (Some scenario_B) |}
              (with_nodes 1 [1; 2; 3]%Z) [with_nodes 2 [3; 1; 2]%Z]
              ltac:(simpl; lia) eq_refl)
  as (_ & Hway & _).
exact (Hway eq_refl).
Defined.

(** C29: a history without versions makes the element routes throw a
    [TypeError], from the template that reads the identifier of the first
    version: the handlers themselves compute their lines without failing. *)
Theorem routes_empty_history fetch idParam response :
  (200 ≤ status response ≤ 299)%Z →
  body response = JsonData (Some []) →
  (fetch (history_url "node" idParam) = Return response →
   app fetch (GetHistory (GetNode idParam))
   = Throw (TypeError "Cannot read properties of undefined (reading 'id')"))
  ∧ (fetch (history_url "way" idParam) = Return response →
     app fetch (GetHistory (GetWay idParam))
     = Throw (TypeError "Cannot read properties of undefined (reading 'id')"))
  ∧ (fetch (history_url "relation" idParam) = Return response →
     app fetch (GetHistory (GetRelation idParam))
     = Throw (TypeError
                "Cannot read properties of undefined (reading 'id')")).
Proof.
intros Hs Hb. destruct (routes_answered fetch idParam) as (Hn & Hw & Hr).
repeat split; intros Hf.
- rewrite (Hn _ Hf). by eapply shown_TypeError.
- rewrite (Hw _ Hf). by eapply shown_TypeError.
- rewrite (Hr _ Hf). by eapply shown_TypeError.
Qed.

(** Relation 7 when the API serves a history without versions. *)
Lemma routes_empty_history_witness :
  app (serving (history_url "relation" "7") []) (GetHistory (GetRelation "7"))
  = Throw (TypeError "Cannot read properties of undefined (reading 'id')").
Proof.
pose proof (routes_empty_history (serving (history_url "relation" "7") [])
              "7" {| status := 200; body := JsonData (Some []) |}
              ltac:(simpl; lia) eq_refl)
  as (_ & _ & Hrelation).
exact (Hrelation eq_refl).
Defined.

(** C28: no [ElementDoesntExistException] leaves the application: an
    exception that reaches the framework is one [onError] rethrew. *)
Theorem app_catches_missing fetch r e :
  app fetch r = Throw e → is_missing e = false.
Proof.
destruct r as [|r]; simpl; [done|]. unfold historyRoutes.
by intros [_ ?]%catch_onError_Throw.
Qed.

(** Node 42 when the API answers with status 500: the HTTP error leaves
    the application. *)
Lemma app_catches_missing_witness :
  app (always {| status := 500; body := InvalidJson |})
    (GetHistory (GetNode "42")) = Throw (Error "HTTP error: 500")
  ∧ is_missing (Error "HTTP error: 500") = false.
Proof.
split; [reflexivity|].
apply (app_catches_missing (always {| status := 500; body := InvalidJson |})
         (GetHistory (GetNode "42"))).
reflexivity.
Defined.

(** The legacy routes redirect to the element route with the [id]
    of the query when there is one and it is not empty, and to the index
    otherwise. *)
Theorem legacy_routes fetch id :
  app fetch (GetHistory (GetNodePhp id))
  = Return (Redirect match id with
                     | Some (String c s) => "/history/node/" +:+ String c s
                     | _ => "/history"
                     end)
  ∧ app fetch (GetHistory (GetWayPhp id))
    = Return (Redirect match id with
                       | Some (String c s) => "/history/way/" +:+ String c s
                       | _ => "/history"
                       end)
  ∧ app fetch (GetHistory (GetRelationPhp id))
    = Return (Redirect match id with
                       | Some (String c s) =>
                           "/history/relation/" +:+ String c s
                       | _ => "/history"
                       end).
Proof. by destruct id as [[|c s]|]. Qed.
