(* ===== verification/Lifecycle.v ===== *)
(** * The life of a request ([src/src/routes/history.ts], [src/src/api.ts])

    The handlers of the element routes are [async] functions: they are
    suspended at [await fetch(url)] and at [await response.json()], and
    the worker serves other requests in between.  This file gives the
    handler of one request as a transition system whose states are these
    suspension points, and a pool of requests whose steps interleave.
    The function [app] of [Routes] is what one request computes from
    start to end; the theorems show that the transition system computes
    the same, in at most four steps, whatever the interleaving. *)

From S2P Require Import Prelude JsString JsNumber JsValue Aggregate Types Api.
From S2P Require Import History Fetch Templates Routes.

(** ** Definitions *)

(** The three kinds of element, each with its route, the name the API
    gives it and the page of its history. *)
Inductive element := Node | Way | Relation.

#[export] Instance element_eq_dec : EqDecision element.
Proof. solve_decision. Defined.

Definition element_name (k : element) : string :=
  match k with Node => "node" | Way => "way" | Relation => "relation" end.

Definition element_request (k : element) (idParam : string) : request :=
  GetHistory
    match k with
    | Node => GetNode idParam
    | Way => GetWay idParam
    | Relation => GetRelation idParam
    end.

Definition element_page (k : element)
  : list OSMElement → result exn string :=
  match k with
  | Node => node_page
  | Way => way_page
  | Relation => relation_page
  end.

(** Where a request is: matched to its route and not yet handled;
    suspended at [await fetch(url)]; suspended at
    [await response.json()]; thrown out of its handler, before [onError]
    runs; finished, with the response or the exception that leaves the
    application. *)
Inductive state :=
  | Matched (r : request)
  | AwaitFetch (k : element) (url : string)
  | AwaitJson (k : element) (response : Response)
  | Thrown (err : exn)
  | Finished (outcome : result exn reply).

(** What happens at a step: the handler replies at once; it calls
    [fetch(url)]; the promise of [fetch] settles; the body is read and
    the handler runs to its end; [onError] is called. *)
Inductive event :=
  | Reply (r : reply)
  | Call (url : string)
  | Settle (outcome : result exn Response)
  | Read
  | Handle (err : exn).

(** The handler up to its first suspension: the index and the redirects
    reply at once, an element route calls [fetch] with the URL of the
    history. *)
Definition start (r : request) : event * state :=
  let call k idParam :=
    let url := history_url (element_name k) idParam in
    (Call url, AwaitFetch k url) in
  let reply r := (Reply r, Finished (Return r)) in
  match r with
  | GetRoot => reply (Redirect "/history")
  | GetHistory GetIndex => reply (Html renderIndex)
  | GetHistory (GetNodePhp id) => reply (node_php id)
  | GetHistory (GetWayPhp id) => reply (way_php id)
  | GetHistory (GetRelationPhp id) => reply (relation_php id)
  | GetHistory (GetNode idParam) => call Node idParam
  | GetHistory (GetWay idParam) => call Way idParam
  | GetHistory (GetRelation idParam) => call Relation idParam
  end.

(** [fetchAndParseJson] from the settling of [fetch] to its next
    suspension: a rejection and the two status tests throw. *)
Definition settle (k : element) (url : string)
    (outcome : result exn Response) : state :=
  match outcome with
  | Throw err => Thrown err
  | Return response =>
      if bool_decide (status response = 404%Z) then
        Thrown (ElementDoesntExistException url (status response))
      else if negb (ok response) then
        Thrown (Error ("HTTP error: "
                       +:+ num_to_string (num_of_Z (status response))))
      else AwaitJson k response
  end.

(** The handler from the settling of [response.json()] to its end: the
    elements of the body, the lines, the page. *)
Definition read (k : element) (response : Response) : state :=
  match
    versions ← json_elements response;
    versions ← versions_array versions;
    body ← element_page k versions;
    Return (Html body)
  with
  | Return r => Finished (Return r)
  | Throw err => Thrown err
  end.

(** One step of one request.  The network is free to settle a [fetch]
    with any response or rejection. *)
Inductive step : state → event → state → Prop :=
  | step_start r :
      step (Matched r) (start r).1 (start r).2
  | step_settle k url outcome :
      step (AwaitFetch k url) (Settle outcome) (settle k url outcome)
  | step_read k response :
      step (AwaitJson k response) Read (read k response)
  | step_handle err :
      step (Thrown err) (Handle err) (Finished (onError err)).

(** A step in which the network behaves as [fetch] says. *)
Definition step_in (fetch : network) (s : state) (e : event) (s' : state)
  : Prop :=
  step s e s'
  ∧ ∀ k url outcome, s = AwaitFetch k url → e = Settle outcome →
      outcome = fetch url.

(** Sequences of steps, with the events in order. *)
Section trace.
Context {S E : Type} (R : S → E → S → Prop).

Inductive trace : S → list E → S → Prop :=
  | trace_nil s : trace s [] s
  | trace_cons s e s' tr s'' :
      R s e s' → trace s' tr s'' → trace s (e :: tr) s''.

End trace.

(** The step a request takes over the network [fetch], as a function. *)
Definition next (fetch : network) (s : state) : option (event * state) :=
  match s with
  | Matched r => Some (start r)
  | AwaitFetch k url => Some (Settle (fetch url), settle k url (fetch url))
  | AwaitJson k response => Some (Read, read k response)
  | Thrown err => Some (Handle err, Finished (onError err))
  | Finished _ => None
  end.

(** At most [fuel] steps over the network [fetch]: the state reached
    and the events on the way. *)
Fixpoint run (fetch : network) (fuel : nat) (s : state) : state :=
  match fuel with
  | O => s
  | S fuel' =>
      match next fetch s with
      | Some (_, s') => run fetch fuel' s'
      | None => s
      end
  end.

Fixpoint events (fetch : network) (fuel : nat) (s : state) : list event :=
  match fuel with
  | O => []
  | S fuel' =>
      match next fetch s with
      | Some (e, s') => e :: events fetch fuel' s'
      | None => []
      end
  end.

(** The number of steps a request can still take, at most. *)
Definition remaining (s : state) : nat :=
  match s with
  | Matched _ => 4
  | AwaitFetch _ _ => 3
  | AwaitJson _ _ => 2
  | Thrown _ => 1
  | Finished _ => 0
  end.

(** The requests being served.  A step of the pool is a step of one of
    them: the event carries its position. *)
Inductive pool_step (R : state → event → state → Prop)
  : list state → nat * event → list state → Prop :=
  | pool_step_at pool i s e s' :
      pool !! i = Some s → R s e s' →
      pool_step R pool (i, e) (<[i:=s']> pool).

(** The events of the request at position [i]. *)
Definition events_of (i : nat) (tr : list (nat * event)) : list event :=
  snd <$> filter (λ ie, ie.1 = i) tr.

(** ** Traces *)

Section trace_lemmas.
Context {S E : Type} (R : S → E → S → Prop).

Lemma trace_app s tr1 s' tr2 s'' :
  trace R s tr1 s' → trace R s' tr2 s'' → trace R s (tr1 ++ tr2) s''.
Proof. induction 1; simpl; eauto using trace. Qed.

Lemma trace_snoc s tr s' e s'' :
  trace R s tr s' → R s' e s'' → trace R s (tr ++ [e]) s''.
Proof. intros Htr Hs. eapply trace_app; eauto using trace. Qed.

(** A measure that every step decreases bounds the length of a trace. *)
Lemma trace_measure (m : S → nat) s tr s' :
  (∀ s e s', R s e s' → m s' < m s) →
  trace R s tr s' → length tr + m s' ≤ m s.
Proof.
intros Hm. induction 1 as [|s e s' tr s'' Hs _ IH]; simpl; [lia|].
specialize (Hm _ _ _ Hs). lia.
Qed.

(** A step relation that is a function has one trace of each length. *)
Lemma trace_deterministic s tr1 s1 tr2 s2 :
  (∀ s e1 s1 e2 s2, R s e1 s1 → R s e2 s2 → e1 = e2 ∧ s1 = s2) →
  trace R s tr1 s1 → trace R s tr2 s2 → length tr1 = length tr2 →
  tr1 = tr2 ∧ s1 = s2.
Proof.
intros Hdet Htr1. revert tr2. induction Htr1 as [|s e s' tr s'' Hs _ IH];
  intros tr2 Htr2 Hlen; destruct Htr2 as [|s e2 s2' tr2 s2'' Hs2 Htr2];
  try done.
destruct (Hdet _ _ _ _ _ Hs Hs2) as [-> ->]. simpl in Hlen.
destruct (IH _ Htr2) as [-> ->]; [lia|done].
Qed.

(** So it has one trace to a state without a step. *)
Lemma trace_final_unique s tr1 s1 tr2 s2 :
  (∀ s e1 s1 e2 s2, R s e1 s1 → R s e2 s2 → e1 = e2 ∧ s1 = s2) →
  (∀ e s', ¬ R s1 e s') → (∀ e s', ¬ R s2 e s') →
  trace R s tr1 s1 → trace R s tr2 s2 → tr1 = tr2 ∧ s1 = s2.
Proof.
intros Hdet Hnf1 Hnf2 Htr1. revert tr2.
induction Htr1 as [|s e s' tr s'' Hs _ IH]; intros tr2 Htr2;
  destruct Htr2 as [|s e2 s2' tr2 s2'' Hs2 Htr2]; try done.
- by destruct (Hnf1 _ _ Hs2).
- by destruct (Hnf2 _ _ Hs).
- destruct (Hdet _ _ _ _ _ Hs Hs2) as [-> ->].
  by destruct (IH Hnf1 _ Htr2) as [-> ->].
Qed.

End trace_lemmas.

(** ** One request *)

(** The handler of an element route, from the call of [fetch] on: what
    [app] computes for the route. *)
Lemma app_element fetch k idParam :
  app fetch (element_request k idParam)
  = catch
      (response ← fetch (history_url (element_name k) idParam);
       versions ← answered (history_url (element_name k) idParam) response;
       versions ← versions_array versions;
       body ← element_page k versions;
       Return (Html body))
      onError.
Proof.
destruct (routes_answered fetch idParam) as (Hn & Hw & Hr).
destruct (fetch (history_url (element_name k) idParam))
  as [response|err] eqn:Hf.
- destruct k; [apply (Hn _ Hf)|apply (Hw _ Hf)|apply (Hr _ Hf)].
- pose proof (λ prefix, fetchAndParseJson_rejected fetch
      (prefix +:+ int_to_string (parseInt idParam) +:+ "/history.json") err)
    as Hrej.
  destruct k; simpl; unfold historyRoutes, node_route, way_route,
    relation_route, fetchNodeHistory, fetchWayHistory, fetchRelationHistory.
  + by rewrite (Hrej "/node/" Hf).
  + by rewrite (Hrej "/way/" Hf).
  + by rewrite (Hrej "/relation/" Hf).
Qed.

(** What an element route answers with, when it answers: the page of
    the history, or the page for a missing element. *)
Lemma app_element_Return fetch k idParam r :
  app fetch (element_request k idParam) = Return r →
  (∃ versions body, element_page k versions = Return body ∧ r = Html body)
  ∨ ∃ url status, r = Html (renderMissingElement url status).
Proof.
rewrite app_element.
destruct (mbind _ (fetch _)) as [r'|err] eqn:Hroute; simpl.
- intros [= ->]. left.
  apply bind_Return_inv in Hroute as (response & _ & Hroute).
  apply bind_Return_inv in Hroute as (elements & _ & Hroute).
  apply bind_Return_inv in Hroute as (versions & _ & Hroute).
  apply bind_Return_inv in Hroute as (body & Hpage & [= <-]). eauto.
- destruct err; try done. intros [= <-]. right. eauto.
Qed.

(** The steps are those of [next], for the network that settles as the
    step says. *)
Lemma step_next fetch s e s' :
  step_in fetch s e s' ↔ next fetch s = Some (e, s').
Proof.
split.
- intros [Hs Hf]. destruct Hs; simpl; try done; [by destruct (start r)|].
  by rewrite <-(Hf k url outcome).
- destruct s; simpl; intros Hn; simplify_eq; (split; [|intros; by simplify_eq]);
    try constructor.
  pose proof (step_start r) as Hs. by rewrite Hn in Hs.
Qed.

Lemma step_in_deterministic fetch s e1 s1 e2 s2 :
  step_in fetch s e1 s1 → step_in fetch s e2 s2 → e1 = e2 ∧ s1 = s2.
Proof. rewrite !step_next. intros -> [= -> ->]. done. Qed.

(** Every step uses up one of the steps that remain. *)
Lemma step_remaining s e s' : step s e s' → remaining s' < remaining s.
Proof.
destruct 1 as [r|k url outcome|k response|err]; simpl.
- destruct r as [|[]]; simpl; lia.
- unfold settle. destruct outcome; repeat case_match; simpl; lia.
- unfold read. case_match; simpl; lia.
- lia.
Qed.

(** [run] follows the steps. *)
Lemma run_trace fetch fuel s :
  trace (step_in fetch) s (events fetch fuel s) (run fetch fuel s).
Proof.
revert s. induction fuel as [|fuel IH]; intros s; simpl; [constructor|].
destruct (next fetch s) as [[e s']|] eqn:Hn; [|constructor].
econstructor; [by apply step_next|done].
Qed.

(** A request thrown out of its handler ends with what [onError] makes
    of the exception; one that is suspended at [response.json()] ends
    with what the rest of the handler computes, under [onError]. *)
Lemma run_read fetch k response :
  run fetch 2 (AwaitJson k response)
  = Finished
      (catch
         (versions ← json_elements response;
          versions ← versions_array versions;
          body ← element_page k versions;
          Return (Html body))
         onError).
Proof.
cbn [run next]. unfold read. by destruct (mbind _ (json_elements response)).
Qed.

Lemma run_settle fetch k url :
  run fetch 3 (AwaitFetch k url)
  = Finished
      (catch
         (response ← fetch url;
          versions ← answered url response;
          versions ← versions_array versions;
          body ← element_page k versions;
          Return (Html body))
         onError).
Proof.
pose proof (run_read fetch k) as Hread. cbn [run next] in *.
unfold settle, answered. destruct (fetch url) as [response|err]; [|done].
simpl. case_bool_decide as Hs; [by rewrite Hs|].
destruct (ok response); simpl; [apply Hread|done].
Qed.

(** Four steps bring every request to its end, which is what [app]
    computes. *)
Lemma run_app fetch r : run fetch 4 (Matched r) = Finished (app fetch r).
Proof.
assert (∀ k idParam,
  run fetch 4 (Matched (element_request k idParam))
  = Finished (app fetch (element_request k idParam))) as Helement.
{ intros k idParam. rewrite app_element, <-run_settle.
  destruct k; cbn [run next start element_request];
    by repeat case_match; simplify_eq. }
destruct r as [|[| | | |idParam|idParam|idParam]]; try done.
- apply (Helement Node).
- apply (Helement Way).
- apply (Helement Relation).
Qed.

Lemma length_events fetch fuel s : length (events fetch fuel s) ≤ fuel.
Proof.
revert s. induction fuel as [|fuel IH]; intros s; simpl; [done|].
destruct (next fetch s) as [[e s']|]; simpl; [|lia]. specialize (IH s'). lia.
Qed.

(** A finished request takes no step. *)
Lemma step_Finished outcome e s' : ¬ step (Finished outcome) e s'.
Proof. inversion 1. Qed.

(** The steps that remain are enough to finish. *)
Lemma run_remaining fetch s : ∃ outcome, run fetch (remaining s) s = Finished outcome.
Proof.
destruct s as [r|k url|k response|err|outcome]; eexists.
- apply run_app.
- apply run_settle.
- apply run_read.
- done.
- done.
Qed.

(** A sequence of steps that finishes, finishes with what [app]
    computes. *)
Lemma trace_Finished_app fetch r tr outcome :
  trace (step_in fetch) (Matched r) tr (Finished outcome) →
  outcome = app fetch r.
Proof.
intros Htr.
pose proof (run_trace fetch 4 (Matched r)) as Hrun. rewrite run_app in Hrun.
assert (∀ o e s', ¬ step_in fetch (Finished o) e s') as Hnf
  by (intros o e s' [Hs _]; by apply step_Finished in Hs).
destruct (trace_final_unique (step_in fetch) _ _ _ _ _
            (step_in_deterministic fetch) (Hnf _) (Hnf _) Htr Hrun)
  as [_ Heq].
by injection Heq.
Qed.




(** No request stays suspended: over a network that settles every
    [fetch], a request in any state reaches a finished state within the
    steps that remain, and only a finished request has no step. *)
Theorem lifecycle_finishes fetch s :
  (∃ tr outcome,
     trace (step_in fetch) s tr (Finished outcome)
     ∧ length tr ≤ remaining s)
  ∧ ((∃ outcome, s = Finished outcome) ∨ ∃ e s', step_in fetch s e s').
Proof.
split.
- destruct (run_remaining fetch s) as [outcome Hrun].
  exists (events fetch (remaining s) s), outcome.
  split; [|apply length_events]. rewrite <-Hrun. apply run_trace.
- destruct (next fetch s) as [[e s']|] eqn:Hn.
  + right. exists e, s'. by apply step_next.
  + left. destruct s; try done. by eexists.
Qed.

(** A request calls the API at most once, before anything else, and
    only on an element route, with the URL of the history of that
    element. *)
Theorem lifecycle_one_call r tr s i url :
  trace step (Matched r) tr s → tr !! i = Some (Call url) →
  i = 0
  ∧ ∃ k idParam, r = element_request k idParam
      ∧ url = history_url (element_name k) idParam.
Proof.
assert (∀ s tr s', trace step s tr s' → (∀ r, s ≠ Matched r) →
          ∀ i, tr !! i ≠ Some (Call url)) as Hlater.
{ induction 1 as [|s0 e s1 tr0 s2 Hs _ IH]; intros Hm j; [done|].
  destruct j as [|j]; simpl.
  - destruct Hs; try done. by destruct (Hm r0).
  - apply IH. intros r0 ->. apply step_remaining in Hs.
    destruct s0; try (by destruct (Hm r1)); simpl in Hs; lia. }
inversion 1 as [|s0 e s1 tr0 s2 Hs Htr]; subst; [done|].
assert (∀ r0, s1 ≠ Matched r0) as Hm.
{ intros r0 ->. apply step_remaining in Hs. simpl in Hs. lia. }
destruct i as [|i]; simpl; [|intros Hi; by destruct (Hlater _ _ _ Htr Hm i)].
inversion Hs; subst. intros [= Hcall]. split; [done|].
destruct r as [|[| | | |idParam|idParam|idParam]]; try done;
  [exists Node, idParam|exists Way, idParam|exists Relation, idParam];
  by injection Hcall as <-.
Qed.

Lemma lifecycle_one_call_witness :
  0 = 0
  ∧ ∃ k idParam, GetHistory (GetWay "7") = element_request k idParam
      ∧ history_url "way" "7" = history_url (element_name k) idParam.
Proof.
apply (lifecycle_one_call (GetHistory (GetWay "7"))
         [Call (history_url "way" "7")] (AwaitFetch Way (history_url "way" "7"))
         0 (history_url "way" "7")); [|done].
eapply trace_cons; [apply (step_start (GetHistory (GetWay "7")))|].
apply trace_nil.
Defined.

(** ** A pool of requests *)

Section pool.
Context (R : state → event → state → Prop).

Lemma events_of_cons i j e tr :
  events_of i ((j, e) :: tr)
  = if decide (j = i) then e :: events_of i tr else events_of i tr.
Proof.
unfold events_of. destruct (decide (j = i)) as [->|Hne].
- by rewrite filter_cons_True.
- by rewrite filter_cons_False.
Qed.

(** The steps of a pool are, for each of its requests, steps of that
    request: the events the pool records at its position, in order. *)
Lemma pool_trace_project pool tr pool' i s :
  trace (pool_step R) pool tr pool' → pool !! i = Some s →
  ∃ s', pool' !! i = Some s' ∧ trace R s (events_of i tr) s'.
Proof.
intros Htr. revert s.
induction Htr as [pool|pool ie pool1 tr pool2 Hs _ IH]; intros s Hi.
{ exists s. split; [done|constructor]. }
destruct Hs as [pool j s0 e s1 Hj Hs]. rewrite events_of_cons.
destruct (decide (j = i)) as [->|Hne].
- assert (s0 = s) as -> by congruence.
  destruct (IH s1) as (s' & Hi' & Htr').
  { apply list_lookup_insert_eq. by eapply lookup_lt_Some. }
  exists s'. split; [done|]. by econstructor.
- apply IH. by rewrite list_lookup_insert_ne.
Qed.

Lemma pool_trace_length pool tr pool' :
  trace (pool_step R) pool tr pool' → length pool' = length pool.
Proof.
induction 1 as [|pool ie pool1 tr pool2 Hs _ IH]; [done|].
destruct Hs. by rewrite IH, length_insert.
Qed.

(** A step of the pool uses up one of the steps that remain in it. *)
Lemma pool_step_remaining pool ie pool' :
  (∀ s e s', R s e s' → remaining s' < remaining s) →
  pool_step R pool ie pool' →
  sum_list (remaining <$> pool') < sum_list (remaining <$> pool).
Proof.
intros Hm [pool0 i s e s' Hi Hs%Hm]. clear Hm.
revert i Hi. induction pool0 as [|s0 pool0 IH]; intros [|i] Hi; simplify_eq/=.
- lia.
- specialize (IH i Hi). lia.
Qed.

End pool.

Lemma sum_remaining_Matched rs :
  sum_list (remaining <$> (Matched <$> rs)) = 4 * length rs.
Proof. induction rs as [|r rs IH]; csimpl; [done|]. rewrite IH. lia. Qed.

Lemma step_in_remaining fetch s e s' :
  step_in fetch s e s' → remaining s' < remaining s.
Proof. intros [Hs _]. by eapply step_remaining. Qed.

(** A pool with a request that is not finished has a step. *)
Lemma pool_progress fetch pool :
  Forall (λ s, ∃ outcome, s = Finished outcome) pool
  ∨ ∃ ie pool', pool_step (step_in fetch) pool ie pool'.
Proof.
induction pool as [|s pool [IH|(ie & pool' & Hs)]]; [by left| |].
- destruct (next fetch s) as [[e s']|] eqn:Hn.
  + right. exists (0, e), (<[0:=s']> (s :: pool)).
    by econstructor; [|apply step_next].
  + left. constructor; [|done]. destruct s; try done. by eexists.
- right. destruct Hs as [pool0 i s0 e s' Hi Hs].
  exists (S i, e), (<[S i:=s']> (s :: pool0)). by econstructor.
Qed.




