(* ===== verification/Html.v ===== *)
(** * Well-formed pages ([src/src/templates.ts])

    What a reader of HTML makes of the text of a page: the tags, with
    their quoted attribute values set aside, and the elements they open
    and close.  A page is well formed when each of its tags is one the
    templates write, the elements are closed in the order they were
    opened, and its only script is the one of [baseTemplate].  The
    theorems show that every page of the application is well formed,
    whatever the history holds: no value of a history is read as a tag. *)

From Stdlib Require Import Ascii.
From S2P Require Import Prelude JsString JsNumber JsValue Aggregate Types Api.
From S2P Require Import DiffSpec History Fetch Templates Routes Lifecycle.

(** ** Definitions *)

(** Where the reader is: in the text between tags, in a tag, in a
    quoted attribute value of a tag, or in one that it records. *)
Inductive mode := Text | Tag | Value | Recorded.

#[export] Instance mode_eq_dec : EqDecision mode.
Proof. solve_decision. Defined.

(** What a tag does: it opens an element, closes one, or stands alone. *)
Inductive action :=
  | Open (name : string)
  | Close (name : string)
  | Void.

(** The tags the templates write, each without its attribute values. *)
Definition vocabulary : list (string * action) :=
  [("!DOCTYPE html", Void); ("html lang=", Open "html"); ("/html", Close "html");
   ("head", Open "head"); ("/head", Close "head");
   ("title", Open "title"); ("/title", Close "title");
   ("link rel= href=", Void);
   ("script src=", Open "script"); ("/script", Close "script");
   ("body", Open "body"); ("/body", Close "body");
   ("h3", Open "h3"); ("/h3", Close "h3"); ("hr/", Void);
   ("p", Open "p"); ("/p", Close "p");
   ("table", Open "table"); ("/table", Close "table");
   ("thead", Open "thead"); ("/thead", Close "thead");
   ("tbody", Open "tbody"); ("/tbody", Close "tbody");
   ("tr", Open "tr"); ("/tr", Close "tr");
   ("th", Open "th"); ("th id=", Open "th"); ("/th", Close "th");
   ("td", Open "td"); ("td align=", Open "td"); ("td class=", Open "td");
   ("td colspan=", Open "td"); ("td class= colspan=", Open "td");
   ("/td", Close "td");
   ("form action=", Open "form"); ("/form", Close "form");
   ("label for=", Open "label"); ("/label", Close "label");
   ("input type= size= id= name=", Void); ("input type= value=", Void);
   ("img class= src= alt=", Void);
   ("a href=", Open "a"); ("/a", Close "a");
   ("abbr title=", Open "abbr"); ("/abbr", Close "abbr");
   ("strong", Open "strong"); ("/strong", Close "strong");
   ("em", Open "em"); ("/em", Close "em");
   ("code", Open "code"); ("/code", Close "code")].

(** The attributes whose values the reader records, each as the text
    of its tag up to the value: identifiers and form targets. *)
Definition recorded : list string :=
  ["th id="; "input type= size= id="; "form action="].

Fixpoint assoc {A} (key : string) (l : list (string * A)) : option A :=
  match l with
  | [] => None
  | (k, a) :: l' => if String.eqb k key then Some a else assoc key l'
  end.

(** The reader: its mode, the text of the tag it is in, the text of
    the value it records, the elements that are open, innermost first,
    the scripts met so far and the values recorded so far. *)
Record reader := {
  rd_mode : mode;
  rd_tag : string;
  rd_value : string;
  rd_open : list string;
  rd_scripts : nat;
  rd_attrs : list (string * string);
}.

#[export] Instance reader_eq_dec : EqDecision reader.
Proof. solve_decision. Defined.

(** The reader in the text, with the elements [open] open. *)
Definition in_text (open : list string) (scripts : nat)
    (attrs : list (string * string)) : reader :=
  {| rd_mode := Text; rd_tag := ""; rd_value := ""; rd_open := open;
     rd_scripts := scripts; rd_attrs := attrs |}.

(** At the end of a tag: the tag has to be in the vocabulary, and a
    closing tag has to close the innermost open element. *)
Definition read_tag (r : reader) : option reader :=
  match assoc (rd_tag r) vocabulary with
  | Some Void => Some (in_text (rd_open r) (rd_scripts r) (rd_attrs r))
  | Some (Open name) =>
      Some (in_text (name :: rd_open r)
              (if String.eqb name "script" then S (rd_scripts r)
               else rd_scripts r)
              (rd_attrs r))
  | Some (Close name) =>
      match rd_open r with
      | top :: open =>
          if String.eqb top name
          then Some (in_text open (rd_scripts r) (rd_attrs r))
          else None
      | [] => None
      end
  | None => None
  end.

(** One character. *)
Definition read_char (r : reader) (c : ascii) : option reader :=
  let at_mode m :=
    {| rd_mode := m; rd_tag := rd_tag r; rd_value := ""; rd_open := rd_open r;
       rd_scripts := rd_scripts r; rd_attrs := rd_attrs r |} in
  match rd_mode r with
  | Text =>
      if Ascii.eqb c "<"
      then Some {| rd_mode := Tag; rd_tag := ""; rd_value := "";
                   rd_open := rd_open r; rd_scripts := rd_scripts r;
                   rd_attrs := rd_attrs r |}
      else Some r
  | Tag =>
      if Ascii.eqb c ">" then read_tag r
      else if Ascii.eqb c "034"
      then Some (at_mode (if existsb (String.eqb (rd_tag r)) recorded
                          then Recorded else Value))
      else Some {| rd_mode := Tag; rd_tag := rd_tag r +:+ String c "";
                   rd_value := ""; rd_open := rd_open r;
                   rd_scripts := rd_scripts r; rd_attrs := rd_attrs r |}
  | Value => if Ascii.eqb c "034" then Some (at_mode Tag) else Some r
  | Recorded =>
      if Ascii.eqb c "034"
      then Some {| rd_mode := Tag; rd_tag := rd_tag r; rd_value := "";
                   rd_open := rd_open r; rd_scripts := rd_scripts r;
                   rd_attrs := rd_attrs r ++ [(rd_tag r, rd_value r)] |}
      else Some {| rd_mode := Recorded; rd_tag := rd_tag r;
                   rd_value := rd_value r +:+ String c "";
                   rd_open := rd_open r; rd_scripts := rd_scripts r;
                   rd_attrs := rd_attrs r |}
  end.

(** A text, character by character. *)
Fixpoint read_html (r : reader) (s : string) : option reader :=
  match s with
  | "" => Some r
  | String c s' => read_char r c ≫= λ r', read_html r' s'
  end.

(** A page is well formed when its reader ends in the text, with every
    element closed and one script met. *)
Definition well_formed (page : string) : bool :=
  match read_html (in_text [] 0 []) page with
  | Some r =>
      bool_decide (rd_mode r = Text ∧ rd_open r = [] ∧ rd_scripts r = 1)
  | None => false
  end.

(** The values of the attributes [recorded] in a page, in order, each
    with the text of its tag. *)
Definition attributes (page : string) : list (string * string) :=
  match read_html (in_text [] 0 []) page with
  | Some r => rd_attrs r
  | None => []
  end.

(** What the reader has at the end of a well-formed page that records
    the attributes [new]. *)
Definition page_read (page : string) (new : list (string * string)) : Prop :=
  read_html (in_text [] 0 []) page = Some (in_text [] 1 new).

(** A part of a page that records the attributes [new]: read in the
    text, it leaves the reader in the text, with the same elements
    open. *)
Definition records (s : string) (new : list (string * string)) : Prop :=
  ∀ open scripts attrs,
    read_html (in_text open scripts attrs) s
    = Some (in_text open scripts (attrs ++ new)).

(** A part of a page that can stand wherever text can and records
    nothing. *)
Definition fragment (s : string) : Prop :=
  ∀ open scripts attrs,
    read_html (in_text open scripts attrs) s
    = Some (in_text open scripts attrs).

(** The identifier of the column of a version, as the reader records
    it. *)
Definition version_id (v : OSMElement) : string * string :=
  ("th id=", "version-" +:+ num_to_string (el_version v)).

(** Text that does not open a tag, and text that does not end an
    attribute value. *)
Definition text_safe (s : string) : bool := negb (mem_char "<" s).
Definition value_safe (s : string) : bool := negb (mem_char "034" s).

Create HintDb html.

(** ** The reader *)

Lemma read_html_app r s t :
  read_html r (s +:+ t) = read_html r s ≫= λ r', read_html r' t.
Proof.
revert r. induction s as [|c s IH]; intros r; [done|].
rewrite append_cons. cbn [read_html].
destruct (read_char r c) as [r'|]; [apply IH|done].
Qed.

(** Safe text leaves the reader where it is. *)
Lemma read_text r s :
  rd_mode r = Text → text_safe s = true → read_html r s = Some r.
Proof.
unfold text_safe. intros Hr. induction s as [|c s IH]; [done|].
cbn [mem_char read_html]. rewrite negb_orb, andb_true_iff, negb_true_iff.
intros [Hc Hs]. unfold read_char. rewrite Hr, Hc. by apply IH.
Qed.

Lemma read_value r s :
  rd_mode r = Value → value_safe s = true → read_html r s = Some r.
Proof.
unfold value_safe. intros Hr. induction s as [|c s IH]; [done|].
cbn [mem_char read_html]. rewrite negb_orb, andb_true_iff, negb_true_iff.
intros [Hc Hs]. unfold read_char. rewrite Hr, Hc. by apply IH.
Qed.

(** A safe value that is recorded is added to the text of the value. *)
Lemma read_recorded tag value open scripts attrs s :
  value_safe s = true →
  read_html {| rd_mode := Recorded; rd_tag := tag; rd_value := value;
               rd_open := open; rd_scripts := scripts; rd_attrs := attrs |} s
  = Some {| rd_mode := Recorded; rd_tag := tag; rd_value := value +:+ s;
            rd_open := open; rd_scripts := scripts; rd_attrs := attrs |}.
Proof.
unfold value_safe. revert value. induction s as [|c s IH]; intros value.
{ by rewrite append_nil_r. }
cbn [mem_char read_html]. rewrite negb_orb, andb_true_iff, negb_true_iff.
intros [Hc Hs]. unfold read_char. simpl. rewrite Hc. simpl.
rewrite IH by done. by rewrite append_assoc.
Qed.

(** ** Fragments *)

Lemma fragment_records s : fragment s ↔ records s [].
Proof.
unfold fragment, records. by setoid_rewrite app_nil_r.
Qed.

Lemma records_app s t new1 new2 :
  records s new1 → records t new2 → records (s +:+ t) (new1 ++ new2).
Proof.
intros Hs Ht open scripts attrs.
by rewrite read_html_app, Hs; simpl; rewrite Ht, app_assoc.
Qed.

Lemma records_nil : records "" [].
Proof. by intros open scripts attrs; rewrite app_nil_r. Qed.

Lemma records_join_map {A} (f : A → string) (g : A → string * string) l :
  (∀ x, x ∈ l → records (f x) [g x]) → records (join "" (f <$> l)) (g <$> l).
Proof. apply join_map_ind; [apply records_nil|apply records_app]. Qed.

Lemma fragment_nil : fragment "".
Proof. by intros open scripts attrs. Qed.

Lemma fragment_app s t : fragment s → fragment t → fragment (s +:+ t).
Proof.
intros Hs Ht open scripts attrs. by rewrite read_html_app, Hs; simpl; rewrite Ht.
Qed.

Lemma fragment_text s : text_safe s = true → fragment s.
Proof. intros Hs open scripts attrs. by apply read_text. Qed.

Lemma fragment_join l : Forall fragment l → fragment (join "" l).
Proof.
induction 1 as [|s l Hs _ IH]; [apply fragment_nil|].
destruct l as [|t l]; [done|].
change (join "" (s :: t :: l)) with (s +:+ "" +:+ join "" (t :: l)).
rewrite append_nil_l. by apply fragment_app.
Qed.

Lemma fragment_join_map {A} (f : A → string) l :
  (∀ x, x ∈ l → fragment (f x)) → fragment (join "" (f <$> l)).
Proof. intros Hf. apply fragment_join, Forall_fmap, Forall_forall, Hf. Qed.

(** Inert text is safe in the text and in a value. *)
Lemma inert_text_safe s : inert s = true → text_safe s = true.
Proof.
unfold inert, text_safe. rewrite !andb_true_iff. by intros [[[-> _] _] _].
Qed.

Lemma inert_value_safe s : inert s = true → value_safe s = true.
Proof.
unfold inert, value_safe. rewrite !andb_true_iff. by intros [[_ ->] _].
Qed.

Lemma text_safe_escapeHtml s : text_safe (escapeHtml s) = true.
Proof. apply inert_text_safe, escapeHtml_inert. Qed.

Lemma value_safe_escapeHtml s : value_safe (escapeHtml s) = true.
Proof. apply inert_value_safe, escapeHtml_inert. Qed.

Lemma text_safe_num_to_string x : text_safe (num_to_string x) = true.
Proof. apply inert_text_safe, inert_num_to_string. Qed.

Lemma value_safe_num_to_string x : value_safe (num_to_string x) = true.
Proof. apply inert_value_safe, inert_num_to_string. Qed.

Lemma value_safe_encodeURIComponent s :
  value_safe (encodeURIComponent s) = true.
Proof. unfold value_safe. by rewrite mem_char_encodeURIComponent. Qed.

(** The hints match the value by its head, so that no template is
    unfolded in the search. *)
#[export] Hint Extern 1 (text_safe (escapeHtml _) = true) =>
  apply text_safe_escapeHtml : html.
#[export] Hint Extern 1 (value_safe (escapeHtml _) = true) =>
  apply value_safe_escapeHtml : html.
#[export] Hint Extern 1 (text_safe (num_to_string _) = true) =>
  apply text_safe_num_to_string : html.
#[export] Hint Extern 1 (value_safe (num_to_string _) = true) =>
  apply value_safe_num_to_string : html.
#[export] Hint Extern 1 (value_safe (encodeURIComponent _) = true) =>
  apply value_safe_encodeURIComponent : html.

(** ** Reading a template piece by piece *)

Lemma records_read s new open scripts attrs :
  records s new →
  read_html {| rd_mode := Text; rd_tag := ""; rd_value := ""; rd_open := open;
               rd_scripts := scripts; rd_attrs := attrs |} s
  = Some {| rd_mode := Text; rd_tag := ""; rd_value := ""; rd_open := open;
            rd_scripts := scripts; rd_attrs := attrs ++ new |}.
Proof. intros Hs. apply Hs. Qed.

Lemma fragment_read s open scripts attrs :
  fragment s →
  read_html {| rd_mode := Text; rd_tag := ""; rd_value := ""; rd_open := open;
               rd_scripts := scripts; rd_attrs := attrs |} s
  = Some {| rd_mode := Text; rd_tag := ""; rd_value := ""; rd_open := open;
            rd_scripts := scripts; rd_attrs := attrs |}.
Proof. intros Hs. apply Hs. Qed.

(** Reading a text piece by piece. *)
Lemma read_html_step r s t r' R :
  read_html r s = Some r' → read_html r' t = R → read_html r (s +:+ t) = R.
Proof. intros Hs Ht. by rewrite read_html_app, Hs. Qed.

(** The piece is a literal or a constant: it is read by computation,
    from a reader whose fields may hold values of the history. *)
Ltac is_literal s :=
  lazymatch s with
  | EmptyString => idtac
  | String _ ?s' => is_literal s'
  | _ => is_const s
  end.

(** The elements that are open below those the text of the goal has
    opened itself. *)
Ltac stack_tail o :=
  lazymatch o with
  | _ :: ?o' => stack_tail o'
  | _ => o
  end.

Ltac read_literal :=
  idtac;
  lazymatch goal with
  | |- read_html (Build_reader ?m ?t ?v ?o ?n ?a) ?s = _ =>
      is_literal s;
      let tl := stack_tail o in
      let o_tl := eval pattern tl in o in
      lazymatch o_tl with
      | ?F tl =>
          let g := eval vm_compute in
            (λ v' tl' n' a', read_html (Build_reader m t v' (F tl') n' a') s) in
          let H := fresh in
          assert (∀ v' tl' n' a',
                    read_html (Build_reader m t v' (F tl') n' a') s
                    = g v' tl' n' a')
            as H by (intros; vm_compute; reflexivity);
          exact (H v tl n a)
      end
  end.

(** The piece is a value of the history, safe where it stands, or a
    fragment. *)
Ltac read_data :=
  idtac;
  lazymatch goal with
  | |- read_html (Build_reader Value _ _ _ _ _) _ = _ =>
      apply read_value; [reflexivity|auto with html nocore]
  | |- read_html (Build_reader Recorded _ _ _ _ _) _ = _ =>
      apply read_recorded; auto with html nocore
  | |- read_html (Build_reader Text _ _ ?o ?n ?a) ?s = _ =>
      first
        [ lazymatch goal with
          | H : fragment s |- _ => exact (fragment_read s o n a H)
          | H : records s ?new |- _ => exact (records_read s new o n a H)
          end
        | apply read_text; [reflexivity|auto with html nocore] ]
  end.

Ltac read_piece :=
  idtac;
  lazymatch goal with
  | |- read_html ?r (?s +:+ ?t) = ?R =>
      eapply (read_html_step r s t); [first [read_literal | read_data]|]
  end.

Ltac read_all :=
  intros ? ? ?; unfold in_text; repeat read_piece;
  first [read_literal | read_data].

(** ** The cells *)

Lemma fragment_truncate v : plain_value v = true → fragment (truncate v).
Proof.
intros Hv.
assert ((∃ s, v = VStr s) ∨ ∀ s, v ≠ VStr s) as [[s ->]|Hs]
  by (destruct v; eauto; by right).
- unfold truncate.
  destruct (_ <? _)%nat; [|apply fragment_text, text_safe_escapeHtml].
  read_all.
- apply fragment_text, inert_text_safe.
  destruct v as [| |b|x|s|o]; try done; try (by destruct (Hs s));
    by apply inert_to_string.
Qed.

Lemma label_value_safe label : label ∈ labels → value_safe label = true.
Proof.
unfold labels. intros Hin.
by repeat (apply elem_of_cons in Hin as [->|Hin]; [done|]);
  apply elem_of_nil in Hin.
Qed.

Lemma cell_ok_safe cell :
  cell_ok cell = true →
  value_safe (clz cell) = true ∧ fragment (truncate (val cell)).
Proof.
intros [Hclz%bool_decide_eq_true Hval]%andb_true_iff.
split; [by apply label_value_safe|by apply fragment_truncate].
Qed.

Lemma fragment_renderCell cell : cell_ok cell = true → fragment (renderCell cell).
Proof.
intros [Hclz Hval]%cell_ok_safe. unfold renderCell.
destruct (to_boolean _); read_all.
Qed.

(** The cells of a line of the goal are a fragment, when the cells are
    ok. *)
Ltac read_cells Hcells :=
  match goal with
  | |- context [join "" (?f <$> ?cells)] =>
      assert (fragment (join "" (f <$> cells)))
        by (apply fragment_join_map; intros cell Hcell;
            destruct (cell_ok_safe cell
                        (proj1 (Forall_forall _ _) Hcells cell Hcell))
              as [Hclz Hval];
            read_all)
  end.

(** ** The header and the lines *)

Lemma records_renderTableHeader versions header :
  renderTableHeader versions = Return header →
  records header (version_id <$> versions).
Proof.
unfold renderTableHeader. destruct (last_version versions) as [lastVersion|];
  [|done].
intros [= <-].
assert (records (join "" ((λ v, "<th id=" +:+ q +:+ "version-"
          +:+ num_to_string (el_version v) +:+ q +:+ "><a href=" +:+ q
          +:+ "#version-" +:+ num_to_string (el_version v) +:+ q +:+ ">"
          +:+ num_to_string (el_version v) +:+ "</a></th>") <$> versions))
          (version_id <$> versions))
  as Hids by (apply records_join_map; intros v _; unfold version_id; read_all).
assert (fragment (join "" ((λ v, "<th>" +:+ escapeHtml (el_timestamp v)
          +:+ "</th>") <$> versions)))
  as Htimes by (apply fragment_join_map; intros v _; read_all).
read_all.
Qed.

Lemma lines_ok_lookup {K} (lines : list (K * list CellInfo)) k cells :
  lines_ok lines → (k, cells) ∈ lines →
  Forall (λ cell, cell_ok cell = true) cells.
Proof. intros Hlines Hin. apply (proj1 (Forall_forall _ _) Hlines _ Hin). Qed.

Lemma fragment_renderPropLines versions propLines :
  lines_ok propLines → fragment (renderPropLines versions propLines).
Proof.
intros Hlines. apply fragment_join_map. intros [name cells] Hin.
assert (fragment (join "" (renderCell <$> cells))) as Hcells.
{ apply fragment_join_map. intros cell Hcell. apply fragment_renderCell.
  by apply (proj1 (Forall_forall _ _) (lines_ok_lookup _ _ _ Hlines Hin)). }
read_all.
Qed.

Lemma fragment_renderTagLines versions tagLines :
  lines_ok tagLines → fragment (renderTagLines versions tagLines).
Proof.
intros Hlines. unfold renderTagLines, colspan.
case_bool_decide; [read_all|].
apply fragment_join_map. intros [name cells] Hin.
read_cells (lines_ok_lookup _ _ _ Hlines Hin). read_all.
Qed.

Lemma fragment_nodesContent versions nodeLines :
  lines_ok nodeLines → fragment (nodesContent versions nodeLines).
Proof.
intros Hlines. unfold nodesContent, colspan.
case_bool_decide; [read_all|].
apply fragment_join_map. intros [nodeName cells] Hin.
read_cells (lines_ok_lookup _ _ _ Hlines Hin). read_all.
Qed.

Lemma fragment_getTypeIcon type : fragment (getTypeIcon type).
Proof. unfold getTypeIcon. repeat case_bool_decide; read_all. Qed.

Lemma fragment_membersContent versions memberLines :
  lines_ok memberLines → fragment (membersContent versions memberLines).
Proof.
intros Hlines. unfold membersContent, colspan.
case_bool_decide; [read_all|].
apply fragment_join_map. intros [member cells] Hin.
read_cells (lines_ok_lookup _ _ _ Hlines Hin).
pose proof (fragment_getTypeIcon (m_type member)) as Hicon. read_all.
Qed.

(** ** The pages *)

Lemma page_read_well_formed page new :
  page_read page new → well_formed page = true ∧ attributes page = new.
Proof. unfold page_read, well_formed, attributes. by intros ->. Qed.

(** A part that stands in the text, inside [baseTemplate], is a
    well-formed page. *)
Lemma page_read_baseTemplate content new :
  records content new → page_read (baseTemplate content) new.
Proof.
intros Hcontent. unfold page_read, baseTemplate, in_text.
repeat read_piece. read_literal.
Qed.

Lemma page_read_renderNode versions propLines tagLines html :
  lines_ok propLines → lines_ok tagLines →
  renderNode versions propLines tagLines = Return html →
  page_read html (version_id <$> versions).
Proof.
intros Hprops%(fragment_renderPropLines versions)
  Htags%(fragment_renderTagLines versions).
unfold renderNode. destruct (first_id versions) as [id|]; [simpl|done].
destruct (renderTableHeader versions) as [header|] eqn:Hheader; [simpl|done].
apply records_renderTableHeader in Hheader. intros [= <-].
apply page_read_baseTemplate. unfold colspan. read_all.
Qed.

Lemma page_read_renderWay versions propLines tagLines nodeLines html :
  lines_ok propLines → lines_ok tagLines → lines_ok nodeLines →
  renderWay versions propLines tagLines nodeLines = Return html →
  page_read html (version_id <$> versions).
Proof.
intros Hprops%(fragment_renderPropLines versions)
  Htags%(fragment_renderTagLines versions)
  Hnodes%(fragment_nodesContent versions).
unfold renderWay. destruct (first_id versions) as [id|]; [simpl|done].
destruct (renderTableHeader versions) as [header|] eqn:Hheader; [simpl|done].
apply records_renderTableHeader in Hheader. intros [= <-].
apply page_read_baseTemplate. unfold colspan. read_all.
Qed.

Lemma page_read_renderRelation versions propLines tagLines memberLines html :
  lines_ok propLines → lines_ok tagLines → lines_ok memberLines →
  renderRelation versions propLines tagLines memberLines = Return html →
  page_read html (version_id <$> versions).
Proof.
intros Hprops%(fragment_renderPropLines versions)
  Htags%(fragment_renderTagLines versions)
  Hmembers%(fragment_membersContent versions).
unfold renderRelation. destruct (first_id versions) as [id|]; [simpl|done].
destruct (renderTableHeader versions) as [header|] eqn:Hheader; [simpl|done].
apply records_renderTableHeader in Hheader. intros [= <-].
apply page_read_baseTemplate. unfold colspan. read_all.
Qed.

Lemma well_formed_renderMissingElement url status :
  well_formed (renderMissingElement url status) = true.
Proof.
apply (page_read_well_formed _ []), page_read_baseTemplate, fragment_records.
unfold renderMissingElement. read_all.
Qed.

Lemma well_formed_renderIndex : well_formed renderIndex = true.
Proof. by vm_compute. Qed.

(** The page of a handler is well formed, and the identifiers of its
    elements are those of the columns of the versions. *)
Lemma element_page_read k versions html :
  element_page k versions = Return html →
  page_read html (version_id <$> versions).
Proof.
destruct (handlers_cells_ok versions)
  as ((Hnp & Hnt) & (Hwp & Hwt & Hwn) & (Hrp & Hrt & Hrm)).
destruct k; unfold element_page, node_page, way_page, relation_page.
- by apply page_read_renderNode.
- by apply page_read_renderWay.
- by apply page_read_renderRelation.
Qed.

Lemma element_page_well_formed k versions html :
  element_page k versions = Return html → well_formed html = true.
Proof. intros Hpage%element_page_read. by apply (page_read_well_formed _ _ Hpage). Qed.

Lemma element_route_well_formed fetch k idParam body :
  app fetch (element_request k idParam) = Return (Html body) →
  well_formed body = true.
Proof.
intros [(versions & html & Hpage & [= ->])|(url & status & [= ->])]
  %app_element_Return.
- by eapply element_page_well_formed.
- apply well_formed_renderMissingElement.
Qed.

(** C14: the page a handler renders for a history is well formed,
    whatever the history holds: every tag of the page is a tag of the
    templates, the elements are closed in the order they were opened and
    the only script is the one of the template.  No user name, tag name,
    tag value, role or timestamp is read as markup, and the identifiers
    of the page are those of the columns of the versions, in order.  The
    handlers render no page only for a history without versions. *)
Theorem pages_well_formed k versions :
  match element_page k versions with
  | Return html =>
      well_formed html = true ∧ attributes html = version_id <$> versions
  | Throw _ => versions = []
  end.
Proof.
destruct (element_page k versions) as [html|err] eqn:Hpage.
- by eapply page_read_well_formed, element_page_read.
- destruct versions as [|v versions]; [done|].
  destruct (pages_Return v versions) as ([? Hn] & [? Hw] & [? Hr]).
  destruct k; simpl in Hpage; congruence.
Qed.

(** C13: every page the application answers with is well formed: the
    index, the page of a history, and the page for a missing element,
    which shows the URL that was requested. *)
Theorem app_well_formed fetch r body :
  app fetch r = Return (Html body) → well_formed body = true.
Proof.
destruct r as [|[|id|id|id|idParam|idParam|idParam]].
- done.
- intros [= <-]. apply well_formed_renderIndex.
- unfold app, historyRoutes, node_php. by destruct (to_boolean _).
- unfold app, historyRoutes, way_php. by destruct (to_boolean _).
- unfold app, historyRoutes, relation_php. by destruct (to_boolean _).
- apply (element_route_well_formed fetch Node).
- apply (element_route_well_formed fetch Way).
- apply (element_route_well_formed fetch Relation).
Qed.

Lemma app_well_formed_witness :
  well_formed
    (renderMissingElement
       "https://api.openstreetmap.org/api/0.6/node/42/history.json" 404)
  = true.
Proof.
apply (app_well_formed (always {| status := 404; body := InvalidJson |})
         (GetHistory (GetNode "42"))).
by vm_compute.
Defined.

(** The reader refuses a page with a script of its own, a tag that is
    not closed, a tag the templates do not write, and a value that ends
    its attribute. *)
Example well_formed_refuses :
  well_formed
    (baseTemplate ("<script src=" +:+ q +:+ "x" +:+ q +:+ "></script>"))
  = false
  ∧ well_formed (baseTemplate "<td>") = false
  ∧ well_formed (baseTemplate "<iframe>") = false
  ∧ well_formed
      (baseTemplate ("<a href=" +:+ q +:+ q +:+ " onclick=" +:+ q +:+ q
                     +:+ "></a>")) = false
  ∧ well_formed (baseTemplate "a < b") = false
  ∧ well_formed (baseTemplate "a &lt; b") = true.
Proof. by vm_compute. Qed.

(** The index page: its forms and the identifiers of its fields. *)
Example attributes_renderIndex :
  attributes renderIndex
  = [("form action=", "node.php"); ("input type= size= id=", "node");
     ("form action=", "way.php"); ("input type= size= id=", "way");
     ("form action=", "relation.php"); ("input type= size= id=", "relation")].
Proof. by vm_compute. Qed.
