(* ===== verification/Table.v ===== *)
(** * The table of a page ([src/src/templates.ts])

    What a browser lays out from the text of a page: the rows of its
    tables, each as the classes of its cells, a cell that spans several
    columns counted once for each.  The theorems show that the table of
    the page of a history is the matrix the handler computed, row by
    row, under the two rows of the header, and that it is rectangular:
    every row has one column for the names and one for each version. *)

From Stdlib Require Import Ascii.
From S2P Require Import Prelude JsString JsNumber JsValue Aggregate Types Api.
From S2P Require Import DiffSpec History Fetch Templates Routes Lifecycle Html.

(** ** Definitions *)

(** Where the scanner is: outside a tag; in the name of a tag; in a tag,
    between its attribute values; in an attribute value; in the value of
    the [class] or of the [colspan] of a cell.  [cell] says that the tag
    is a [td] or a [th]. *)
Inductive place :=
  | Outside
  | TagName
  | AttrName (cell : bool)
  | AttrValue (cell : bool)
  | ClassValue
  | SpanValue.

#[export] Instance place_eq_dec : EqDecision place.
Proof. solve_decision. Defined.

(** The scanner: where it is, the text of the name or of the value it
    reads, the class and the span of the tag it is in, the classes of
    the cells of the row so far, and the rows so far. *)
Record scanner := {
  sc_at : place;
  sc_text : string;
  sc_class : string;
  sc_span : nat;
  sc_row : list string;
  sc_rows : list (list string);
}.

#[export] Instance scanner_eq_dec : EqDecision scanner.
Proof. solve_decision. Defined.

(** The scanner outside a tag. *)
Definition outside (row : list string) (rows : list (list string)) : scanner :=
  {| sc_at := Outside; sc_text := ""; sc_class := ""; sc_span := 1;
     sc_row := row; sc_rows := rows |}.

(** The columns a cell spans: the value of its [colspan] read as a
    number; 1 when it is no number or not positive, and at most 1000. *)
Definition span_of (value : string) : nat :=
  match parseInt value with
  | Int z => if (z <=? 0)%Z then 1 else Z.to_nat (Z.min z 1000)
  | NaN => 1
  end.

Definition is_cell (name : string) : bool :=
  String.eqb name "td" || String.eqb name "th".

(** The scanner, for a reading [span] of the value of a [colspan]. *)
Section scanner.
Context (span : string → nat).

(** At the end of the name of a tag: [tr] starts a row and [/tr] ends
    it. *)
Definition end_name (sc : scanner) : scanner :=
  let name := sc_text sc in
  {| sc_at := AttrName (is_cell name); sc_text := ""; sc_class := "";
     sc_span := 1;
     sc_row := if String.eqb name "tr" || String.eqb name "/tr" then []
               else sc_row sc;
     sc_rows := if String.eqb name "/tr" then sc_rows sc ++ [sc_row sc]
                else sc_rows sc |}.

(** At the end of a tag: a cell adds its class to the row, once for
    every column it spans. *)
Definition end_tag (cell : bool) (sc : scanner) : scanner :=
  outside (if cell then sc_row sc ++ replicate (sc_span sc) (sc_class sc)
           else sc_row sc)
    (sc_rows sc).

Definition with_text (sc : scanner) (at_ : place) (text : string) : scanner :=
  {| sc_at := at_; sc_text := text; sc_class := sc_class sc;
     sc_span := sc_span sc; sc_row := sc_row sc; sc_rows := sc_rows sc |}.

(** One character. *)
Definition scan_char (sc : scanner) (c : ascii) : scanner :=
  match sc_at sc with
  | Outside => if Ascii.eqb c "<" then with_text sc TagName "" else sc
  | TagName =>
      if Ascii.eqb c ">" then end_tag (is_cell (sc_text sc)) (end_name sc)
      else if Ascii.eqb c " " then end_name sc
      else with_text sc TagName (sc_text sc +:+ String c "")
  | AttrName cell =>
      if Ascii.eqb c ">" then end_tag cell sc
      else if Ascii.eqb c " " then with_text sc (AttrName cell) ""
      else if Ascii.eqb c "034" then
        with_text sc
          (if cell && String.eqb (sc_text sc) "class=" then ClassValue
           else if cell && String.eqb (sc_text sc) "colspan=" then SpanValue
           else AttrValue cell) ""
      else with_text sc (AttrName cell) (sc_text sc +:+ String c "")
  | AttrValue cell =>
      if Ascii.eqb c "034" then with_text sc (AttrName cell) "" else sc
  | ClassValue =>
      if Ascii.eqb c "034" then
        {| sc_at := AttrName true; sc_text := ""; sc_class := sc_text sc;
           sc_span := sc_span sc; sc_row := sc_row sc; sc_rows := sc_rows sc |}
      else with_text sc ClassValue (sc_text sc +:+ String c "")
  | SpanValue =>
      if Ascii.eqb c "034" then
        {| sc_at := AttrName true; sc_text := ""; sc_class := sc_class sc;
           sc_span := span (sc_text sc); sc_row := sc_row sc;
           sc_rows := sc_rows sc |}
      else with_text sc SpanValue (sc_text sc +:+ String c "")
  end.

(** A text, character by character. *)
Fixpoint scan_with (sc : scanner) (s : string) : scanner :=
  match s with
  | "" => sc
  | String c s' => scan_with (scan_char sc c) s'
  end.

End scanner.

(** The scanner of a browser. *)
Abbreviation scan := (scan_with span_of).

(** The table of a page: its rows, each as the classes of its cells. *)
Definition table (page : string) : list (list string) :=
  sc_rows (scan (outside [] []) page).

(** A part of a row that adds the cells [new]. *)
Definition inline (s : string) (new : list string) : Prop :=
  ∀ row rows, scan (outside row rows) s = outside (row ++ new) rows.

(** A part of a table between two rows that adds the rows [new]. *)
Definition block (s : string) (new : list (list string)) : Prop :=
  ∀ rows, scan (outside [] rows) s = outside [] (rows ++ new).

(** The row of a line: the cell of its name, then the classes of its
    cells. *)
Definition line_row {K} (line : K * list CellInfo) : list string :=
  "" :: (clz <$> line.2).

(** The rows of the lines of a section, or the one row that says that
    there is none, which spans [w] columns. *)
Definition lines_rows {K} (w : nat) (lines : list (K * list CellInfo))
  : list (list string) :=
  if bool_decide (length lines = 0) then [replicate w ""]
  else line_row <$> lines.

(** The rows of a section: its banner, which spans [w] columns, and its
    lines. *)
Definition section_rows {K} (w : nat) (lines : list (K * list CellInfo))
  : list (list string) :=
  replicate w "header" :: lines_rows w lines.

(** The columns of the table of a history: one for the names and one
    for each version. *)
Definition columns (versions : list OSMElement) : nat := S (length versions).

(** The table of the page of a history whose banners span [w] columns:
    the two rows of the header, the properties, the tags and, for a way
    and a relation, the nodes and the members. *)
Definition element_table (w : nat) (k : element)
    (versions : list OSMElement) : list (list string) :=
  [replicate (columns versions) ""; replicate (columns versions) ""]
  ++ match k with
     | Node =>
         replicate w "header" :: (line_row <$> node_propLines versions)
         ++ section_rows w (node_tagLines versions)
     | Way =>
         replicate w "header" :: (line_row <$> way_propLines versions)
         ++ section_rows w (way_tagLines versions)
         ++ section_rows w (nodeLines versions)
     | Relation =>
         replicate w "header" :: (line_row <$> relation_propLines versions)
         ++ section_rows w (relation_tagLines versions)
         ++ section_rows w (memberLines versions)
     end.

(** The page of a history, or the empty text when the handler throws. *)
Definition page_of (k : element) (versions : list OSMElement) : string :=
  match element_page k versions with
  | Return html => html
  | Throw _ => ""
  end.

(** ** The scanner *)

Lemma scan_app sc s t : scan sc (s +:+ t) = scan (scan sc s) t.
Proof.
revert sc. induction s as [|c s IH]; intros sc; [done|].
rewrite append_cons. apply IH.
Qed.

(** Text that opens no tag leaves the scanner where it is. *)
Lemma scan_text sc s :
  sc_at sc = Outside → text_safe s = true → scan sc s = sc.
Proof.
unfold text_safe. intros Hsc. induction s as [|c s IH]; [done|].
cbn [mem_char scan_with]. rewrite negb_orb, andb_true_iff, negb_true_iff.
intros [Hc Hs]. unfold scan_char. rewrite Hsc, Hc. by apply IH.
Qed.

Lemma scan_value cell sc s :
  sc_at sc = AttrValue cell → value_safe s = true → scan sc s = sc.
Proof.
unfold value_safe. intros Hsc. induction s as [|c s IH]; [done|].
cbn [mem_char scan_with]. rewrite negb_orb, andb_true_iff, negb_true_iff.
intros [Hc Hs]. unfold scan_char. rewrite Hsc, Hc. by apply IH.
Qed.

(** A class and a span are added to the text of the value. *)
Lemma scan_buffer at_ text class span row rows s :
  at_ = ClassValue ∨ at_ = SpanValue →
  value_safe s = true →
  scan {| sc_at := at_; sc_text := text; sc_class := class;
          sc_span := span; sc_row := row; sc_rows := rows |} s
  = {| sc_at := at_; sc_text := text +:+ s; sc_class := class;
       sc_span := span; sc_row := row; sc_rows := rows |}.
Proof.
unfold value_safe. intros Hat. revert text.
induction s as [|c s IH]; intros text.
{ by rewrite append_nil_r. }
cbn [mem_char scan_with]. rewrite negb_orb, andb_true_iff, negb_true_iff.
intros [Hc Hs]. unfold scan_char, with_text.
destruct Hat as [-> | ->]; simpl; rewrite Hc, IH by done;
  by rewrite append_assoc.
Qed.

(** ** Parts of a row and of a table *)

Lemma inline_nil : inline "" [].
Proof. intros row rows. simpl. by rewrite app_nil_r. Qed.

Lemma inline_app s t new1 new2 :
  inline s new1 → inline t new2 → inline (s +:+ t) (new1 ++ new2).
Proof. intros Hs Ht row rows. by rewrite scan_app, Hs, Ht, app_assoc. Qed.

Lemma inline_text s : text_safe s = true → inline s [].
Proof. intros Hs row rows. rewrite app_nil_r. by apply scan_text. Qed.

Lemma inline_join_map {A} (f : A → string) (g : A → string) l :
  (∀ x, x ∈ l → inline (f x) [g x]) → inline (join "" (f <$> l)) (g <$> l).
Proof. apply join_map_ind; [apply inline_nil|apply inline_app]. Qed.

Lemma block_nil : block "" [].
Proof. intros rows. simpl. by rewrite app_nil_r. Qed.

Lemma block_app s t new1 new2 :
  block s new1 → block t new2 → block (s +:+ t) (new1 ++ new2).
Proof. intros Hs Ht rows. by rewrite scan_app, Hs, Ht, app_assoc. Qed.

Lemma block_join_map {A} (f : A → string) (g : A → list string) l :
  (∀ x, x ∈ l → block (f x) [g x]) → block (join "" (f <$> l)) (g <$> l).
Proof. apply join_map_ind; [apply block_nil|apply block_app]. Qed.

(** ** Scanning a template piece by piece *)

Lemma inline_scan s new row rows :
  inline s new →
  scan {| sc_at := Outside; sc_text := ""; sc_class := ""; sc_span := 1;
          sc_row := row; sc_rows := rows |} s
  = {| sc_at := Outside; sc_text := ""; sc_class := ""; sc_span := 1;
       sc_row := row ++ new; sc_rows := rows |}.
Proof. intros Hs. apply Hs. Qed.

Lemma block_scan s new rows :
  block s new →
  scan {| sc_at := Outside; sc_text := ""; sc_class := ""; sc_span := 1;
          sc_row := []; sc_rows := rows |} s
  = {| sc_at := Outside; sc_text := ""; sc_class := ""; sc_span := 1;
       sc_row := []; sc_rows := rows ++ new |}.
Proof. intros Hs. apply Hs. Qed.

Lemma scan_step sc s t sc' R :
  scan sc s = sc' → scan sc' t = R → scan sc (s +:+ t) = R.
Proof. intros Hs Ht. by rewrite scan_app, Hs. Qed.

(** The piece is a literal or a constant: it is scanned by computation,
    from a scanner whose fields may hold values of the history. *)
Ltac scan_literal :=
  idtac;
  lazymatch goal with
  | |- scan_with ?p (Build_scanner ?m ?t ?c ?n ?r ?rs) ?s = _ =>
      is_literal s;
      let H := fresh in
      first
        [ is_literal t;
          let g := eval vm_compute in
            (λ p' c' n' r' rs',
               scan_with p' (Build_scanner m t c' n' r' rs') s) in
          assert (∀ p' c' n' r' rs',
                    scan_with p' (Build_scanner m t c' n' r' rs') s
                    = g p' c' n' r' rs')
            as H by (intros; vm_compute; reflexivity);
          exact (H p c n r rs)
        | let g := eval vm_compute in
            (λ p' t' c' n' r' rs',
               scan_with p' (Build_scanner m t' c' n' r' rs') s) in
          assert (∀ p' t' c' n' r' rs',
                    scan_with p' (Build_scanner m t' c' n' r' rs') s
                    = g p' t' c' n' r' rs')
            as H by (intros; vm_compute; reflexivity);
          exact (H p t c n r rs) ]
  end.

(** The piece is a value of the history, safe where it stands, or a part
    of a row or of a table. *)
Ltac scan_data :=
  idtac;
  lazymatch goal with
  | |- scan_with _ (Build_scanner (AttrValue ?cell) _ _ _ _ _) _ = _ =>
      apply (scan_value cell); [reflexivity|auto with html nocore]
  | |- scan_with _ (Build_scanner ClassValue _ _ _ _ _) _ = _ =>
      apply scan_buffer; [by left|auto with html nocore]
  | |- scan_with _ (Build_scanner SpanValue _ _ _ _ _) _ = _ =>
      apply scan_buffer; [by right|auto with html nocore]
  | |- scan_with _ (Build_scanner Outside _ _ _ ?r ?rs) ?s = _ =>
      first
        [ lazymatch goal with
          | H : inline s ?new |- _ => exact (inline_scan s new r rs H)
          | H : block s ?new |- _ => exact (block_scan s new rs H)
          end
        | apply scan_text; [reflexivity|auto with html nocore] ]
  end.

Ltac scan_piece :=
  idtac;
  lazymatch goal with
  | |- scan_with _ ?sc (?s +:+ ?t) = ?R =>
      eapply (scan_step sc s t); [first [scan_literal | scan_data]|]
  end.

(** The last piece, and the rows it leaves against those stated. *)
Ltac scan_all :=
  lazymatch goal with
  | |- inline _ _ => intros ? ?
  | |- block _ _ => intros ?
  | _ => idtac
  end;
  unfold outside; repeat scan_piece;
  (eapply eq_trans; [first [scan_literal | scan_data]|]);
  first
    [ reflexivity
    | fold (@List.app (list string)); fold (@List.app string);
      fold (@replicate string);
      by rewrite <- ?(assoc_L (++)), ?app_nil_r ].

(** ** The cells *)

Lemma inline_truncate v : plain_value v = true → inline (truncate v) [].
Proof.
intros Hv.
assert ((∃ s, v = VStr s) ∨ ∀ s, v ≠ VStr s) as [[s ->]|Hs]
  by (destruct v; eauto; by right).
- unfold truncate.
  destruct (_ <? _)%nat; [|apply inline_text, text_safe_escapeHtml].
  scan_all.
- apply inline_text, inert_text_safe.
  destruct v as [| |b|x|s|o]; try done; try (by destruct (Hs s));
    by apply inert_to_string.
Qed.

Lemma inline_renderCell cell :
  cell_ok cell = true → inline (renderCell cell) [clz cell].
Proof.
intros Hcell. destruct (cell_ok_safe cell Hcell) as [Hclz _].
apply andb_true_iff in Hcell as [_ Hval%inline_truncate].
unfold renderCell. destruct (to_boolean _); scan_all.
Qed.

(** The cells of a line of the goal add their classes to the row, when
    the cells are ok. *)
Ltac scan_cells Hcells :=
  match goal with
  | |- context [join "" (?f <$> ?cells)] =>
      assert (inline (join "" (f <$> cells)) (clz <$> cells))
        by (apply inline_join_map; intros cell Hcell;
            pose proof (proj1 (Forall_forall _ _) Hcells cell Hcell) as Hok;
            destruct (cell_ok_safe cell Hok) as [Hclz _];
            apply andb_true_iff in Hok as [_ Hval%inline_truncate];
            scan_all)
  end.

(** ** The header and the lines *)

Lemma block_renderTableHeader versions header :
  renderTableHeader versions = Return header →
  block header
    [replicate (columns versions) ""; replicate (columns versions) ""].
Proof.
unfold renderTableHeader. destruct (last_version versions) as [lastVersion|];
  [|done].
intros [= <-].
assert (inline (join "" ((λ v, "<th id=" +:+ q +:+ "version-"
          +:+ num_to_string (el_version v) +:+ q +:+ "><a href=" +:+ q
          +:+ "#version-" +:+ num_to_string (el_version v) +:+ q +:+ ">"
          +:+ num_to_string (el_version v) +:+ "</a></th>") <$> versions))
          ((λ _, "") <$> versions))
  as Hids by (apply inline_join_map; intros v _; scan_all).
assert (inline (join "" ((λ v, "<th>" +:+ escapeHtml (el_timestamp v)
          +:+ "</th>") <$> versions)) ((λ _, "") <$> versions))
  as Htimes by (apply inline_join_map; intros v _; scan_all).
assert (replicate (columns versions) "" = "" :: ((λ _, "") <$> versions))
  as -> by (unfold columns; simpl; by rewrite (const_fmap _ versions "")).
scan_all.
Qed.

Lemma block_renderPropLines versions propLines :
  lines_ok propLines →
  block (renderPropLines versions propLines) (line_row <$> propLines).
Proof.
intros Hlines. apply block_join_map. intros [name cells] Hin.
assert (inline (join "" (renderCell <$> cells)) (clz <$> cells)) as Hcells.
{ apply inline_join_map. intros cell Hcell. apply inline_renderCell.
  by apply (proj1 (Forall_forall _ _) (lines_ok_lookup _ _ _ Hlines Hin)). }
scan_all.
Qed.

Lemma block_lines_rows {K} w (lines : list (K * list CellInfo)) s :
  length lines ≠ 0 →
  block s (line_row <$> lines) → block s (lines_rows w lines).
Proof. intros Hlines. unfold lines_rows. by rewrite bool_decide_eq_false_2. Qed.

Lemma lines_rows_empty {K} w (lines : list (K * list CellInfo)) :
  length lines = 0 → lines_rows w lines = [replicate w ""].
Proof. intros Hlines. unfold lines_rows. by rewrite bool_decide_eq_true_2. Qed.

(** ** The span of the banners *)

(** The [colspan] the templates write is read back as the number of the
    columns, up to the thousand columns a cell can span. *)
Lemma span_of_colspan versions :
  (Z.of_nat (length versions) + 1 < 10 ^ 21)%Z →
  span_of (colspan versions) = columns versions `min` 1000.
Proof.
intros Hlen. unfold span_of, colspan, columns.
rewrite num_to_string_integer, parseInt_pretty by lia.
destruct (Z.leb_spec (Z.of_nat (length versions) + 1) 0); lia.
Qed.

Lemma value_safe_colspan versions : value_safe (colspan versions) = true.
Proof. apply value_safe_num_to_string. Qed.

#[export] Hint Extern 1 (value_safe (colspan _) = true) =>
  apply value_safe_colspan : html.

(** ** The sections *)

Section sections.
Context (versions : list OSMElement) (w : nat).
Context (Hspan : span_of (colspan versions) = w).

Lemma replicate_span (class : string) :
  replicate w class = replicate (span_of (colspan versions)) class.
Proof. by rewrite Hspan. Qed.

Lemma block_renderTagLines tagLines :
  lines_ok tagLines →
  block (renderTagLines versions tagLines)
    (lines_rows w tagLines).
Proof.
intros Hlines. unfold renderTagLines. case_bool_decide as Hlen.
{ rewrite (lines_rows_empty _ _ Hlen), (replicate_span ""). scan_all. }
apply (block_lines_rows _ _ _ Hlen), block_join_map.
intros [name cells] Hin.
scan_cells (lines_ok_lookup _ _ _ Hlines Hin). scan_all.
Qed.

Lemma block_nodesContent nodeLines :
  lines_ok nodeLines →
  block (nodesContent versions nodeLines)
    (lines_rows w nodeLines).
Proof.
intros Hlines. unfold nodesContent. case_bool_decide as Hlen.
{ rewrite (lines_rows_empty _ _ Hlen), (replicate_span ""). scan_all. }
apply (block_lines_rows _ _ _ Hlen), block_join_map.
intros [nodeName cells] Hin.
scan_cells (lines_ok_lookup _ _ _ Hlines Hin). scan_all.
Qed.

Lemma block_membersContent memberLines :
  lines_ok memberLines →
  block (membersContent versions memberLines)
    (lines_rows w memberLines).
Proof.
intros Hlines. unfold membersContent. case_bool_decide as Hlen.
{ rewrite (lines_rows_empty _ _ Hlen), (replicate_span ""). scan_all. }
apply (block_lines_rows _ _ _ Hlen), block_join_map.
intros [member cells] Hin.
scan_cells (lines_ok_lookup _ _ _ Hlines Hin).
assert (inline (getTypeIcon (m_type member)) []) as Hicon
  by (unfold getTypeIcon; repeat case_bool_decide; scan_all).
scan_all.
Qed.

End sections.

(** ** The pages *)

(** The rows of a part that stands in [baseTemplate] are the table of
    the page. *)
Lemma table_baseTemplate content new :
  block content new → table (baseTemplate content) = new.
Proof.
intros Hcontent. unfold table.
enough (scan (outside [] []) (baseTemplate content) = outside [] ([] ++ new))
  as -> by done.
unfold baseTemplate. scan_all.
Qed.

Section pages.
Context (versions : list OSMElement) (w : nat).
Context (Hspan : span_of (colspan versions) = w).

(** The templates of the three pages, up to the rows of their
    sections. *)
Ltac scan_page Hheader :=
  apply block_renderTableHeader in Hheader; intros [= <-];
  apply table_baseTemplate; unfold section_rows;
  rewrite (replicate_span versions w Hspan "header"); scan_all.

Lemma table_renderNode propLines tagLines html :
  lines_ok propLines → lines_ok tagLines →
  renderNode versions propLines tagLines = Return html →
  table html
  = [replicate (columns versions) ""; replicate (columns versions) ""]
    ++ replicate w "header" :: (line_row <$> propLines)
    ++ section_rows w tagLines.
Proof.
intros Hprops%(block_renderPropLines versions)
  Htags%(block_renderTagLines versions w Hspan).
unfold renderNode. destruct (first_id versions) as [id|]; [simpl|done].
destruct (renderTableHeader versions) as [header|] eqn:Hheader; [simpl|done].
scan_page Hheader.
Qed.

Lemma table_renderWay propLines tagLines nodeLines html :
  lines_ok propLines → lines_ok tagLines → lines_ok nodeLines →
  renderWay versions propLines tagLines nodeLines = Return html →
  table html
  = [replicate (columns versions) ""; replicate (columns versions) ""]
    ++ replicate w "header" :: (line_row <$> propLines)
    ++ section_rows w tagLines ++ section_rows w nodeLines.
Proof.
intros Hprops%(block_renderPropLines versions)
  Htags%(block_renderTagLines versions w Hspan)
  Hnodes%(block_nodesContent versions w Hspan).
unfold renderWay. destruct (first_id versions) as [id|]; [simpl|done].
destruct (renderTableHeader versions) as [header|] eqn:Hheader; [simpl|done].
scan_page Hheader.
Qed.

Lemma table_renderRelation propLines tagLines memberLines html :
  lines_ok propLines → lines_ok tagLines → lines_ok memberLines →
  renderRelation versions propLines tagLines memberLines = Return html →
  table html
  = [replicate (columns versions) ""; replicate (columns versions) ""]
    ++ replicate w "header" :: (line_row <$> propLines)
    ++ section_rows w tagLines ++ section_rows w memberLines.
Proof.
intros Hprops%(block_renderPropLines versions)
  Htags%(block_renderTagLines versions w Hspan)
  Hmembers%(block_membersContent versions w Hspan).
unfold renderRelation. destruct (first_id versions) as [id|]; [simpl|done].
destruct (renderTableHeader versions) as [header|] eqn:Hheader; [simpl|done].
scan_page Hheader.
Qed.

Lemma table_element_page k html :
  element_page k versions = Return html →
  table html = element_table w k versions.
Proof.
destruct (handlers_cells_ok versions)
  as ((Hnp & Hnt) & (Hwp & Hwt & Hwn) & (Hrp & Hrt & Hrm)).
destruct k; unfold element_page, node_page, way_page, relation_page.
- by apply table_renderNode.
- by apply table_renderWay.
- by apply table_renderRelation.
Qed.

End pages.

(** ** The shape of the table *)

Lemma Forall_line_rows {K} n (lines : list (K * list CellInfo)) :
  lines_wf n lines → Forall (λ row, length row = S n) (line_row <$> lines).
Proof.
intros Hlines. apply Forall_fmap. eapply Forall_impl; [exact Hlines|].
intros line Hline. unfold line_row. simpl. by rewrite length_fmap, Hline.
Qed.

Lemma Forall_section_rows {K} n (lines : list (K * list CellInfo)) :
  lines_wf n lines →
  Forall (λ row, length row = S n) (section_rows (S n) lines).
Proof.
intros Hlines. constructor; [by rewrite length_replicate|].
unfold lines_rows. case_bool_decide; [|by apply Forall_line_rows].
repeat constructor. by rewrite length_replicate.
Qed.

(** The lines of the handlers have one cell for each version. *)
Ltac lines_wf_solve :=
  first [ apply lines_wf_changeRow
        | unfold node_propLines, way_propLines, relation_propLines;
          by auto 10 with js ].

(** With banners as wide as the table, every row has one cell for each
    column. *)
Lemma element_table_rectangular k versions :
  Forall (λ row, length row = columns versions)
    (element_table (columns versions) k versions).
Proof.
unfold element_table, columns.
destruct k;
  repeat first
    [ apply Forall_section_rows; lines_wf_solve
    | apply Forall_line_rows; lines_wf_solve
    | apply Forall_app_2
    | apply Forall_cons_2; [by rewrite length_replicate|]
    | apply Forall_nil_2 ].
Qed.

(** The third row of the table is the banner of the properties. *)
Lemma element_table_banner w k versions :
  element_table w k versions !! 2 = Some (replicate w "header").
Proof. by destruct k. Qed.

(** C12: the table of the page of a history is the matrix of the
    handler: under the two rows of the header, each section has its
    banner and one row for each line, whose cells carry the classes
    [changeRow] gave them, in the order of the versions; a section
    without lines has one row that says so.  A banner spans the columns
    of the table up to the thousand columns a cell can span: the table
    is rectangular, with one column for the names and one for each
    version, exactly when the history has fewer than a thousand
    versions. *)
Theorem page_table k versions html :
  (Z.of_nat (length versions) + 1 < 10 ^ 21)%Z →
  element_page k versions = Return html →
  table html = element_table (columns versions `min` 1000) k versions
  ∧ (Forall (λ row, length row = columns versions) (table html)
     ↔ length versions < 1000).
Proof.
intros Hlen%span_of_colspan Hpage.
rewrite (table_element_page versions _ Hlen k html Hpage).
split; [done|]. unfold columns in *. split.
- intros Hrows.
  pose proof (Forall_lookup_1 _ _ _ _ Hrows (element_table_banner _ k versions))
    as Hbanner.
  cbv beta in Hbanner. rewrite length_replicate in Hbanner. lia.
- intros Hshort. replace (S (length versions) `min` 1000)
    with (columns versions) by (unfold columns; lia).
  apply element_table_rectangular.
Qed.

Lemma page_table_witness :
  table (page_of Way scenario_B)
  = element_table (columns scenario_B `min` 1000) Way scenario_B
  ∧ (Forall (λ row, length row = columns scenario_B)
       (table (page_of Way scenario_B))
     ↔ length scenario_B < 1000).
Proof.
apply (page_table Way scenario_B (page_of Way scenario_B));
  [by vm_compute|by vm_compute].
Defined.

(** The table of the page of a way with two versions: the header, the
    three properties, no tag, and the three nodes, whose positions
    changed. *)
Example table_scenario_B :
  table (page_of Way scenario_B)
  = [[""; ""; ""]; [""; ""; ""];
     ["header"; "header"; "header"];
     [""; "new"; "unchanged"]; [""; "new"; "unchanged"];
     [""; "new"; "changed"];
     ["header"; "header"; "header"]; [""; ""; ""];
     ["header"; "header"; "header"];
     [""; "new"; "changed"]; [""; "new"; "changed"]; [""; "new"; "changed"]].
Proof. by vm_compute. Qed.

(** The table of the index page: three rows of three cells. *)
Example table_renderIndex :
  table renderIndex = [[""; ""; ""]; [""; ""; ""]; [""; ""; ""]].
Proof. by vm_compute. Qed.
