(* ===== verification/Browser.v ===== *)
(** * The browser script ([src/public/history/app.js])

    The script every page loads: when the page is opened with a fragment
    that starts with [#version], it scrolls to the element whose
    identifier is the fragment.  The document is the elements of the page
    that have an identifier, in document order; what the script does is
    the list of its calls of [scrollIntoView].  The theorems give the
    script on every branch and, with the reader of [Html], show that a
    page opened at the fragment of a version scrolls to the column of
    that version. *)

From Stdlib Require Import Ascii.
From S2P Require Import Prelude JsString JsNumber JsValue Aggregate Types Api.
From S2P Require Import DiffSpec History Fetch Templates Routes Lifecycle Html.

(** ** Definitions *)

(** The identifiers of the elements of the document, in document
    order. *)
Definition document : Type := list string.

(** The argument of [scrollIntoView]. *)
Record ScrollIntoViewOptions := {
  behavior : string;
  block : string;
}.

(** A call of [el.scrollIntoView(options)] on the element at position
    [el] of the document. *)
Inductive effect :=
  | ScrollIntoView (el : nat) (options : ScrollIntoViewOptions).

(** [document.getElementById(id)]: the first element with the
    identifier, or [null]. *)
Fixpoint getElementById (doc : document) (id : string) : option nat :=
  match doc with
  | [] => None
  | x :: doc' =>
      if String.eqb x id then Some 0 else S <$> getElementById doc' id
  end.

(** [scrollToId(id)] *)
Definition scrollToId (doc : document) (id : string) : list effect :=
  match getElementById doc id with
  | Some el =>
      [ScrollIntoView el {| behavior := "smooth"; block := "center" |}]
  | None => []
  end.

(** [s.startsWith(prefix)] *)
Definition startsWith (s prefix : string) : bool := String.prefix prefix s.

(** [window.onload], for the document and [window.location.hash]. *)
Definition onload (doc : document) (hash : string) : list effect :=
  if startsWith hash "#version" then scrollToId doc (str_drop 1 hash) else [].

(** The document of a page: the identifiers its reader records. *)
Definition is_id (attr : string * string) : bool :=
  String.eqb attr.1 "th id=" || String.eqb attr.1 "input type= size= id=".

Definition page_document (page : string) : document :=
  snd <$> List.filter is_id (attributes page).

(** The fragment of the column of a version: the target of the links of
    the header. *)
Definition version_hash (version : number) : string :=
  "#version-" +:+ num_to_string version.

(** The URL a relative reference without dots resolves to, against the
    path of the page: the reference replaces what follows the last
    slash. *)
Fixpoint directory (path : string) : string :=
  match path with
  | "" => ""
  | String c path' =>
      if mem_char "/" path' then String c (directory path')
      else if Ascii.eqb c "/" then "/" else ""
  end.

Definition resolve (base reference : string) : string :=
  directory base +:+ reference.

(** The targets of the forms of a page. *)
Definition form_actions (page : string) : list string :=
  snd <$> List.filter (λ attr, String.eqb attr.1 "form action=")
            (attributes page).

(** Where [historyRoutes] is mounted. *)
Definition mount : string := "/history".

(** ** [getElementById] *)

Lemma getElementById_Some doc id el :
  getElementById doc id = Some el ↔
  doc !! el = Some id ∧ ∀ j, j < el → doc !! j ≠ Some id.
Proof.
revert el. induction doc as [|x doc IH]; intros el; simpl.
{ split; [done|by intros [? _]]. }
destruct (String.eqb_spec x id) as [->|Hne].
- split.
  + intros [= <-]. split; [done|]. lia.
  + intros [Hel Hfirst]. destruct el as [|el]; [done|].
    by destruct (Hfirst 0 ltac:(lia)).
- rewrite fmap_Some. setoid_rewrite IH. split.
  + intros (el' & [Hel Hfirst] & ->). split; [done|].
    intros [|j] Hj; simpl; [congruence|]. apply Hfirst. lia.
  + intros [Hel Hfirst]. destruct el as [|el]; simplify_eq/=.
    exists el. repeat split; [done|]. intros j Hj. apply (Hfirst (S j)). lia.
Qed.

Lemma getElementById_None doc id :
  getElementById doc id = None ↔ id ∉ doc.
Proof.
induction doc as [|x doc IH]; simpl.
{ split; [intros _; apply not_elem_of_nil|done]. }
rewrite not_elem_of_cons. destruct (String.eqb_spec x id) as [->|Hne].
- split; [done|by intros [? _]].
- rewrite fmap_None, IH. naive_solver.
Qed.

(** ** The script *)

(** C34: the script on every branch: it scrolls at most once; it
    scrolls, smoothly and to the centre, to the first element whose
    identifier is the fragment without its [#], when the fragment starts
    with [#version] and there is such an element; otherwise it does
    nothing. *)
Theorem onload_spec doc hash :
  (∀ el options,
     onload doc hash = [ScrollIntoView el options] ↔
     startsWith hash "#version" = true
     ∧ options = {| behavior := "smooth"; block := "center" |}
     ∧ doc !! el = Some (str_drop 1 hash)
     ∧ ∀ j, j < el → doc !! j ≠ Some (str_drop 1 hash))
  ∧ (onload doc hash = [] ↔
     startsWith hash "#version" = false ∨ str_drop 1 hash ∉ doc)
  ∧ length (onload doc hash) ≤ 1.
Proof.
unfold onload, scrollToId. destruct (startsWith hash "#version").
2:{ split; [|split; [|simpl; lia]].
    - intros el options. split; [done|by intros [? _]].
    - split; [by left|done]. }
destruct (getElementById doc (str_drop 1 hash)) as [el|] eqn:Hget.
- apply getElementById_Some in Hget as [Hel Hfirst].
  split; [|split; [|simpl; lia]].
  + intros el' options. split; [by intros [= <- <-]|].
    intros (_ & -> & Hel' & Hfirst'). do 2 f_equal.
    destruct (Nat.lt_trichotomy el el') as [Hlt|[->|Hlt]]; [|done|].
    * by destruct (Hfirst' _ Hlt).
    * by destruct (Hfirst _ Hlt).
  + split; [done|]. intros [[=]|Hnot]. destruct Hnot.
    by eapply list_elem_of_lookup_2.
- apply getElementById_None in Hget. split; [|split; [|simpl; lia]].
  + intros el options. split; [done|]. intros (_ & _ & Hel & _).
    destruct Hget. by eapply list_elem_of_lookup_2.
  + split; [by right|done].
Qed.

(** ** The pages and the script *)

Lemma version_hash_id v :
  startsWith (version_hash (el_version v)) "#version" = true
  ∧ str_drop 1 (version_hash (el_version v)) = (version_id v).2.
Proof. done. Qed.

Lemma filter_is_id_version_id versions :
  snd <$> List.filter is_id (version_id <$> versions)
  = (λ v, (version_id v).2) <$> versions.
Proof.
induction versions as [|v versions IH]; [done|]. rewrite !fmap_cons.
cbn [List.filter]. change (is_id (version_id v)) with true. cbv iota.
by rewrite fmap_cons, IH.
Qed.

(** The document of the page of a history: the columns of the
    versions. *)
Lemma page_document_versions k versions html :
  element_page k versions = Return html →
  page_document html = (λ v, (version_id v).2) <$> versions.
Proof.
intros Hpage%element_page_read. unfold page_document.
destruct (page_read_well_formed _ _ Hpage) as [_ ->].
apply filter_is_id_version_id.
Qed.

Lemma version_id_inj v w :
  (version_id v).2 = (version_id w).2 →
  num_to_string (el_version v) = num_to_string (el_version w).
Proof. unfold version_id. simpl. rewrite !append_cons. by intros [= ?]. Qed.

(** C33: the page of a history, opened at the fragment of the link of a
    version, scrolls to the column of that version: to the column at
    position [i], when no earlier version prints the same number. *)
Theorem onload_version k versions i v :
  versions !! i = Some v →
  (∀ j w, j < i → versions !! j = Some w →
     num_to_string (el_version w) ≠ num_to_string (el_version v)) →
  ∃ html,
    element_page k versions = Return html
    ∧ onload (page_document html) (version_hash (el_version v))
      = [ScrollIntoView i {| behavior := "smooth"; block := "center" |}].
Proof.
intros Hi Hfirst.
assert (∃ html, element_page k versions = Return html) as [html Hpage].
{ destruct versions as [|v0 versions]; [done|].
  destruct (pages_Return v0 versions) as (Hn & Hw & Hr). by destruct k. }
exists html. split; [done|]. rewrite (page_document_versions _ _ _ Hpage).
destruct (version_hash_id v) as [Hstarts Hdrop].
unfold onload, scrollToId. rewrite Hstarts, Hdrop.
rewrite (proj2 (getElementById_Some _ _ i)); [done|].
change document with (list string). split.
- by rewrite list_lookup_fmap, Hi.
- intros j Hj. rewrite list_lookup_fmap.
  destruct (versions !! j) as [w|] eqn:Hw; [|done]. simpl.
  intros Hid. apply (inj Some), version_id_inj in Hid.
  by destruct (Hfirst j w).
Qed.

Lemma onload_version_witness :
  ∃ html,
    element_page Way scenario_B = Return html
    ∧ onload (page_document html) "#version-2"
      = [ScrollIntoView 1 {| behavior := "smooth"; block := "center" |}].
Proof.
apply (onload_version Way scenario_B 1 (with_nodes 2 [3; 1; 2]%Z) eq_refl).
intros [|[|j]] w Hj Hw; [|lia|lia]. by injection Hw as <-.
Defined.

(** ** The forms of the index *)

(** The forms of the index page name their targets relative to the
    page.  The root redirects to [/history], without a slash at its end:
    from there the targets resolve to [/node.php], [/way.php] and
    [/relation.php], which are not under the mount point of
    [historyRoutes], where the legacy routes are.  Served at
    [/history/], the same page reaches them. *)
Theorem index_forms_resolve fetch :
  app fetch GetRoot = Return (Redirect mount)
  ∧ form_actions renderIndex = ["node.php"; "way.php"; "relation.php"]
  ∧ resolve mount <$> form_actions renderIndex
    = ["/node.php"; "/way.php"; "/relation.php"]
  ∧ Forall (λ url, String.prefix (mount +:+ "/") url = false)
      (resolve mount <$> form_actions renderIndex)
  ∧ resolve (mount +:+ "/") <$> form_actions renderIndex
    = ["/history/node.php"; "/history/way.php"; "/history/relation.php"].
Proof.
split; [done|]. split; [by vm_compute|]. split; [by vm_compute|].
split; [|by vm_compute].
assert (resolve mount <$> form_actions renderIndex
        = ["/node.php"; "/way.php"; "/relation.php"]) as -> by (by vm_compute).
by repeat constructor.
Qed.
