(* ===== verification/Dispatch.v ===== *)
(** * From the URL of a request to its route ([src/src/index.ts],
      [src/src/routes/history.ts])

    The routes as the sources register them, each with the path it is
    registered with and what its handler reads from the request, and
    the matching of the path of a request to the first of them, as the
    documentation of the framework describes it: a path is matched
    segment by segment, [:id] stands for one segment that is not empty,
    and a slash at the end of a path counts.  The theorems say which
    URL reaches which handler, that the redirects of the application
    lead to its routes, that the forms of the index page do not, and
    what a request for the page of an element is answered with, from
    the path of the request to the table of the page. *)

From Stdlib Require Import Ascii.
From S2P Require Import Prelude JsString JsNumber JsValue Aggregate Types Api.
From S2P Require Import DiffSpec History Fetch Templates Routes Lifecycle Html.
From S2P Require Import Table Browser.

(** ** Definitions *)

(** The segments of a path: the texts between its slashes. *)
Fixpoint split_path (path : string) : list string :=
  match path with
  | "" => [""]
  | String c path' =>
      if Ascii.eqb c "/" then "" :: split_path path'
      else match split_path path' with
           | segment :: segments => String c segment :: segments
           | [] => [String c ""]
           end
  end.

(** A segment of the path of a route: a text, or a parameter. *)
Inductive segment :=
  | Literal (text : string)
  | Param (name : string).

#[export] Instance segment_eq_dec : EqDecision segment.
Proof. solve_decision. Defined.

Definition segment_of (s : string) : segment :=
  match s with
  | String ":" name => Param name
  | _ => Literal s
  end.

Definition pattern_of (path : string) : list segment :=
  segment_of <$> split_path path.

(** The parameters of a path that matches a pattern. *)
Fixpoint match_segments (pattern : list segment) (path : list string)
  : option (list (string * string)) :=
  match pattern, path with
  | [], [] => Some []
  | Literal text :: pattern', s :: path' =>
      if String.eqb text s then match_segments pattern' path' else None
  | Param name :: pattern', s :: path' =>
      if String.eqb s "" then None
      else cons (name, s) <$> match_segments pattern' path'
  | _, _ => None
  end.

(** What a handler reads from the request: [c.req.param(name)] and
    [c.req.query(name)]. *)
Record context := {
  req_param : list (string * string);
  req_query : list (string * string);
}.

Definition param (c : context) (name : string) : option string :=
  assoc name (req_param c).

Definition query (c : context) (name : string) : option string :=
  assoc name (req_query c).

(** The routes of [historyRoutes], in the order of their registration:
    the path and what the handler reads. *)
Definition history_table : list (string * (context → history_request)) :=
  [ ("/", λ _, GetIndex);
    ("/node.php", λ c, GetNodePhp (query c "id"));
    ("/way.php", λ c, GetWayPhp (query c "id"));
    ("/relation.php", λ c, GetRelationPhp (query c "id"));
    ("/node/:id", λ c, GetNode (default "" (param c "id")));
    ("/way/:id", λ c, GetWay (default "" (param c "id")));
    ("/relation/:id", λ c, GetRelation (default "" (param c "id"))) ].

(** The path of a route of an application mounted at [base]. *)
Definition mergePath (base sub : string) : string :=
  if String.eqb sub "/" then base else base +:+ sub.

(** The routes of [app]: those of [historyRoutes] under [/history], then
    the root. *)
Definition app_table : list (string * (context → request)) :=
  ((λ route : string * (context → history_request),
      (mergePath mount route.1, λ c, GetHistory (route.2 c)))
     <$> history_table)
  ++ [("/", λ _, GetRoot)].

(** The routes of a table, each with the segments of its path. *)
Definition compile {A} (table : list (string * (context → A)))
  : list (list segment * (context → A)) :=
  (λ route, (pattern_of route.1, route.2)) <$> table.

(** The first route that matches. *)
Fixpoint first_match {A} (routes : list (list segment * (context → A)))
    (path : list string) (q : list (string * string)) : option A :=
  match routes with
  | [] => None
  | (pattern, handler) :: routes' =>
      match match_segments pattern path with
      | Some params => Some (handler {| req_param := params; req_query := q |})
      | None => first_match routes' path q
      end
  end.

(** The route of a request, from its method, its path and its query;
    none when the application answers that there is no such page. *)
Definition dispatch (method path : string) (q : list (string * string))
  : option request :=
  if String.eqb method "GET"
  then first_match (compile app_table) (split_path path) q
  else None.

(** What the application answers. *)
Definition serve (fetch : network) (method path : string)
    (q : list (string * string)) : option (result exn reply) :=
  app fetch <$> dispatch method path q.

(** The path of a location: what comes before its query and its
    fragment. *)
Fixpoint path_of (location : string) : string :=
  match location with
  | "" => ""
  | String c location' =>
      if Ascii.eqb c "?" || Ascii.eqb c "#" then ""
      else String c (path_of location')
  end.

(** A text that is one segment of a path. *)
Definition is_segment (s : string) : bool :=
  negb (String.eqb s "") && negb (mem_char "/" s)
  && negb (String.eqb s ".") && negb (String.eqb s "..").

(** The legacy route of a kind of element. *)
Definition legacy_request (k : element) (id : option string) : request :=
  GetHistory match k with
             | Node => GetNodePhp id
             | Way => GetWayPhp id
             | Relation => GetRelationPhp id
             end.

(** The path of the page of an element. *)
Definition element_path (k : element) (id : string) : string :=
  "/history/" +:+ element_name k +:+ "/" +:+ id.

(** The path a route is reached at. *)
Definition url_of (r : request) : string :=
  match r with
  | GetRoot => "/"
  | GetHistory GetIndex => "/history"
  | GetHistory (GetNodePhp _) => "/history/node.php"
  | GetHistory (GetWayPhp _) => "/history/way.php"
  | GetHistory (GetRelationPhp _) => "/history/relation.php"
  | GetHistory (GetNode id) => element_path Node id
  | GetHistory (GetWay id) => element_path Way id
  | GetHistory (GetRelation id) => element_path Relation id
  end.

(** What the handler of a route has read from a request with the
    query [q]: the legacy routes the value of [id], the element routes a
    segment of the path. *)
Definition reads (r : request) (q : list (string * string)) : Prop :=
  match r with
  | GetRoot | GetHistory GetIndex => True
  | GetHistory (GetNodePhp id) | GetHistory (GetWayPhp id)
  | GetHistory (GetRelationPhp id) => id = assoc "id" q
  | GetHistory (GetNode id) | GetHistory (GetWay id)
  | GetHistory (GetRelation id) => id ≠ "" ∧ mem_char "/" id = false
  end.

(** ** Paths and segments *)

Lemma split_path_cons path : ∃ s segments, split_path path = s :: segments.
Proof.
induction path as [|c path (s & segments & IH)]; simpl; [by eexists _, _|].
destruct (Ascii.eqb c "/"); [by eexists _, _|]. rewrite IH. by eexists _, _.
Qed.

Lemma join_split_path path : join "/" (split_path path) = path.
Proof.
induction path as [|c path IH]; [done|]. cbn [split_path].
destruct (split_path_cons path) as (s & segments & Hpath).
rewrite Hpath in *. destruct (Ascii.eqb_spec c "/") as [->|Hc].
- change (join "/" ("" :: s :: segments))
    with ("" +:+ "/" +:+ join "/" (s :: segments)).
  by rewrite IH.
- destruct segments as [|s' segments]; [by simplify_eq/=|].
  change (join "/" (String c s :: s' :: segments))
    with (String c (s +:+ "/" +:+ join "/" (s' :: segments))).
  by rewrite <- IH.
Qed.

Lemma split_path_no_slash path :
  Forall (λ s, mem_char "/" s = false) (split_path path).
Proof.
induction path as [|c path IH]; simpl; [by repeat constructor|].
destruct (Ascii.eqb_spec c "/") as [->|Hc]; [by constructor|].
destruct IH as [|s segments Hs IH]; constructor; try done; simpl;
  by rewrite ?Hs, (proj2 (Ascii.eqb_neq _ _)).
Qed.

(** A text without a slash is one segment. *)
Lemma split_path_segment s : mem_char "/" s = false → split_path s = [s].
Proof.
induction s as [|c s IH]; [done|]. simpl.
rewrite orb_false_iff. intros [-> Hs]. by rewrite IH.
Qed.

Lemma split_path_element k id :
  mem_char "/" id = false →
  split_path (element_path k id) = [""; "history"; element_name k; id].
Proof.
intros Hid. unfold element_path.
destruct k; cbn [element_name]; string_norm; cbn;
  by rewrite (split_path_segment id Hid).
Qed.

(** ** Which URL reaches which handler *)

(** The routes of the application, with the segments of their paths. *)
Lemma compile_app_table :
  compile app_table
  = [ ([Literal ""; Literal "history"], λ _, GetHistory GetIndex);
      ([Literal ""; Literal "history"; Literal "node.php"],
       λ c, GetHistory (GetNodePhp (query c "id")));
      ([Literal ""; Literal "history"; Literal "way.php"],
       λ c, GetHistory (GetWayPhp (query c "id")));
      ([Literal ""; Literal "history"; Literal "relation.php"],
       λ c, GetHistory (GetRelationPhp (query c "id")));
      ([Literal ""; Literal "history"; Literal "node"; Param "id"],
       λ c, GetHistory (GetNode (default "" (param c "id"))));
      ([Literal ""; Literal "history"; Literal "way"; Param "id"],
       λ c, GetHistory (GetWay (default "" (param c "id"))));
      ([Literal ""; Literal "history"; Literal "relation"; Param "id"],
       λ c, GetHistory (GetRelation (default "" (param c "id"))));
      ([Literal ""; Literal ""], λ _, GetRoot) ].
Proof. reflexivity. Qed.

(** The route of a path, from its segments. *)
Lemma first_match_segments segments q r :
  first_match (compile app_table) segments q = Some r →
  join "/" segments = url_of r
  ∧ match r with
    | GetHistory (GetNode id) | GetHistory (GetWay id)
    | GetHistory (GetRelation id) => id ≠ "" ∧ segments !! 3 = Some id
    | _ => reads r q
    end.
Proof.
rewrite compile_app_table.
destruct segments as [|s0 [|s1 [|s2 [|s3 [|s4 segments]]]]];
  cbn -[String.eqb];
  repeat match goal with
         | |- context [String.eqb ?a ?b] =>
             destruct (String.eqb_spec a b); subst; cbn -[String.eqb]
         end;
  intros; by simplify_eq.
Qed.

Lemma dispatch_element k id q :
  id ≠ "" → mem_char "/" id = false →
  dispatch "GET" (element_path k id) q = Some (element_request k id).
Proof.
intros Hid Hslash. unfold dispatch. cbn [String.eqb Ascii.eqb Bool.eqb].
rewrite (split_path_element k id Hslash), compile_app_table.
destruct (String.eqb_spec id "") as [?|_]; [done|].
destruct k; cbn -[String.eqb];
  by rewrite (proj2 (String.eqb_neq id "") Hid).
Qed.

Lemma dispatch_inv method path q r :
  dispatch method path q = Some r →
  method = "GET" ∧ path = url_of r ∧ reads r q.
Proof.
unfold dispatch. destruct (String.eqb_spec method "GET") as [->|]; [|done].
intros [Hpath Hreads]%first_match_segments.
rewrite join_split_path in Hpath. do 2 (split; [done|]).
destruct r as [|[]]; try done; destruct Hreads as [Hid Hseg];
  (split; [done|]);
  apply (Forall_lookup_1 _ _ _ _ (split_path_no_slash path) Hseg).
Qed.

(** C23: which URL reaches which handler.  A request reaches a route
    exactly when its method is GET and its path is the path of the
    route: [/] for the root, [/history] for the index, without a slash
    at its end, [/history/node.php] and the like for the legacy routes,
    which read [id] from the query, and [/history/node/] and the like
    followed by one segment that is not empty for the pages of the
    elements.  No path reaches two routes. *)
Theorem dispatch_spec method path q r :
  dispatch method path q = Some r
  ↔ method = "GET" ∧ path = url_of r ∧ reads r q.
Proof.
split; [apply dispatch_inv|].
intros (-> & -> & Hreads).
destruct r as [|[| ? | ? | ? |id|id|id]]; simpl in Hreads; subst; try done;
  destruct Hreads as [Hid Hslash].
- by apply (dispatch_element Node).
- by apply (dispatch_element Way).
- by apply (dispatch_element Relation).
Qed.

(** ** Where the redirects lead *)

(** A location leads to a route when a request for its path reaches
    the route, whatever its query. *)
Definition leads_to (location : string) (r : option request) : Prop :=
  ∀ q, dispatch "GET" (path_of location) q = r.

Lemma path_of_safe s :
  mem_char "?" s = false → mem_char "#" s = false → path_of s = s.
Proof.
induction s as [|c s IH]; [done|]. simpl.
rewrite !orb_false_iff. intros [Hc Hs] [Hc' Hs'].
by rewrite Hc, Hc', IH.
Qed.

Lemma path_of_element_path k id :
  path_of (element_path k id) = element_path k (path_of id).
Proof. unfold element_path. by destruct k. Qed.

Lemma legacy_redirect fetch k id :
  app fetch (legacy_request k id)
  = Return (Redirect match id with
                     | Some (String c s) => element_path k (String c s)
                     | _ => "/history"
                     end).
Proof. by destruct k, id as [[|c s]|]. Qed.

(** A path with an empty segment or a segment too many under the page of
    an element reaches no route. *)
Lemma dispatch_not_segment k id q :
  id = "" ∨ mem_char "/" id = true →
  dispatch "GET" (element_path k id) q = None.
Proof.
intros Hid. destruct (dispatch _ _ _) as [r|] eqn:Hr; [|done].
apply dispatch_inv in Hr as (_ & Hpath & Hreads).
destruct k, r as [|[]]; try done; cbn [url_of] in Hpath;
  unfold element_path in Hpath; try done;
  do 3 apply (inj _) in Hpath; subst; destruct Hreads, Hid; congruence.
Qed.

Lemma leads_to_index : leads_to "/history" (Some (GetHistory GetIndex)).
Proof. by intros q. Qed.

Lemma leads_to_element k id :
  is_segment (path_of id) = true →
  leads_to (element_path k id) (Some (element_request k (path_of id))).
Proof.
unfold is_segment. rewrite !andb_true_iff, !negb_true_iff.
intros [[[Hid%String.eqb_neq Hslash] _] _] q.
rewrite path_of_element_path. by apply dispatch_element.
Qed.

(** C24: the redirects of the application lead to its routes.  A
    legacy route redirects to the page of the element its [id] names,
    and to the index when [id] is missing or empty; the root redirects
    to the index.  A request for [/history] reaches the index, and a
    request for the page of an element reaches the handler of that kind
    of element with the [id] of the legacy request, when that [id], up
    to a [?] or a [#] in it, is one segment of a path. *)
Theorem redirects_routed fetch :
  (∀ k id,
     app fetch (legacy_request k id)
     = Return (Redirect match id with
                        | Some (String c s) => element_path k (String c s)
                        | _ => "/history"
                        end))
  ∧ ∀ r location,
      app fetch r = Return (Redirect location) →
      (location = "/history" ∧ leads_to location (Some (GetHistory GetIndex)))
      ∨ ∃ k id,
          r = legacy_request k (Some id) ∧ id ≠ ""
          ∧ location = element_path k id
          ∧ (is_segment (path_of id) = true →
             leads_to location (Some (element_request k (path_of id)))).
Proof.
split; [apply legacy_redirect|]. intros r location Hr.
assert (∀ k id, r = legacy_request k id →
          (location = "/history"
           ∧ leads_to location (Some (GetHistory GetIndex)))
          ∨ ∃ k id,
              r = legacy_request k (Some id) ∧ id ≠ ""
              ∧ location = element_path k id
              ∧ (is_segment (path_of id) = true →
                 leads_to location (Some (element_request k (path_of id)))))
  as Hlegacy.
{ intros k id ->. rewrite legacy_redirect in Hr.
  destruct id as [[|c s]|]; simplify_eq; [by left| |by left].
  right. exists k, (String c s). repeat split; [done|].
  apply leads_to_element. }
destruct r as [|[|id|id|id|id|id|id]].
- simplify_eq/=. by left.
- done.
- by apply (Hlegacy Node id).
- by apply (Hlegacy Way id).
- by apply (Hlegacy Relation id).
- by apply (app_element_Return fetch Node) in Hr as [(?&?&?&?)|(?&?&?)].
- by apply (app_element_Return fetch Way) in Hr as [(?&?&?&?)|(?&?&?)].
- by apply (app_element_Return fetch Relation) in Hr as [(?&?&?&?)|(?&?&?)].
Qed.

(** A legacy request for node 42 is redirected to the page of node 42. *)
Example redirect_node_42 :
  serve (always {| status := 404; body := InvalidJson |}) "GET"
    "/history/node.php" [("id", "42")]
  = Some (Return (Redirect "/history/node/42"))
  ∧ dispatch "GET" "/history/node/42" [] = Some (GetHistory (GetNode "42"))
  ∧ dispatch "GET" "/history/node/42/" [] = None
  ∧ dispatch "POST" "/history/node/42" [] = None
  ∧ dispatch "GET" "/history/" [] = None.
Proof. by vm_compute. Qed.

(** ** The forms of the index page *)

(** C35: the forms of the index page lead to no route.  The index is
    served at [/history], where the root redirects, and not at
    [/history/]; from [/history] its forms, whose targets are relative,
    resolve to [/node.php], [/way.php] and [/relation.php], which no
    route answers.  The legacy routes are at the paths the forms would
    resolve to from [/history/]. *)
Theorem index_forms_unrouted fetch q :
  serve fetch "GET" "/" q = Some (Return (Redirect mount))
  ∧ serve fetch "GET" mount q = Some (Return (Html renderIndex))
  ∧ dispatch "GET" (mount +:+ "/") q = None
  ∧ resolve mount <$> form_actions renderIndex
    = ["/node.php"; "/way.php"; "/relation.php"]
  ∧ Forall (λ action, dispatch "GET" (resolve mount action) q = None)
      (form_actions renderIndex)
  ∧ (λ action, dispatch "GET" (resolve (mount +:+ "/") action) q)
      <$> form_actions renderIndex
    = (λ k, Some (legacy_request k (assoc "id" q))) <$> [Node; Way; Relation].
Proof.
assert (form_actions renderIndex = ["node.php"; "way.php"; "relation.php"])
  as -> by (by vm_compute).
repeat split; try done. by repeat constructor.
Qed.

(** ** From the request to the page *)

(** C11: the page of an element, from the request to what the browser
    has.  A GET request for the path of the page of an element whose
    [id] is one segment reaches the handler of that kind of element;
    when the API answers the request of the handler with a history of
    fewer than a thousand versions and at least one, the application
    answers with the page the template renders for the history: the
    page is well formed, its table is the matrix of the handler, and
    its document has one identifier for the column of each version. *)
Theorem serve_element fetch k id q response versions :
  id ≠ "" → mem_char "/" id = false →
  fetch (history_url (element_name k) id) = Return response →
  (200 ≤ status response ≤ 299)%Z →
  body response = JsonData (Some versions) →
  0 < length versions < 1000 →
  ∃ html,
    serve fetch "GET" (element_path k id) q = Some (Return (Html html))
    ∧ element_page k versions = Return html
    ∧ well_formed html = true
    ∧ table html = element_table (columns versions) k versions
    ∧ page_document html = (λ v, (version_id v).2) <$> versions.
Proof.
intros Hid Hslash Hfetch Hstatus Hbody Hlen.
assert (∃ html, element_page k versions = Return html) as [html Hpage].
{ destruct versions as [|v versions]; [simpl in Hlen; lia|].
  destruct (pages_Return v versions) as (Hn & Hw & Hr). by destruct k. }
exists html. split; [|split; [done|split; [|split]]].
- unfold serve. rewrite dispatch_element by done.
  cbn [fmap option_fmap option_map]. f_equal.
  rewrite app_element, Hfetch. simpl.
  rewrite (answered_ok _ _ _ Hstatus Hbody). simpl. by rewrite Hpage.
- by eapply element_page_well_formed.
- apply (table_element_page versions); [|done].
  rewrite span_of_colspan by lia. unfold columns. lia.
- by eapply page_document_versions.
Qed.

Lemma serve_element_witness :
  ∃ html,
    serve (serving (history_url "way" "1") scenario_B) "GET"
      "/history/way/1" [] = Some (Return (Html html))
    ∧ element_page Way scenario_B = Return html
    ∧ well_formed html = true
    ∧ table html = element_table 3 Way scenario_B
    ∧ page_document html = ["version-1"; "version-2"].
Proof.
apply (serve_element (serving (history_url "way" "1") scenario_B) Way "1" []
         {| status := 200; body := JsonData (Some scenario_B) |} scenario_B);
  try done; simpl; lia.
Defined.
